(** * TracerCatalog: the survey-geometry pipeline of nbodykit

    A shallow embedding of [nbodykit/plugins/datasource/TracerCatalog.py]:
    the module-level loader [nbar_fromfile] and the methods of
    [TracerCatalogDataSource] ([__init__], [_define_box], [_to_cartesian],
    [_set_nbar], [set_source], [read]).

    Numbers.  A numpy [float64] is modelled by a real number, so rounding
    is abstracted away.  numpy's true division does not raise on a zero
    divisor (it warns and yields nan or inf): [np_divide] returns [None]
    there, and [None] is carried wherever the source keeps such a value
    (the bin-count quotient, the ordinates of the density curve, the FKP
    weights).

    scipy.  The density curve is scipy's interpolating spline of degree
    3, imported under the name [spline].  Its constructor refuses fewer
    than four points; [InterpolatedUnivariateSpline] models that, and
    evaluation of a fitted curve is a parameter of [read].

    Objects.  The instance is a record; methods run in a small monad that
    threads the instance, an event trace (upstream reads, collectives,
    log records, yielded chunks) and Python exceptions.  An exception
    keeps the instance as it was when it was raised, as in Python. *)

From Stdlib Require Import String Ascii DecimalString.
From Stdlib Require Import Reals Lra Lia List ZArith Bool Arith.
Import ListNotations.
Local Open Scope R_scope.

(* ================================================================== *)
(** * Python values: exceptions and results *)

Inductive exn : Type :=
| ValueError (msg : string)
| NotImplementedError (msg : string)
| NameError (name : string)
| AttributeError (msg : string)
| TypeError (msg : string)
| KeyError (key : string)
| FitpackError (msg : string).

Inductive result (A : Type) : Type :=
| Return (a : A)
| Raise (e : exn).
Arguments Return {A} a.
Arguments Raise {A} e.

(** [str] of a list of plain strings, e.g. ['a', 'b']. *)
Fixpoint py_join (sep : string) (l : list string) : string :=
  match l with
  | [] => EmptyString
  | [s] => s
  | s :: rest => (s ++ sep ++ py_join sep rest)%string
  end.

Definition py_repr (s : string) : string := ("'" ++ s ++ "'")%string.

Definition py_str_list (l : list string) : string :=
  ("[" ++ py_join ", " (map py_repr l) ++ "]")%string.

(** [needle in haystack] on strings. *)
Fixpoint contains (needle haystack : string) : bool :=
  orb (String.prefix needle haystack)
      match haystack with
      | EmptyString => false
      | String _ rest => contains needle rest
      end.

Definition str_in (s : string) (l : list string) : bool :=
  existsb (String.eqb s) l.

(** The messages of the two configuration errors. *)
Definition fsky_message : string :=
  "please specify `fsky` to compute volume needed for `nbar`".

Definition P0_message : string :=
  "if 'compute_fkp_weights' is set, please specify a value for 'P0_fkp'".

(* ================================================================== *)
(** * numpy on real numbers *)

(** [x / y] on float64: a zero divisor gives no real value. *)
Definition np_divide (x y : R) : option R :=
  if Req_dec_T y 0 then None else Some (x / y).

(** [a.astype(int)]: the C cast, truncation toward zero. *)
Definition astype_int (x : R) : Z :=
  if Rle_dec 0 x then Zfloor x else Zceil x.

(** [numpy.ceil]; the ceiling of nan is nan. *)
Definition np_ceil (q : option R) : option Z := option_map Zceil q.

(** [max(1, x)] of the builtin: [x] when [x > 1] holds, else [1];
    every comparison with nan is false, so nan gives [1]. *)
Definition py_max1 (x : option Z) : Z :=
  match x with
  | Some k => if (1 <? k)%Z then k else 1%Z
  | None => 1%Z
  end.

Definition np_sum (l : list R) : R := fold_right Rplus 0 l.

Definition np_mean (l : list R) : R := np_sum l / INR (length l).

(** [numpy.std]: the population standard deviation (ddof = 0). *)
Definition np_std (l : list R) : R :=
  sqrt (np_mean (map (fun x => Rsqr (x - np_mean l)) l)).

(** [a.max()] and [a.min()]; a zero-size array has neither. *)
Definition np_max (l : list R) : option R :=
  match l with
  | [] => None
  | x :: rest => Some (fold_left Rmax rest x)
  end.

Definition np_min (l : list R) : option R :=
  match l with
  | [] => None
  | x :: rest => Some (fold_left Rmin rest x)
  end.

(** Element-wise binary operation on two arrays of equal length. *)
Fixpoint map2 {A B C : Type} (f : A -> B -> C) (l : list A) (m : list B)
  : list C :=
  match l, m with
  | a :: l', b :: m' => f a b :: map2 f l' m'
  | _, _ => []
  end.

(** [numpy.searchsorted(a, v, "right")]: the first index [i] with
    [v < a[i]], or [len(a)]; on a sorted [a] this is numpy's insertion
    point with [a[i-1] <= v < a[i]]. *)
Fixpoint searchsorted_right (a : list R) (v : R) : nat :=
  match a with
  | [] => O
  | b :: rest => if Rlt_dec v b then O else S (searchsorted_right rest v)
  end.

(** [numpy.bincount(x, minlength=m)]: occurrences of 0, 1, ... up to
    [max(m, max(x)+1) - 1]. *)
Definition np_bincount (x : list nat) (minlength : nat) : list nat :=
  map (count_occ Nat.eq_dec x)
      (seq 0 (Nat.max minlength (S (fold_right Nat.max O x)))).

(** The slices [a[1:]], [a[:-1]] and [a[1:-1]]. *)
Definition slice_from1 {A : Type} (a : list A) : list A := tl a.
Definition slice_to_m1 {A : Type} (a : list A) : list A := removelast a.
Definition slice_1_m1 {A : Type} (a : list A) : list A := removelast (tl a).

(* ================================================================== *)
(** * Three-vectors *)

Definition vec3 : Type := (R * R * R)%type.

Definition vmap (f : R -> R) (a : vec3) : vec3 :=
  let '(a1, a2, a3) := a in (f a1, f a2, f a3).

Definition vmap2 (f : R -> R -> R) (a b : vec3) : vec3 :=
  let '(a1, a2, a3) := a in
  let '(b1, b2, b3) := b in (f a1 b1, f a2 b2, f a3 b3).

Definition vadd : vec3 -> vec3 -> vec3 := vmap2 Rplus.
Definition vsub : vec3 -> vec3 -> vec3 := vmap2 Rminus.
Definition vneg : vec3 -> vec3 := vmap Ropp.
Definition vabs : vec3 -> vec3 := vmap Rabs.
Definition vscale (k : R) : vec3 -> vec3 := vmap (Rmult k).
Definition vzero : vec3 := (0, 0, 0).

Definition vnth (a : vec3) (i : nat) : R :=
  let '(a1, a2, a3) := a in
  match i with O => a1 | S O => a2 | _ => a3 end.

Definition norm2 (a : vec3) : R :=
  let '(x, y, z) := a in x * x + y * y + z * z.

(** [a.min(axis=0)] and [a.max(axis=0)] of an (N, 3) array with N > 0. *)
Definition amin_axis0 (first : vec3) (rest : list vec3) : vec3 :=
  fold_left (vmap2 Rmin) rest first.
Definition amax_axis0 (first : vec3) (rest : list vec3) : vec3 :=
  fold_left (vmap2 Rmax) rest first.

(** A running corner: [None] is the initial array of +inf (for the
    minimum) or -inf (for the maximum); the three components leave the
    sentinel together. *)
Definition corner : Type := option vec3.

Definition np_minimum (acc : corner) (v : vec3) : corner :=
  match acc with
  | None => Some v
  | Some a => Some (vmap2 Rmin a v)
  end.

Definition np_maximum (acc : corner) (v : vec3) : corner :=
  match acc with
  | None => Some v
  | Some a => Some (vmap2 Rmax a v)
  end.

Definition merge_corner (f : R -> R -> R) (a b : corner) : corner :=
  match a, b with
  | None, c | c, None => c
  | Some x, Some y => Some (vmap2 f x y)
  end.

(** [numpy.amin(gathered, axis=0)] and [numpy.amax(gathered, axis=0)]. *)
Definition np_amin (l : list corner) : corner :=
  fold_right (merge_corner Rmin) None l.
Definition np_amax (l : list corner) : corner :=
  fold_right (merge_corner Rmax) None l.

(* ================================================================== *)
(** * Collaborators *)

(** The cosmology handle. *)
Record Cosmology : Type := { comoving_distance : R -> R }.

(** A chunk of an upstream [RaDecRedshift] source: rows (ra, dec, z)
    and their weights. *)
Record Chunk : Type := {
  chunk_coords : list vec3;
  chunk_weight : list R
}.

(** An upstream source, seen through the chunks its [read] delivers for
    a value of [full]. *)
Record DataSource : Type := { read_chunks : bool -> list Chunk }.

(** The density curve: what [spline(x, y)] is built from. *)
Record Curve : Type := spline {
  knots : list R;
  ordinates : list (option R)
}.

(** [str] of a non-negative int. *)
Definition py_str_nat (n : nat) : string :=
  NilEmpty.string_of_uint (Nat.to_uint n).

(** The message of scipy's fitting routine fpcurf0 when its check
    m > k on the number m of points fails. *)
Definition fitpack_message (m : nat) : string :=
  ("(m>k) failed for hidden m: fpcurf0:m=" ++ py_str_nat m)%string.

(** The call [spline(x, y)]: scipy's InterpolatedUnivariateSpline with
    its default degree k = 3 fits through m points only when m > k, and
    its fitting routine raises otherwise.  It does not look at the
    ordinates (check_finite is off by default).  Here it is always
    called with as many ordinates as knots. *)
Definition InterpolatedUnivariateSpline (x : list R) (y : list (option R))
  : result Curve :=
  if Nat.leb (length x) 3
  then Raise (FitpackError (fitpack_message (length x)))
  else Return (spline x y).

(** [BoxSize] is a float array when given by the user and an int array
    when inferred. *)
Inductive Box : Type :=
| BoxFloat (v : vec3)
| BoxInt (v : Z * Z * Z).

Definition box_nth (b : Box) (i : nat) : R :=
  match b with
  | BoxFloat v => vnth v i
  | BoxInt (b1, b2, b3) => vnth (IZR b1, IZR b2, IZR b3) i
  end.

(** What one rank hands to the three [gather] calls of [__init__]. *)
Record Partial : Type := {
  part_min : corner;
  part_max : corner;
  part_redshifts : list R
}.

(** What rank 0 hands to the three [bcast] calls of [__init__]. *)
Record Geometry : Type := {
  geo_BoxSize : option Box;
  geo_offset : option vec3;
  geo_nbar : option Curve
}.

(** An array handed downstream by [read], and its (shape, dtype); every
    dtype is float64. *)
Inductive ndarray : Type :=
| Arr2 (rows : list vec3)
| Arr1 (vals : list (option R)).

Definition shape (d : ndarray) : list nat :=
  match d with
  | Arr2 rows => [length rows; 3%nat]
  | Arr1 vals => [length vals]
  end.

(** [numpy.empty(0, dtype=(dtype, shape[1:]))]. *)
Definition empty_like (sh : list nat) : ndarray :=
  match tl sh with
  | [] => Arr1 []
  | _ => Arr2 []
  end.

(** The communicator as one process sees it: its rank, what the other
    ranks contribute to a gather (seen on rank 0 only) and what rank 0
    broadcasts (seen on the other ranks only). *)
Record Comm : Type := {
  rank : nat;
  gather_others : list Partial;
  bcast_geometry : Geometry;
  bcast_shapes : nat -> list (list nat)
}.

Definition bcast {A : Type} (c : Comm) (own from_root : A) : A :=
  if Nat.eqb (rank c) 0 then own else from_root.

(* ================================================================== *)
(** * The instance *)

Inductive source_ref : Type := ref_data | ref_randoms.

Record TracerCatalog : Type := {
  data : DataSource;
  randoms : DataSource;
  BoxSize : option Box;
  BoxPad : R;
  compute_fkp_weights : bool;
  P0_fkp : option R;
  nbar : option Curve;
  fsky : option R;
  cosmo : option Cosmology;
  comm : Comm;
  _source : option source_ref;
  offset : option vec3
}.

Definition set_BoxSize (b : option Box) (s : TracerCatalog) : TracerCatalog :=
  {| data := data s; randoms := randoms s; BoxSize := b; BoxPad := BoxPad s;
     compute_fkp_weights := compute_fkp_weights s; P0_fkp := P0_fkp s;
     nbar := nbar s; fsky := fsky s; cosmo := cosmo s; comm := comm s;
     _source := _source s; offset := offset s |}.

Definition set_nbar (c : option Curve) (s : TracerCatalog) : TracerCatalog :=
  {| data := data s; randoms := randoms s; BoxSize := BoxSize s;
     BoxPad := BoxPad s; compute_fkp_weights := compute_fkp_weights s;
     P0_fkp := P0_fkp s; nbar := c; fsky := fsky s; cosmo := cosmo s;
     comm := comm s; _source := _source s; offset := offset s |}.

Definition set__source (r : option source_ref) (s : TracerCatalog)
  : TracerCatalog :=
  {| data := data s; randoms := randoms s; BoxSize := BoxSize s;
     BoxPad := BoxPad s; compute_fkp_weights := compute_fkp_weights s;
     P0_fkp := P0_fkp s; nbar := nbar s; fsky := fsky s; cosmo := cosmo s;
     comm := comm s; _source := r; offset := offset s |}.

Definition set_offset (o : option vec3) (s : TracerCatalog) : TracerCatalog :=
  {| data := data s; randoms := randoms s; BoxSize := BoxSize s;
     BoxPad := BoxPad s; compute_fkp_weights := compute_fkp_weights s;
     P0_fkp := P0_fkp s; nbar := nbar s; fsky := fsky s; cosmo := cosmo s;
     comm := comm s; _source := _source s; offset := o |}.

Definition deref (s : TracerCatalog) (r : source_ref) : DataSource :=
  match r with
  | ref_data => data s
  | ref_randoms => randoms s
  end.

(* ================================================================== *)
(** * Events and the method monad *)

Inductive event : Type :=
| EvCosmoSample
| EvOpen (src : source_ref) (columns : list string) (full : bool)
| EvChunk (k : nat)
| EvGather
| EvBcast
| EvNonFiniteBox
| EvWarning (axis : nat)
| EvInfo
| EvYield (arrays : list ndarray).

Definition M (A : Type) : Type :=
  TracerCatalog -> result A * TracerCatalog * list event.

Definition ret {A : Type} (a : A) : M A := fun self => (Return a, self, []).

Definition raise {A : Type} (e : exn) : M A := fun self => (Raise e, self, []).

Definition bind {A B : Type} (m : M A) (k : A -> M B) : M B :=
  fun self =>
    match m self with
    | (Return a, self1, t1) =>
        let '(r, self2, t2) := k a self1 in (r, self2, t1 ++ t2)
    | (Raise e, self1, t1) => (Raise e, self1, t1)
    end.

Definition emit (e : event) : M unit := fun self => (Return tt, self, [e]).

Definition get_self : M TracerCatalog := fun self => (Return self, self, []).

Definition modify (f : TracerCatalog -> TracerCatalog) : M unit :=
  fun self => (Return tt, f self, []).

Definition lift {A : Type} (r : result A) : M A := fun self => (r, self, []).

Declare Scope py_scope.
Delimit Scope py_scope with py.
Notation "x <- m ;; k" := (bind m (fun x => k))
  (at level 61, m at next level, right associativity) : py_scope.
Notation "m ;; k" := (bind m (fun _ => k))
  (at level 61, right associativity) : py_scope.
Local Open Scope py_scope.

Definition outcome {A : Type} (x : result A * TracerCatalog * list event)
  : result A := fst (fst x).
Definition final {A : Type} (x : result A * TracerCatalog * list event)
  : TracerCatalog := snd (fst x).
Definition trace {A : Type} (x : result A * TracerCatalog * list event)
  : list event := snd x.

(** The events [t] happened before the run [x]. *)
Definition prepend {A : Type} (t : list event)
  (x : result A * TracerCatalog * list event)
  : result A * TracerCatalog * list event :=
  (outcome x, final x, t ++ trace x).

(* ================================================================== *)
(** * [_to_cartesian] *)

(** One row: the body of [_to_cartesian] at a single index. *)
Definition to_cartesian_row (c : Cosmology) (translate row : vec3) : vec3 :=
  let '(ra, dec, redshift) := row in
  let r := comoving_distance c redshift in
  vadd (r * cos ra * cos dec, r * sin ra * cos dec, r * sin dec) translate.

(** [numpy.vstack([x, y, z]).T]. *)
Fixpoint vstack_T (x y z : list R) : list vec3 :=
  match x, y, z with
  | a :: x', b :: y', c :: z' => (a, b, c) :: vstack_T x' y' z'
  | _, _, _ => []
  end.

Definition _to_cartesian (self : TracerCatalog) (coords : list vec3)
  (translate : vec3) : result (list vec3) :=
  let ra := map (fun row => fst (fst row)) coords in
  let dec := map (fun row => snd (fst row)) coords in
  let redshift := map snd coords in
  match cosmo self with
  | None => Raise (AttributeError "'NoneType' object has no attribute 'comoving_distance'")
  | Some c =>
      let r := map (comoving_distance c) redshift in
      let x := map2 Rmult (map2 Rmult r (map cos ra)) (map cos dec) in
      let y := map2 Rmult (map2 Rmult r (map sin ra)) (map cos dec) in
      let z := map2 Rmult r (map sin dec) in
      Return (map (fun p => vadd p translate) (vstack_T x y z))
  end.

(** The default of the keyword argument [translate]. *)
Definition default_translate : vec3 := vzero.

(* ================================================================== *)
(** * [_define_box] *)

Definition warnings (b : Box) (delta : vec3) : list event :=
  flat_map (fun i => if Rlt_dec (box_nth b i) (vnth delta i)
                     then [EvWarning i] else [])
           (seq 0 3).

Definition _define_box (coords_min coords_max : vec3) : M unit :=
  let delta := vabs (vsub coords_max coords_min) in
  modify (set_offset (Some (vscale 0.5 (vadd coords_min coords_max)))) ;;
  self <- get_self ;;
  match BoxSize self with
  | None =>
      let delta := vscale (1.0 + BoxPad self) delta in
      let '(d1, d2, d3) := delta in
      modify (set_BoxSize
                (Some (BoxInt (astype_int d1, astype_int d2, astype_int d3))))
  | Some b =>
      fun s => (Return tt, s, warnings b delta)
  end.

(* ================================================================== *)
(** * [_set_nbar] *)

(** The bin width of the nested [scotts_bin_width]:
    [3.5 * sigma * 1. / (n ** (1. / 3))]. *)
Definition scotts_dx (data : list R) : R :=
  let n := length data in
  let sigma := np_std data in
  3.5 * sigma * 1 / Rpower (INR n) (1 / 3).

(** The nested function [scotts_bin_width].  On a zero-size array the
    reductions [data.max()] and [data.min()] raise. *)
Definition scotts_bin_width (data : list R) : result (R * list R) :=
  let dx := scotts_dx data in
  match np_max data, np_min data with
  | Some hi, Some lo =>
      let Nbins := np_ceil (np_divide ((hi - lo) * 1) dx) in
      let Nbins := py_max1 Nbins in
      let bins :=
        map (fun k => lo + dx * INR k) (seq 0 (Z.to_nat (Nbins + 1))) in
      Return (dx, bins)
  | _, _ =>
      Raise (ValueError
        "zero-size array to reduction operation maximum which has no identity")
  end.

(** The histogram of N(z): digitize with [searchsorted(..., "right")],
    count, and drop the two outer buckets. *)
Definition nz_counts (zbins redshift : list R) : list nat :=
  let dig := map (searchsorted_right zbins) redshift in
  slice_1_m1 (np_bincount dig (length zbins + 1)).

(** The volume of one shell: [(4./3.)*pi*(R_hi**3 - R_lo**3) * fsky]. *)
Definition shell_volume (f R_hi R_lo : R) : R :=
  (4 / 3) * PI * (R_hi ^ 3 - R_lo ^ 3) * f.

Definition _set_nbar (redshift : list R) (alpha : R) : M unit :=
  self <- get_self ;;
  match nbar self with
  | Some _ => ret tt
  | None =>
      match fsky self with
      | None =>
          raise (ValueError fsky_message)
      | Some f =>
          p <- lift (scotts_bin_width redshift) ;;
          let '(dz, zbins) := p in
          let N := nz_counts zbins redshift in
          match cosmo self with
          | None =>
              raise (AttributeError
                "'NoneType' object has no attribute 'comoving_distance'")
          | Some c =>
              let R_hi := map (comoving_distance c) (slice_from1 zbins) in
              let R_lo := map (comoving_distance c) (slice_to_m1 zbins) in
              let volume := map2 (shell_volume f) R_hi R_lo in
              let z_cen :=
                map2 (fun a b => 0.5 * (a + b))
                     (slice_to_m1 zbins) (slice_from1 zbins) in
              curve <-
                lift (InterpolatedUnivariateSpline z_cen
                        (map2 (fun n v => np_divide (alpha * INR n) v)
                              N volume)) ;;
              modify (set_nbar (Some curve))
          end
      end
  end.

(* ================================================================== *)
(** * [set_source] *)

Definition set_source (which : string) : M unit :=
  if String.eqb which "data" then modify (set__source (Some ref_data))
  else if String.eqb which "randoms"
       then modify (set__source (Some ref_randoms))
       else raise (NotImplementedError
              "'source' must be set to either `data` or `randoms`").

(* ================================================================== *)
(** * [__init__] *)

(** The loop over [self.data.read(['Position'], full=False)]. *)
Fixpoint accumulate (chunks : list Chunk) (k : nat) (acc : Partial)
  : M Partial :=
  match chunks with
  | [] => ret acc
  | c :: rest =>
      emit (EvChunk k) ;;
      self <- get_self ;;
      acc' <-
        match chunk_coords c with
        | [] => ret acc
        | _ :: _ =>
            cartesian <-
              lift (_to_cartesian self (chunk_coords c) default_translate) ;;
            match cartesian with
            | [] =>
                raise (ValueError
                  "zero-size array to reduction operation minimum which has no identity")
            | p :: ps =>
                ret {| part_min := np_minimum (part_min acc) (amin_axis0 p ps);
                       part_max := np_maximum (part_max acc) (amax_axis0 p ps);
                       part_redshifts :=
                         part_redshifts acc ++ map snd (chunk_coords c) |}
            end
        end ;;
      accumulate rest (S k) acc'
  end.

(** What rank 0 does between the gathers and the broadcasts.  When no
    rank saw a row the corners are still infinite and numpy's box
    arithmetic leaves the reals (offset nan, an unspecified cast): the
    model logs [EvNonFiniteBox] and leaves [offset] and [BoxSize] as
    they are. *)
Definition root_work (own : Partial) : M unit :=
  self <- get_self ;;
  let parts := own :: gather_others (comm self) in
  let coords_min := np_amin (map part_min parts) in
  let coords_max := np_amax (map part_max parts) in
  let redshifts := concat (map part_redshifts parts) in
  match coords_min, coords_max with
  | Some lo, Some hi => _define_box lo hi
  | _, _ => emit EvNonFiniteBox
  end ;;
  _set_nbar redshifts 1.0.

Definition __init__ : M unit :=
  modify (set__source None) ;;
  modify (set_offset None) ;;
  self <- get_self ;;
  match cosmo self with
  | None =>
      raise (ValueError
        "please specify a input Cosmology to use in TracerCatalog")
  | Some _ =>
      emit EvCosmoSample ;;
      emit (EvOpen ref_data ["Position"%string] false) ;;
      own <- accumulate (read_chunks (data self) false) 0
               {| part_min := None; part_max := None; part_redshifts := [] |} ;;
      emit EvGather ;; emit EvGather ;; emit EvGather ;;
      (if Nat.eqb (rank (comm self)) 0 then root_work own else ret tt) ;;
      self <- get_self ;;
      let g := bcast_geometry (comm self) in
      emit EvBcast ;;
      modify (set_BoxSize (bcast (comm self) (BoxSize self) (geo_BoxSize g))) ;;
      emit EvBcast ;;
      modify (set_offset (bcast (comm self) (offset self) (geo_offset g))) ;;
      emit EvBcast ;;
      modify (set_nbar (bcast (comm self) (nbar self) (geo_nbar g))) ;;
      if Nat.eqb (rank (comm self)) 0
      then emit EvInfo ;; emit EvInfo ;; emit EvInfo
      else ret tt
  end.

(* ================================================================== *)
(** * [nbar_fromfile] *)

(** The names bound in the module's global namespace when
    [nbar_fromfile] runs: the imports (scipy's class is imported under
    the name [spline]), the logger, the function and the class.  None
    of the builtins is called InterpolatedUnivariateSpline. *)
Definition module_globals : list string :=
  ["DataSource"; "MPI"; "numpy"; "logging"; "spline"; "logger";
   "nbar_fromfile"; "TracerCatalogDataSource"]%string.

(** The file system: the table [numpy.loadtxt] parses from a path that
    exists. *)
Definition FileSystem : Type := string -> option (list (list R)).

Definition nbar_fromfile (fs : FileSystem) (filename : string)
  : result Curve :=
  match fs filename with
  | None => Raise (ValueError "'%s' file for reading nbar does not exist")
  | Some d =>
      if str_in "InterpolatedUnivariateSpline" module_globals
      then Return (spline (map (fun row => nth 0 row 0) d)
                          (map (fun row => Some (nth 1 row 0)) d))
      else Raise (NameError "InterpolatedUnivariateSpline")
  end.

(* ================================================================== *)
(** * [read] *)

Definition valid : list string := ["Position"; "Weight"; "Nbar"]%string.

Definition class_name : string := "TracerCatalogDataSource".

(** [P[key]] on the dict built in the loop. *)
Definition getitem (P : list (string * ndarray)) (key : string)
  : result ndarray :=
  match find (fun kv => String.eqb (fst kv) key) P with
  | Some kv => Return (snd kv)
  | None => Raise (KeyError key)
  end.

(** [[P[key] for key in columns]]. *)
Fixpoint select (P : list (string * ndarray)) (columns : list string)
  : result (list ndarray) :=
  match columns with
  | [] => Return []
  | key :: rest =>
      match getitem P key with
      | Raise e => Raise e
      | Return d =>
          match select P rest with
          | Raise e => Raise e
          | Return ds => Return (d :: ds)
          end
      end
  end.

(** The FKP weight of one object, [1. / (1. + nbar*P0_fkp)]. *)
Definition fkp_weight (P0 n : R) : option R := np_divide 1 (1 + n * P0).

Section WithInterpolant.

(** Evaluation of scipy's interpolating spline at one redshift. *)
Variable spline_call : Curve -> R -> R.

(** The branch [if self.comm.rank == 0] of the loop body. *)
Definition root_chunk (columns : list string) (c : Chunk)
  : M (list ndarray) :=
  self <- get_self ;;
  match offset self with
  | None => raise (TypeError "bad operand type for unary -: 'NoneType'")
  | Some off =>
      pos <- lift (_to_cartesian self (chunk_coords c) (vneg off)) ;;
      match nbar self with
      | None => raise (TypeError "'NoneType' object is not callable")
      | Some curve =>
          let nbar := map (spline_call curve) (map snd (chunk_coords c)) in
          weight <-
            (if compute_fkp_weights self
             then match P0_fkp self with
                  | None =>
                      raise (ValueError P0_message)
                  | Some P0 => ret (map (fkp_weight P0) nbar)
                  end
             else ret (map Some (chunk_weight c))) ;;
          let P := [("Position"%string, Arr2 pos);
                    ("Weight"%string, Arr1 weight);
                    ("Nbar"%string, Arr1 (map Some nbar))] in
          lift (select P columns)
      end
  end.

(** The loop over [self._source.read(['Position', 'Weight'], full=full)]. *)
Fixpoint read_loop (columns : list string) (chunks : list Chunk) (k : nat)
  : M unit :=
  match chunks with
  | [] => ret tt
  | c :: rest =>
      emit (EvChunk k) ;;
      self <- get_self ;;
      let root := Nat.eqb (rank (comm self)) 0 in
      data <- (if root then root_chunk columns c else ret []) ;;
      let shape_and_dtype := if root then map shape data else [] in
      emit EvBcast ;;
      let shape_and_dtype :=
        bcast (comm self) shape_and_dtype (bcast_shapes (comm self) k) in
      let data := if root then data else map empty_like shape_and_dtype in
      emit (EvYield data) ;;
      read_loop columns rest (S k)
  end.

(** [read], run to exhaustion: the body of a generator only runs when
    it is iterated. *)
Definition read (columns : list string) (full : bool) : M unit :=
  self <- get_self ;;
  match _source self with
  | None =>
      raise (ValueError
        "set `source` attribute to `data` or `randoms` by calling `set_source`")
  | Some src =>
      if existsb (fun col => negb (str_in col valid)) columns
      then raise (ValueError
             ("valid `columns` to read from " ++ class_name ++ ": "
              ++ py_str_list valid)%string)
      else
        emit (EvOpen src ["Position"; "Weight"]%string full) ;;
        read_loop columns (read_chunks (deref self src) full) 0
  end.

End WithInterpolant.

(* ================================================================== *)
(** * Histograms by interval, for comparison with [nz_counts] *)

Definition count_if (p : R -> bool) (l : list R) : nat :=
  length (filter p l).

(** Membership in the half-open interval [lo <= v < hi]. *)
Definition in_left_closed (lo hi v : R) : bool :=
  if Rle_dec lo v then (if Rlt_dec v hi then true else false) else false.

(** Membership in the half-open interval [lo < v <= hi]. *)
Definition in_right_closed (lo hi v : R) : bool :=
  if Rlt_dec lo v then (if Rle_dec v hi then true else false) else false.

(** Counts per bin when a bin owns its left edge. *)
Definition histogram_left_closed (zbins sample : list R) : list nat :=
  map2 (fun lo hi => count_if (in_left_closed lo hi) sample)
       (slice_to_m1 zbins) (slice_from1 zbins).

(** Counts per bin when a bin owns its right edge: the histogram a
    right-closed digitize produces once its two tail buckets are
    dropped. *)
Definition histogram_right_closed (zbins sample : list R) : list nat :=
  map2 (fun lo hi => count_if (in_right_closed lo hi) sample)
       (slice_to_m1 zbins) (slice_from1 zbins).

(** The k-th bin edge of a uniform binning. *)
Definition edge (lo dx : R) (k : nat) : R := lo + dx * INR k.

(** Non-decreasing arrays. *)
Definition nondecreasing (a : list R) : Prop :=
  forall i j, (i <= j)%nat -> (j < length a)%nat -> nth i a 0 <= nth j a 0.

(** The number of bins [scotts_bin_width] settles on, given the
    extremes of the data. *)
Definition bin_count (data : list R) (hi lo : R) : nat :=
  Z.to_nat (py_max1 (np_ceil (np_divide ((hi - lo) * 1) (scotts_dx data)))).

(* ================================================================== *)
(** * Sessions: sequences of method calls on one instance *)

Inductive call : Type :=
| Call_init
| Call_define_box (coords_min coords_max : vec3)
| Call_set_nbar (redshift : list R) (alpha : R)
| Call_set_source (which : string)
| Call_read (columns : list string) (full : bool).

Definition perform (spline_call : Curve -> R -> R) (c : call) : M unit :=
  match c with
  | Call_init => __init__
  | Call_define_box lo hi => _define_box lo hi
  | Call_set_nbar redshift alpha => _set_nbar redshift alpha
  | Call_set_source which => set_source which
  | Call_read columns full => read spline_call columns full
  end.

(** The instance after a sequence of calls; a call that raised leaves
    the instance as it was at the raise and the session goes on, as
    with a caller that catches the exception. *)
Fixpoint session (spline_call : Curve -> R -> R) (calls : list call)
  (self : TracerCatalog) : TracerCatalog :=
  match calls with
  | [] => self
  | c :: rest => session spline_call rest (final (perform spline_call c self))
  end.

(* ================================================================== *)
(** * Concrete inputs *)

Definition no_chunks : DataSource := {| read_chunks := fun _ => [] |}.

Definition one_row : DataSource :=
  {| read_chunks := fun _ =>
       [ {| chunk_coords := [(0, 0, 1)]; chunk_weight := [1] |} ] |}.

Definition flat_cosmology : Cosmology := {| comoving_distance := fun z => z |}.

Definition root_alone : Comm :=
  {| rank := 0; gather_others := [];
     bcast_geometry :=
       {| geo_BoxSize := None; geo_offset := None; geo_nbar := None |};
     bcast_shapes := fun _ => [] |}.

(** A catalogue as the configuration leaves it when only [data],
    [randoms] and the cosmology are given: [BoxPad] has its default. *)
Definition bare_catalog : TracerCatalog :=
  {| data := one_row; randoms := no_chunks; BoxSize := None; BoxPad := 0.02;
     compute_fkp_weights := false; P0_fkp := None; nbar := None;
     fsky := None; cosmo := Some flat_cosmology; comm := root_alone;
     _source := None; offset := None |}.

Definition with_fsky (f : R) (s : TracerCatalog) : TracerCatalog :=
  {| data := data s; randoms := randoms s; BoxSize := BoxSize s;
     BoxPad := BoxPad s; compute_fkp_weights := compute_fkp_weights s;
     P0_fkp := P0_fkp s; nbar := nbar s; fsky := Some f; cosmo := cosmo s;
     comm := comm s; _source := _source s; offset := offset s |}.

Definition with_fkp (P0 : option R) (s : TracerCatalog) : TracerCatalog :=
  {| data := data s; randoms := randoms s; BoxSize := BoxSize s;
     BoxPad := BoxPad s; compute_fkp_weights := true;
     P0_fkp := P0; nbar := nbar s; fsky := fsky s; cosmo := cosmo s;
     comm := comm s; _source := _source s; offset := offset s |}.

(** Eight redshifts, four at 0 and four at 1. *)
Definition sample8 : list R := [0; 0; 0; 0; 1; 1; 1; 1].

Definition flat_curve : Curve := spline [0; 1] [Some 2; Some 2].

(** Sixty-four redshifts: eight at 0, forty-eight at 1 and eight at 2. *)
Definition sample64 : list R := repeat 0 8 ++ repeat 1 48 ++ repeat 2 8.

(** A catalogue ready for a read pass on rank 0 with FKP weights. *)
Definition fkp_catalog (P0 : option R) : TracerCatalog :=
  with_fkp P0
    (set_offset (Some vzero)
       (set_nbar (Some flat_curve)
          (set__source (Some ref_data) bare_catalog))).

(* ================================================================== *)
(** * Vocabulary for the statements about boxes, chunks and columns *)

(** Component-wise order on three-vectors. *)
Definition vle (a b : vec3) : Prop :=
  vnth a 0 <= vnth b 0 /\ vnth a 1 <= vnth b 1 /\ vnth a 2 <= vnth b 2.

(** The number of rows of an array. *)
Definition rows (d : ndarray) : nat := hd O (shape d).

(** All the rows of a chunked stream, in reading order. *)
Definition all_rows (chunks : list Chunk) : list vec3 :=
  concat (map chunk_coords chunks).

(** The partial result of a rank before it has read anything. *)
Definition empty_partial : Partial :=
  {| part_min := None; part_max := None; part_redshifts := [] |}.

(** What [read] hands out for one requested column of a chunk, given
    the weights that go with the chunk. *)
Definition column_of (spline_call : Curve -> R -> R) (c : Cosmology)
  (off : vec3) (curve : Curve) (weights : list (option R)) (ch : Chunk)
  (key : string) : ndarray :=
  if String.eqb key "Position"
  then Arr2 (map (to_cartesian_row c (vneg off)) (chunk_coords ch))
  else if String.eqb key "Weight"
       then Arr1 weights
       else Arr1 (map (fun row : vec3 => Some (spline_call curve (snd row)))
                      (chunk_coords ch)).

Definition cosmology_message : string :=
  "please specify a input Cosmology to use in TracerCatalog".

Definition zero_size_message : string :=
  "zero-size array to reduction operation maximum which has no identity".

(** The events of the read loop of [__init__] on [n] chunks, up to the
    three gathers. *)
Definition init_prefix (n : nat) : list event :=
  [EvCosmoSample; EvOpen ref_data ["Position"%string] false]
    ++ map EvChunk (seq 0 n) ++ [EvGather; EvGather; EvGather].

(** The running corner after a list of points. *)
Definition corner_min (acc : corner) (points : list vec3) : corner :=
  fold_left np_minimum points acc.
Definition corner_max (acc : corner) (points : list vec3) : corner :=
  fold_left np_maximum points acc.

(** An interpolant that is 2 everywhere. *)
Definition flat_density : Curve -> R -> R := fun _ _ => 2.

(** A catalogue whose BoxSize was given by the user. *)
Definition boxed_catalog : TracerCatalog :=
  set_BoxSize (Some (BoxFloat (10, 1, 10))) bare_catalog.

(** A communicator seen from rank 1. *)
Definition peer_comm : Comm :=
  {| rank := 1; gather_others := [];
     bcast_geometry :=
       {| geo_BoxSize := Some (BoxInt (5, 5, 5)%Z);
          geo_offset := Some (1, 2, 3);
          geo_nbar := Some flat_curve |};
     bcast_shapes := fun _ => [[2%nat; 3%nat]; [2%nat]] |}.

Definition with_comm (cm : Comm) (s : TracerCatalog) : TracerCatalog :=
  {| data := data s; randoms := randoms s; BoxSize := BoxSize s;
     BoxPad := BoxPad s; compute_fkp_weights := compute_fkp_weights s;
     P0_fkp := P0_fkp s; nbar := nbar s; fsky := fsky s; cosmo := cosmo s;
     comm := cm; _source := _source s; offset := offset s |}.

Definition without_cosmo (s : TracerCatalog) : TracerCatalog :=
  {| data := data s; randoms := randoms s; BoxSize := BoxSize s;
     BoxPad := BoxPad s; compute_fkp_weights := compute_fkp_weights s;
     P0_fkp := P0_fkp s; nbar := nbar s; fsky := fsky s; cosmo := None;
     comm := comm s; _source := _source s; offset := offset s |}.

Definition with_data (d : DataSource) (s : TracerCatalog) : TracerCatalog :=
  {| data := d; randoms := randoms s; BoxSize := BoxSize s;
     BoxPad := BoxPad s; compute_fkp_weights := compute_fkp_weights s;
     P0_fkp := P0_fkp s; nbar := nbar s; fsky := fsky s; cosmo := cosmo s;
     comm := comm s; _source := _source s; offset := offset s |}.

(** A source that delivers only chunks without rows. *)
Definition hollow : DataSource :=
  {| read_chunks := fun _ =>
       [ {| chunk_coords := []; chunk_weight := [] |};
         {| chunk_coords := []; chunk_weight := [] |} ] |}.

(** FKP weighting on, no P0_fkp, and the empty source selected. *)
Definition idle_catalog : TracerCatalog :=
  set__source (Some ref_randoms) (fkp_catalog None).

(* ================================================================== *)
(** * Predicates on the instance *)

(** [m] keeps the property [P] of the instance, raising or not. *)
Definition stable (P : TracerCatalog -> Prop) {A : Type} (m : M A) : Prop :=
  forall self, P self -> P (final (m self)).

(** The supplied curve and the communicator. *)
Definition holds_curve (c : Curve) (cm : Comm) (s : TracerCatalog) : Prop :=
  nbar s = Some c /\ comm s = cm.

(** Strictly below a bound. *)
Definition below (bound v : R) : bool :=
  if Rlt_dec v bound then true else false.

(** The instance holds a box: this offset, this BoxSize, on rank 0. *)
Definition holds_box (off : vec3) (b : Box) (s : TracerCatalog) : Prop :=
  offset s = Some off /\ BoxSize s = Some b /\ rank (comm s) = 0%nat.

Definition unset_message : string :=
  "set `source` attribute to `data` or `randoms` by calling `set_source`".

(* ================================================================== *)
(** * Running the monad *)

Ltac run :=
  unfold outcome, final, trace, bind, ret, raise, emit, get_self, modify, lift;
  cbn [fst snd].

Lemma prepend_nil {A : Type} (x : result A * TracerCatalog * list event) :
  prepend [] x = x.
Proof. destruct x as [[r s] t]. reflexivity. Qed.

Lemma bind_Return {A B : Type} (m : M A) (k : A -> M B) self a self1 t1 :
  m self = (Return a, self1, t1) ->
  bind m k self = prepend t1 (k a self1).
Proof.
  intros H. unfold bind. rewrite H.
  destruct (k a self1) as [[r s] t]. reflexivity.
Qed.

Lemma bind_Raise {A B : Type} (m : M A) (k : A -> M B) self e self1 t1 :
  m self = (Raise e, self1, t1) ->
  bind m k self = (Raise e, self1, t1).
Proof. intros H. unfold bind. rewrite H. reflexivity. Qed.

Lemma bind_get {B : Type} (k : TracerCatalog -> M B) self :
  bind get_self k self = k self self.
Proof.
  rewrite (bind_Return get_self k self self self []) by reflexivity.
  apply prepend_nil.
Qed.

Lemma bind_modify {B : Type} f (k : unit -> M B) self :
  bind (modify f) k self = k tt (f self).
Proof.
  rewrite (bind_Return (modify f) k self tt (f self) []) by reflexivity.
  apply prepend_nil.
Qed.

Lemma bind_emit {B : Type} e (k : unit -> M B) self :
  bind (emit e) k self = prepend [e] (k tt self).
Proof. apply bind_Return. reflexivity. Qed.

Lemma bind_lift_Return {A B : Type} (a : A) (k : A -> M B) self :
  bind (lift (Return a)) k self = k a self.
Proof.
  rewrite (bind_Return (lift (Return a)) k self a self []) by reflexivity.
  apply prepend_nil.
Qed.

Lemma bind_ret {A B : Type} (a : A) (k : A -> M B) self :
  bind (ret a) k self = k a self.
Proof. apply bind_lift_Return. Qed.

(* ================================================================== *)
(** * The Cartesian projection *)

Lemma to_cartesian_rows self c coords translate :
  cosmo self = Some c ->
  _to_cartesian self coords translate =
  Return (map (to_cartesian_row c translate) coords).
Proof.
  intros Hc. unfold _to_cartesian. rewrite Hc. f_equal.
  induction coords as [|[[ra dec] z] rest IH]; [reflexivity|].
  cbn [map map2 vstack_T fst snd] in *. rewrite IH. reflexivity.
Qed.

Lemma sphere_identity r ra dec :
  norm2 (r * cos ra * cos dec, r * sin ra * cos dec, r * sin dec) = r * r.
Proof.
  unfold norm2.
  pose proof (sin2_cos2 ra) as Ha. pose proof (sin2_cos2 dec) as Hd.
  unfold Rsqr in Ha, Hd.
  replace (r * cos ra * cos dec * (r * cos ra * cos dec) +
           r * sin ra * cos dec * (r * sin ra * cos dec) +
           r * sin dec * (r * sin dec))
    with (r * r * ((sin ra * sin ra + cos ra * cos ra) * (cos dec * cos dec)
                   + sin dec * sin dec)) by ring.
  rewrite Ha. replace (1 * (cos dec * cos dec) + sin dec * sin dec)
    with (sin dec * sin dec + cos dec * cos dec) by ring.
  rewrite Hd. ring.
Qed.

(** C1.  With a cosmology in place, [_to_cartesian] returns, row by row,
    r = comoving_distance(redshift), (r cos ra cos dec, r sin ra cos dec,
    r sin dec) plus the translate vector; and with the default (zero)
    translate every returned point has x^2 + y^2 + z^2 = r^2. *)
Theorem C1_to_cartesian_formula :
  forall (self : TracerCatalog) (c : Cosmology) (coords : list vec3)
         (t1 t2 t3 : R),
    cosmo self = Some c ->
    _to_cartesian self coords (t1, t2, t3) =
      Return (map (fun row : vec3 =>
                     let '(ra, dec, redshift) := row in
                     let r := comoving_distance c redshift in
                     (r * cos ra * cos dec + t1,
                      r * sin ra * cos dec + t2,
                      r * sin dec + t3)) coords)
    /\ exists points,
         _to_cartesian self coords default_translate = Return points
         /\ Forall2 (fun (row p : vec3) =>
                       let r := comoving_distance c (snd row) in
                       norm2 p = r * r) coords points.
Proof.
  intros self c coords t1 t2 t3 Hc. split.
  - rewrite (to_cartesian_rows self c coords _ Hc). reflexivity.
  - exists (map (to_cartesian_row c default_translate) coords). split.
    + apply to_cartesian_rows; exact Hc.
    + induction coords as [|[[ra dec] z] rest IH]; constructor; [|exact IH].
      cbn [to_cartesian_row snd default_translate vzero vadd vmap2].
      rewrite !Rplus_0_r. apply sphere_identity.
Qed.

Lemma C1_to_cartesian_formula_witness :
  cosmo bare_catalog = Some flat_cosmology
  /\ _to_cartesian bare_catalog [(0, 0, 1)] (1, 2, 3) =
       Return [(1 * cos 0 * cos 0 + 1, 1 * sin 0 * cos 0 + 2, 1 * sin 0 + 3)].
Proof.
  split; [reflexivity|].
  exact (proj1 (C1_to_cartesian_formula bare_catalog flat_cosmology
                  [(0, 0, 1)] 1 2 3 eq_refl)).
Defined.

(* ================================================================== *)
(** * The bounding box *)

Lemma astype_int_nonneg x :
  0 <= x -> astype_int x = Zfloor x.
Proof. intros H. unfold astype_int. destruct (Rle_dec 0 x); [reflexivity|lra]. Qed.

Lemma auto_axis pad e :
  0 <= e ->
  let b := IZR (astype_int ((1.0 + pad) * e)) in
  (0 <= 1 + pad -> b <= e * (1 + pad) < b + 1)
  /\ (1 <= e * pad -> e <= b).
Proof.
  intros He b. subst b. split.
  - intros Hp. rewrite astype_int_nonneg by nra.
    pose proof (Zfloor_bound ((1.0 + pad) * e)). lra.
  - intros Hp. rewrite astype_int_nonneg by nra.
    pose proof (Zfloor_bound ((1.0 + pad) * e)). lra.
Qed.

Lemma define_box_auto self lo1 lo2 lo3 hi1 hi2 hi3 :
  BoxSize self = None ->
  _define_box (lo1, lo2, lo3) (hi1, hi2, hi3) self =
  (Return tt,
   set_BoxSize
     (Some (BoxInt
        (astype_int ((1.0 + BoxPad self) * Rabs (hi1 - lo1)),
         astype_int ((1.0 + BoxPad self) * Rabs (hi2 - lo2)),
         astype_int ((1.0 + BoxPad self) * Rabs (hi3 - lo3)))))
     (set_offset
        (Some (0.5 * (lo1 + hi1), 0.5 * (lo2 + hi2), 0.5 * (lo3 + hi3)))
        self),
   []).
Proof.
  intros HB. unfold _define_box. run. cbn. rewrite HB. reflexivity.
Qed.

(** C2, amended.  With the user BoxSize omitted, [_define_box] sets the
    offset to 0.5*(min+max) exactly and each axis of BoxSize to the
    integer truncation of |max-min|*(1+pad).  For 1+pad >= 0 that is the
    floor, so it lies in (|max-min|*(1+pad) - 1, |max-min|*(1+pad)]; it
    is at least |max-min| on an axis whenever |max-min|*pad >= 1 there. *)
Theorem C2_define_box_auto :
  forall (self : TracerCatalog) (lo hi : vec3),
    BoxSize self = None ->
    let r := _define_box lo hi self in
    let pad := BoxPad self in
    outcome r = Return tt
    /\ offset (final r) =
         Some (0.5 * (vnth lo 0 + vnth hi 0),
               0.5 * (vnth lo 1 + vnth hi 1),
               0.5 * (vnth lo 2 + vnth hi 2))
    /\ exists b,
         BoxSize (final r) = Some b
         /\ forall i, (i < 3)%nat ->
              let extent := Rabs (vnth hi i - vnth lo i) in
              box_nth b i = IZR (astype_int ((1.0 + pad) * extent))
              /\ (0 <= 1 + pad ->
                  box_nth b i <= extent * (1 + pad) < box_nth b i + 1)
              /\ (1 <= extent * pad -> extent <= box_nth b i).
Proof.
  intros self [[lo1 lo2] lo3] [[hi1 hi2] hi3] HB r pad. subst r pad.
  rewrite (define_box_auto self lo1 lo2 lo3 hi1 hi2 hi3 HB).
  unfold outcome, final. cbn [fst snd offset BoxSize set_BoxSize set_offset vnth].
  split; [reflexivity|]. split; [reflexivity|].
  eexists. split; [reflexivity|].
  intros i Hi. cbv zeta.
  assert (Hcases : i = 0%nat \/ i = 1%nat \/ i = 2%nat) by lia.
  destruct Hcases as [-> | [-> | ->]]; cbn [box_nth vnth];
    (split; [reflexivity|]); apply auto_axis; apply Rabs_pos.
Qed.

Lemma C2_define_box_auto_witness :
  BoxSize bare_catalog = None
  /\ offset (final (_define_box (0, 0, 0) (100, 200, 300) bare_catalog)) =
       Some (0.5 * (0 + 100), 0.5 * (0 + 200), 0.5 * (0 + 300)).
Proof.
  split; [reflexivity|].
  exact (proj1 (proj2 (C2_define_box_auto bare_catalog (0, 0, 0)
                         (100, 200, 300) eq_refl))).
Defined.

(** C2 as stated fails: with the default pad 0.02 and corners 0 and 1/2
    on every axis the inferred BoxSize is 0, below the extent 1/2. *)
Lemma C2_counterexample :
  BoxSize bare_catalog = None
  /\ BoxPad bare_catalog = 0.02
  /\ BoxSize (final (_define_box (0, 0, 0) (1 / 2, 1 / 2, 1 / 2)
                       bare_catalog))
     = Some (BoxInt (0, 0, 0)%Z)
  /\ ~ (box_nth (BoxInt (0, 0, 0)%Z) 0 >= Rabs (1 / 2 - 0)).
Proof.
  split; [reflexivity|]. split; [reflexivity|]. split.
  - rewrite define_box_auto by reflexivity.
    unfold final. cbn [fst snd BoxSize set_BoxSize bare_catalog BoxPad].
    assert (H : astype_int ((1.0 + 0.02) * Rabs (1 / 2 - 0)) = 0%Z).
    { rewrite Rabs_pos_eq by lra. rewrite astype_int_nonneg by lra.
      apply Zfloor_eq. simpl. lra. }
    rewrite H. reflexivity.
  - cbn [box_nth vnth]. rewrite Rabs_pos_eq by lra. lra.
Qed.

(* ================================================================== *)
(** * The active-source selector and the column check *)

Lemma str_in_In s l : str_in s l = true <-> In s l.
Proof.
  unfold str_in. rewrite existsb_exists. split.
  - intros [x [Hx He]]. apply String.eqb_eq in He. subst. exact Hx.
  - intros H. exists s. split; [exact H|apply String.eqb_refl].
Qed.

Lemma unknown_column_found columns col :
  In col columns -> ~ In col valid ->
  existsb (fun c => negb (str_in c valid)) columns = true.
Proof.
  intros Hin Hnot. apply existsb_exists. exists col. split; [exact Hin|].
  destruct (str_in col valid) eqn:E; [|reflexivity].
  apply str_in_In in E. contradiction.
Qed.

Lemma set_source_other which self :
  which <> "data"%string -> which <> "randoms"%string ->
  set_source which self =
  (Raise (NotImplementedError
            "'source' must be set to either `data` or `randoms`"),
   self, []).
Proof.
  intros Hd Hr. unfold set_source.
  apply String.eqb_neq in Hd. apply String.eqb_neq in Hr.
  rewrite Hd, Hr. reflexivity.
Qed.

Lemma read_unset spline_call columns full self :
  _source self = None ->
  read spline_call columns full self =
  (Raise (ValueError
     "set `source` attribute to `data` or `randoms` by calling `set_source`"),
   self, []).
Proof. intros H. unfold read. rewrite bind_get, H. reflexivity. Qed.

(** C7.  The selector [_source] is unset, data or randoms.  From any
    state [set_source('data')] and [set_source('randoms')] select that
    source; any other argument raises and leaves the instance as it was;
    [read] with the selector unset raises a ValueError whose message
    names `data` and `randoms`, before anything is read. *)
Theorem C7_active_source_selector :
  forall (spline_call : Curve -> R -> R) (self : TracerCatalog),
    (set_source "data" self =
       (Return tt, set__source (Some ref_data) self, [])
     /\ _source (final (set_source "data" self)) = Some ref_data)
    /\ (set_source "randoms" self =
          (Return tt, set__source (Some ref_randoms) self, [])
        /\ _source (final (set_source "randoms" self)) = Some ref_randoms)
    /\ (forall which : string,
          which <> "data"%string -> which <> "randoms"%string ->
          exists msg,
            set_source which self = (Raise (NotImplementedError msg), self, []))
    /\ (forall columns full,
          _source self = None ->
          exists msg,
            read spline_call columns full self =
              (Raise (ValueError msg), self, [])
            /\ contains "`data`" msg = true
            /\ contains "`randoms`" msg = true).
Proof.
  intros spline_call self. repeat split.
  - intros which Hd Hr. eexists. apply set_source_other; assumption.
  - intros columns full Hu. eexists. split; [apply read_unset; exact Hu|].
    split; reflexivity.
Qed.

Lemma C7_active_source_selector_witness :
  ("Velocity" <> "data" /\ "Velocity" <> "randoms")%string
  /\ _source bare_catalog = None
  /\ (exists msg,
        set_source "Velocity" bare_catalog =
          (Raise (NotImplementedError msg), bare_catalog, []))
  /\ (exists msg,
        read (fun _ _ => 0) ["Position"%string] false bare_catalog =
          (Raise (ValueError msg), bare_catalog, [])
        /\ contains "`data`" msg = true
        /\ contains "`randoms`" msg = true).
Proof.
  assert (Hd : "Velocity"%string <> "data"%string) by discriminate.
  assert (Hr : "Velocity"%string <> "randoms"%string) by discriminate.
  split; [split; assumption|]. split; [reflexivity|].
  pose proof (C7_active_source_selector (fun _ _ => 0) bare_catalog)
    as [_ [_ [Hother Hread]]].
  split.
  - exact (Hother "Velocity"%string Hd Hr).
  - exact (Hread ["Position"%string] false eq_refl).
Defined.

(** The text of the column error, as Python formats it. *)
Lemma column_message :
  ("valid `columns` to read from " ++ class_name ++ ": "
   ++ py_str_list valid)%string
  = "valid `columns` to read from TracerCatalogDataSource: ['Position', 'Weight', 'Nbar']"%string.
Proof. reflexivity. Qed.

(** C6.  With a source selected, a requested column outside Position,
    Weight, Nbar makes [read] raise a ValueError whose message lists the
    three valid names; nothing has been read from the source and the
    instance is as it was. *)
Theorem C6_unknown_column_rejected :
  forall (spline_call : Curve -> R -> R) (self : TracerCatalog)
         (src : source_ref) (columns : list string) (full : bool)
         (col : string),
    _source self = Some src ->
    In col columns -> ~ In col valid ->
    exists msg,
      read spline_call columns full self = (Raise (ValueError msg), self, [])
      /\ contains "'Position'" msg = true
      /\ contains "'Weight'" msg = true
      /\ contains "'Nbar'" msg = true.
Proof.
  intros spline_call self src columns full col Hs Hin Hnot.
  eexists. split.
  - unfold read. rewrite bind_get, Hs.
    rewrite (unknown_column_found columns col Hin Hnot). reflexivity.
  - repeat split; reflexivity.
Qed.

Lemma C6_unknown_column_rejected_witness :
  _source (set__source (Some ref_data) bare_catalog) = Some ref_data
  /\ In "Velocity"%string ["Position"; "Velocity"]%string
  /\ ~ In "Velocity"%string valid
  /\ exists msg,
       read (fun _ _ => 0) ["Position"; "Velocity"]%string false
            (set__source (Some ref_data) bare_catalog)
       = (Raise (ValueError msg), set__source (Some ref_data) bare_catalog, [])
       /\ contains "'Position'" msg = true
       /\ contains "'Weight'" msg = true
       /\ contains "'Nbar'" msg = true.
Proof.
  assert (Hin : In "Velocity"%string ["Position"; "Velocity"]%string)
    by (right; left; reflexivity).
  assert (Hnot : ~ In "Velocity"%string valid).
  { intros [H | [H | [H | []]]]; discriminate H. }
  split; [reflexivity|]. split; [exact Hin|]. split; [exact Hnot|].
  exact (C6_unknown_column_rejected (fun _ _ => 0)
           (set__source (Some ref_data) bare_catalog) ref_data
           ["Position"; "Velocity"]%string false "Velocity"%string
           eq_refl Hin Hnot).
Defined.

(* ================================================================== *)
(** * Properties of the instance that every method keeps *)

Section Stable.

Variable P : TracerCatalog -> Prop.

Lemma stable_ret {A : Type} (a : A) : stable P (ret a).
Proof. intros self H. exact H. Qed.

Lemma stable_raise {A : Type} e : stable P (@raise A e).
Proof. intros self H. exact H. Qed.

Lemma stable_emit e : stable P (emit e).
Proof. intros self H. exact H. Qed.

Lemma stable_lift {A : Type} (r : result A) : stable P (lift r).
Proof. intros self H. exact H. Qed.

Lemma stable_modify f : (forall s, P s -> P (f s)) -> stable P (modify f).
Proof. intros Hf self H. apply Hf. exact H. Qed.

Lemma stable_bind {A B : Type} (m : M A) (k : A -> M B) :
  stable P m -> (forall a, stable P (k a)) -> stable P (bind m k).
Proof.
  intros Hm Hk self H. specialize (Hm self H).
  unfold bind. destruct (m self) as [[[a|e] s1] t1]; cbn [final fst snd] in *.
  - specialize (Hk a s1 Hm). destruct (k a s1) as [[r s2] t2]. exact Hk.
  - exact Hm.
Qed.

Lemma stable_get {B : Type} (k : TracerCatalog -> M B) :
  (forall s, P s -> stable P (k s)) -> stable P (bind get_self k).
Proof. intros Hk self H. rewrite bind_get. apply Hk; exact H. Qed.

End Stable.

Ltac stab :=
  repeat first
    [ apply stable_ret | apply stable_raise | apply stable_emit
    | apply stable_lift
    | apply stable_get; intros ? ?
    | apply stable_bind; [|intros ?]
    | match goal with
      | |- stable _ (match ?x with _ => _ end) => destruct x
      end ].

Lemma holds_set_BoxSize c cm b s :
  holds_curve c cm s -> holds_curve c cm (set_BoxSize b s).
Proof. intros H. exact H. Qed.

Lemma holds_set_offset c cm o s :
  holds_curve c cm s -> holds_curve c cm (set_offset o s).
Proof. intros H. exact H. Qed.

Lemma holds_set__source c cm r s :
  holds_curve c cm s -> holds_curve c cm (set__source r s).
Proof. intros H. exact H. Qed.

Lemma stable_define_box P lo hi :
  (forall o s, P s -> P (set_offset o s)) ->
  (forall b s, P s -> P (set_BoxSize b s)) ->
  stable P (_define_box lo hi).
Proof.
  intros Ho Hb. unfold _define_box. apply stable_bind.
  - apply stable_modify. intros s H. apply Ho. exact H.
  - intros _. apply stable_get. intros s Hs. destruct (BoxSize s).
    + intros s' H. exact H.
    + destruct (vscale (1.0 + BoxPad s) (vabs (vsub hi lo))) as [[d1 d2] d3].
      apply stable_modify. intros s' H. apply Hb. exact H.
Qed.

Lemma set_nbar_noop self curve redshift alpha :
  nbar self = Some curve ->
  _set_nbar redshift alpha self = (Return tt, self, []).
Proof. intros H. unfold _set_nbar. rewrite bind_get, H. reflexivity. Qed.

Lemma stable_set_nbar c cm redshift alpha :
  stable (holds_curve c cm) (_set_nbar redshift alpha).
Proof.
  intros self H. rewrite (set_nbar_noop self c) by apply H. exact H.
Qed.

Lemma stable_set_source P which :
  (forall r s, P s -> P (set__source r s)) -> stable P (set_source which).
Proof.
  intros Hs. unfold set_source.
  destruct (String.eqb which "data");
    [apply stable_modify; intros; apply Hs; assumption|].
  destruct (String.eqb which "randoms");
    [apply stable_modify; intros; apply Hs; assumption|].
  apply stable_raise.
Qed.

Lemma stable_accumulate P chunks : forall k acc, stable P (accumulate chunks k acc).
Proof.
  induction chunks as [|c rest IH]; intros k acc; cbn [accumulate].
  - apply stable_ret.
  - stab. apply IH.
Qed.

Lemma stable_root_chunk P spline_call columns c :
  stable P (root_chunk spline_call columns c).
Proof. unfold root_chunk. stab. Qed.

Lemma stable_read_loop P spline_call columns chunks :
  forall k, stable P (read_loop spline_call columns chunks k).
Proof.
  induction chunks as [|c rest IH]; intros k; cbn [read_loop].
  - apply stable_ret.
  - apply stable_bind; [apply stable_emit|]. intros _.
    apply stable_get. intros s Hs. cbv zeta. apply stable_bind.
    + destruct (Nat.eqb (rank (comm s)) 0);
        [apply stable_root_chunk|apply stable_ret].
    + intros data. stab. apply IH.
Qed.

Lemma stable_read P spline_call columns full :
  stable P (read spline_call columns full).
Proof.
  unfold read. apply stable_get. intros s Hs.
  destruct (_source s); [|apply stable_raise].
  destruct (existsb _ columns); [apply stable_raise|].
  apply stable_bind; [apply stable_emit|]. intros _. apply stable_read_loop.
Qed.

Lemma stable_root_work c cm own : stable (holds_curve c cm) (root_work own).
Proof.
  unfold root_work. apply stable_get. intros s Hs. apply stable_bind.
  - destruct (np_amin _) as [lo|]; [destruct (np_amax _) as [hi|]|];
      try apply stable_emit.
    apply stable_define_box; intros; assumption.
  - intros _. apply stable_set_nbar.
Qed.

Lemma stable_init c cm :
  rank cm = 0%nat \/ geo_nbar (bcast_geometry cm) = Some c ->
  stable (holds_curve c cm) __init__.
Proof.
  intros Hroot. unfold __init__.
  apply stable_bind; [apply stable_modify; intros; assumption|]. intros _.
  apply stable_bind; [apply stable_modify; intros; assumption|]. intros _.
  apply stable_get. intros s Hs. destruct (cosmo s); [|apply stable_raise].
  apply stable_bind; [apply stable_emit|]. intros _.
  apply stable_bind; [apply stable_emit|]. intros _.
  apply stable_bind; [apply stable_accumulate|]. intros own.
  do 3 (apply stable_bind; [apply stable_emit|]; intros _).
  apply stable_bind.
  { destruct (Nat.eqb (rank (comm s)) 0);
      [apply stable_root_work|apply stable_ret]. }
  intros _. apply stable_get. intros s1 [Hn Hc].
  apply stable_bind; [apply stable_emit|]. intros _.
  apply stable_bind; [apply stable_modify; intros; assumption|]. intros _.
  apply stable_bind; [apply stable_emit|]. intros _.
  apply stable_bind; [apply stable_modify; intros; assumption|]. intros _.
  apply stable_bind; [apply stable_emit|]. intros _.
  apply stable_bind.
  { apply stable_modify. intros s2 [Hn2 Hc2]. split; [|exact Hc2].
    cbn [nbar set_nbar]. unfold bcast. rewrite Hc.
    destruct Hroot as [Hr | Hg].
    - rewrite Hr. exact Hn.
    - destruct (Nat.eqb (rank cm) 0); [exact Hn|exact Hg]. }
  intros _. destruct (Nat.eqb (rank (comm s1)) 0); stab.
Qed.

Lemma stable_perform spline_call c cm call0 :
  (call0 = Call_init ->
   rank cm = 0%nat \/ geo_nbar (bcast_geometry cm) = Some c) ->
  stable (holds_curve c cm) (perform spline_call call0).
Proof.
  intros Hinit. destruct call0; cbn [perform].
  - apply stable_init. apply Hinit. reflexivity.
  - apply stable_define_box; intros; assumption.
  - apply stable_set_nbar.
  - apply stable_set_source; intros; assumption.
  - apply stable_read.
Qed.

(** C8.  When a curve is already stored, [_set_nbar] returns at once:
    whatever the redshifts, alpha and fsky (present or not) it raises
    nothing, logs nothing and leaves the instance, curve included, as it
    was.  No later call of [_define_box], [_set_nbar], [set_source] or
    [read] replaces the curve, and neither does [__init__] on rank 0 (or
    on a rank to which rank 0 broadcasts that same curve). *)
Theorem C8_supplied_curve_never_rebuilt :
  forall (spline_call : Curve -> R -> R) (self : TracerCatalog)
         (curve : Curve),
    nbar self = Some curve ->
    (forall redshift alpha,
        _set_nbar redshift alpha self = (Return tt, self, []))
    /\ forall calls,
         (In Call_init calls ->
          rank (comm self) = 0%nat
          \/ geo_nbar (bcast_geometry (comm self)) = Some curve) ->
         nbar (session spline_call calls self) = Some curve.
Proof.
  intros spline_call self curve Hn. split.
  - intros redshift alpha. apply (set_nbar_noop self curve). exact Hn.
  - intros calls.
    assert (Hgen : forall s, holds_curve curve (comm self) s ->
              (In Call_init calls ->
               rank (comm self) = 0%nat
               \/ geo_nbar (bcast_geometry (comm self)) = Some curve) ->
              holds_curve curve (comm self) (session spline_call calls s)).
    { induction calls as [|c0 rest IH]; intros s Hs Hinit; cbn [session].
      - exact Hs.
      - apply IH.
        + apply stable_perform; [|exact Hs].
          intros ->. apply Hinit. left. reflexivity.
        + intros Hin. apply Hinit. right. exact Hin. }
    intros Hinit. apply (Hgen self); [split; [exact Hn|reflexivity]|exact Hinit].
Qed.

Lemma C8_supplied_curve_never_rebuilt_witness :
  nbar (set_nbar (Some flat_curve) bare_catalog) = Some flat_curve
  /\ _set_nbar sample8 1 (set_nbar (Some flat_curve) bare_catalog)
     = (Return tt, set_nbar (Some flat_curve) bare_catalog, [])
  /\ nbar (session (fun _ _ => 0)
             [Call_init; Call_set_source "data"; Call_read ["Nbar"%string] false;
              Call_set_nbar sample8 1]
             (set_nbar (Some flat_curve) bare_catalog))
     = Some flat_curve.
Proof.
  split; [reflexivity|].
  pose proof (C8_supplied_curve_never_rebuilt (fun _ _ => 0)
                (set_nbar (Some flat_curve) bare_catalog) flat_curve eq_refl)
    as [Hnoop Hkeep].
  split.
  - exact (Hnoop sample8 1).
  - apply Hkeep. intros _. left. reflexivity.
Defined.

(* ================================================================== *)
(** * Construction *)

Lemma accumulate_runs self c chunks :
  cosmo self = Some c ->
  forall k acc, exists acc',
    accumulate chunks k acc self =
    (Return acc', self, map EvChunk (seq k (length chunks))).
Proof.
  intros Hc. induction chunks as [|ch rest IH]; intros k acc.
  - exists acc. reflexivity.
  - cbn [accumulate]. rewrite bind_emit, bind_get.
    assert (Hstep : exists acc1,
      (match chunk_coords ch with
       | [] => ret acc
       | _ :: _ =>
           cartesian <-
             lift (_to_cartesian self (chunk_coords ch) default_translate) ;;
           match cartesian with
           | [] =>
               raise (ValueError
                 "zero-size array to reduction operation minimum which has no identity")
           | p :: ps =>
               ret {| part_min := np_minimum (part_min acc) (amin_axis0 p ps);
                      part_max := np_maximum (part_max acc) (amax_axis0 p ps);
                      part_redshifts :=
                        part_redshifts acc ++ map snd (chunk_coords ch) |}
           end
       end) self = (Return acc1, self, [])).
    { destruct (chunk_coords ch) as [|row rows] eqn:E.
      - exists acc. reflexivity.
      - rewrite (to_cartesian_rows self c _ _ Hc). cbn [map].
        rewrite bind_lift_Return. eexists. reflexivity. }
    destruct Hstep as [acc1 Hstep].
    rewrite (bind_Return _ _ _ _ _ _ Hstep), prepend_nil.
    destruct (IH (S k) acc1) as [acc' Hrest]. exists acc'.
    rewrite Hrest. reflexivity.
Qed.

Lemma set_nbar_fsky_missing self redshift alpha :
  nbar self = None -> fsky self = None ->
  _set_nbar redshift alpha self = (Raise (ValueError fsky_message), self, []).
Proof.
  intros Hn Hf. unfold _set_nbar. rewrite bind_get, Hn, Hf. reflexivity.
Qed.


(* ================================================================== *)
(** * The nbar file loader *)

(** C9 (defect).  For a path that exists, whatever the table in the
    file, [nbar_fromfile] raises NameError: the module binds scipy's
    class to the name [spline], not to the name the function calls.
    For a path that does not exist the ValueError carries the format
    string itself, placeholder included, and not the path. *)
Theorem C9_nbar_fromfile_never_returns :
  forall (fs : FileSystem) (filename : string) (table : list (list R)),
    nbar_fromfile
      (fun f => if String.eqb f filename then Some table else fs f) filename
    = Raise (NameError "InterpolatedUnivariateSpline")
    /\ nbar_fromfile
         (fun f => if String.eqb f filename then None else fs f) filename
       = Raise (ValueError "'%s' file for reading nbar does not exist")
    /\ contains "nbar.dat" "'%s' file for reading nbar does not exist" = false.
Proof.
  intros fs filename table. unfold nbar_fromfile.
  rewrite String.eqb_refl. repeat split.
Qed.

(* ================================================================== *)
(** * The read pass with FKP weights *)

Lemma select_valid P columns :
  (forall col, In col columns -> exists d, getitem P col = Return d) ->
  exists arrays,
    select P columns = Return arrays
    /\ Forall2 (fun col d => getitem P col = Return d) columns arrays.
Proof.
  induction columns as [|col rest IH]; intros Hall.
  - exists []. split; [reflexivity|constructor].
  - destruct (Hall col (or_introl eq_refl)) as [d Hd].
    destruct IH as [ds [Hs Hf]].
    { intros col' Hin. apply Hall. right. exact Hin. }
    exists (d :: ds). cbn [select]. rewrite Hd, Hs.
    split; [reflexivity|constructor; assumption].
Qed.

Lemma getitem_valid pos weight nb col :
  In col valid ->
  exists d,
    getitem [("Position"%string, Arr2 pos); ("Weight"%string, Arr1 weight);
             ("Nbar"%string, Arr1 nb)] col = Return d.
Proof.
  intros [<- | [<- | [<- | []]]]; eexists; reflexivity.
Qed.

Lemma Forall2_at {A B : Type} (Q : A -> B -> Prop) l m :
  Forall2 Q l m ->
  forall i a, nth_error l i = Some a ->
  exists b, nth_error m i = Some b /\ Q a b.
Proof.
  induction 1 as [|x y l m Hxy _ IH]; intros i a Hi.
  - destruct i; discriminate Hi.
  - destruct i as [|i]; cbn [nth_error] in *.
    + injection Hi as <-. exists y. split; [reflexivity|exact Hxy].
    + apply IH. exact Hi.
Qed.

Section ReadPass.

Variable spline_call : Curve -> R -> R.
Variables (self : TracerCatalog) (columns : list string).
Variables (off : vec3) (curve : Curve) (c : Cosmology).

Hypothesis Hrank : rank (comm self) = 0%nat.
Hypothesis Hvalid : forall col, In col columns -> In col valid.
Hypothesis Hoff : offset self = Some off.
Hypothesis Hnbar : nbar self = Some curve.
Hypothesis Hcosmo : cosmo self = Some c.
Hypothesis Hfkp : compute_fkp_weights self = true.

Let fkp_of (P0 : R) (ch : Chunk) : list (option R) :=
  map (fun row : vec3 =>
         let n := spline_call curve (snd row) in np_divide 1 (1 + n * P0))
      (chunk_coords ch).

Lemma root_chunk_fkp P0 ch :
  P0_fkp self = Some P0 ->
  exists arrays,
    root_chunk spline_call columns ch self = (Return arrays, self, [])
    /\ length arrays = length columns
    /\ forall i, nth_error columns i = Some "Weight"%string ->
         nth_error arrays i = Some (Arr1 (fkp_of P0 ch)).
Proof.
  intros HP0. unfold root_chunk.
  rewrite bind_get, Hoff, (to_cartesian_rows self c _ _ Hcosmo).
  rewrite bind_lift_Return, Hnbar, Hfkp, HP0, bind_ret.
  match goal with
  | |- context [select ?P columns] =>
      destruct (select_valid P columns) as [arrays [Hsel Hall]]
  end.
  { intros col Hin. apply getitem_valid. apply Hvalid. exact Hin. }
  exists arrays. unfold lift. rewrite Hsel. split; [reflexivity|]. split.
  - symmetry. apply (Forall2_length Hall).
  - intros i Hi. destruct (Forall2_at _ _ _ Hall i _ Hi) as [d [Hd Hget]].
    rewrite Hd. f_equal. cbn in Hget. injection Hget as <-.
    unfold fkp_of, fkp_weight. rewrite !map_map. reflexivity.
Qed.

Lemma root_chunk_no_P0 ch :
  P0_fkp self = None ->
  root_chunk spline_call columns ch self =
  (Raise (ValueError P0_message), self, []).
Proof.
  intros HP0. unfold root_chunk.
  rewrite bind_get, Hoff, (to_cartesian_rows self c _ _ Hcosmo).
  rewrite bind_lift_Return, Hnbar, Hfkp, HP0. reflexivity.
Qed.

Lemma read_loop_fkp P0 :
  P0_fkp self = Some P0 ->
  exists arrays_of : Chunk -> list ndarray,
    (forall ch,
        length (arrays_of ch) = length columns
        /\ forall i, nth_error columns i = Some "Weight"%string ->
             nth_error (arrays_of ch) i = Some (Arr1 (fkp_of P0 ch)))
    /\ forall chunks k,
         read_loop spline_call columns chunks k self =
         (Return tt, self,
          concat (map (fun p => [EvChunk (fst p); EvBcast;
                                 EvYield (arrays_of (snd p))])
                      (combine (seq k (length chunks)) chunks))).
Proof.
  intros HP0.
  exists (fun ch =>
            match outcome (root_chunk spline_call columns ch self) with
            | Return arrays => arrays
            | Raise _ => []
            end).
  split.
  - intros ch. destruct (root_chunk_fkp P0 ch HP0) as [arrays [H [Hl Hw]]].
    rewrite H. cbn [outcome fst]. split; assumption.
  - induction chunks as [|ch rest IH]; intros k; [reflexivity|].
    cbn [read_loop]. rewrite bind_emit, bind_get, Hrank.
    cbv zeta. cbn [Nat.eqb].
    destruct (root_chunk_fkp P0 ch HP0) as [arrays [H _]].
    rewrite (bind_Return _ _ _ _ _ _ H), prepend_nil, !bind_emit, IH.
    cbn [length seq combine map concat fst snd app]. rewrite H.
    reflexivity.
Qed.

End ReadPass.

(** C5, amended.  On rank 0, with a source selected, valid columns and
    FKP weighting enabled: if P0_fkp is set the read pass raises
    nothing and yields one list of arrays per upstream chunk, in which
    every requested Weight column has one entry per row of the chunk,
    the real number 1/(1 + nbar(z)*P0_fkp) with nbar the stored curve
    evaluated at the row's redshift, and no real number where
    1 + nbar(z)*P0_fkp is 0.  If P0_fkp is absent the check is made
    when the first upstream chunk is processed: with a chunk the pass
    raises the ValueError asking for P0_fkp and nothing is yielded,
    with no chunk the pass opens the source and returns. *)
Theorem C5_fkp_weights_on_read :
  forall (spline_call : Curve -> R -> R) (self : TracerCatalog)
         (src : source_ref) (columns : list string) (full : bool)
         (off : vec3) (curve : Curve) (c : Cosmology),
    rank (comm self) = 0%nat ->
    _source self = Some src ->
    (forall col, In col columns -> In col valid) ->
    offset self = Some off -> nbar self = Some curve ->
    cosmo self = Some c ->
    compute_fkp_weights self = true ->
    let r := read spline_call columns full self in
    let chunks := read_chunks (deref self src) full in
    (forall P0, P0_fkp self = Some P0 ->
       outcome r = Return tt
       /\ exists arrays_of : Chunk -> list ndarray,
            trace r =
              EvOpen src ["Position"; "Weight"]%string full
              :: concat (map (fun p => [EvChunk (fst p); EvBcast;
                                        EvYield (arrays_of (snd p))])
                             (combine (seq 0 (length chunks)) chunks))
            /\ forall ch i,
                 nth_error columns i = Some "Weight"%string ->
                 exists w,
                   nth_error (arrays_of ch) i = Some (Arr1 w)
                   /\ length w = length (chunk_coords ch)
                   /\ forall j (row : vec3),
                        nth_error (chunk_coords ch) j = Some row ->
                        let n := spline_call curve (snd row) in
                        (1 + n * P0 <> 0 ->
                         nth_error w j = Some (Some (1 / (1 + n * P0))))
                        /\ (1 + n * P0 = 0 -> nth_error w j = Some None))
    /\ (P0_fkp self = None -> chunks <> [] ->
        outcome r = Raise (ValueError P0_message)
        /\ trace r =
             [EvOpen src ["Position"; "Weight"]%string full; EvChunk 0])
    /\ (P0_fkp self = None -> chunks = [] ->
        r = (Return tt, self,
             [EvOpen src ["Position"; "Weight"]%string full])).
Proof.
  intros spline_call self src columns full off curve c
         Hrank Hsrc Hvalid Hoff Hnbar Hcosmo Hfkp r chunks.
  assert (Hcheck : existsb (fun col => negb (str_in col valid)) columns = false).
  { apply not_true_is_false. intros H. apply existsb_exists in H.
    destruct H as [col [Hin Hneg]]. apply Hvalid in Hin.
    apply str_in_In in Hin. rewrite Hin in Hneg. discriminate Hneg. }
  assert (Hread : r = prepend [EvOpen src ["Position"; "Weight"]%string full]
                        (read_loop spline_call columns chunks 0 self)).
  { subst r chunks. unfold read. rewrite bind_get, Hsrc, Hcheck.
    apply bind_emit. }
  split; [|split].
  - intros P0 HP0.
    destruct (read_loop_fkp spline_call self columns off curve c
                Hrank Hvalid Hoff Hnbar Hcosmo Hfkp P0 HP0)
      as [arrays_of [Hw Hloop]].
    rewrite Hread, Hloop. split; [reflexivity|].
    exists arrays_of. split; [reflexivity|].
    intros ch i Hi. eexists. split; [apply Hw; exact Hi|].
    split; [apply length_map|].
    intros j row Hrow n. subst n.
    rewrite nth_error_map, Hrow. cbn [option_map]. unfold np_divide.
    destruct (Req_dec_T (1 + spline_call curve (snd row) * P0) 0) as [Hz|Hz].
    + split; [intros H; contradiction|reflexivity].
    + split; [reflexivity|intros H; contradiction].
  - intros HP0 Hne. rewrite Hread.
    destruct chunks as [|ch rest]; [contradiction|].
    cbn [read_loop]. rewrite bind_emit, bind_get, Hrank.
    cbv zeta. cbn [Nat.eqb].
    rewrite (bind_Raise _ _ _ _ _ _
               (root_chunk_no_P0 spline_call self columns off curve c
                  Hoff Hnbar Hcosmo Hfkp ch HP0)).
    split; reflexivity.
  - intros _ Hnil. rewrite Hread, Hnil. reflexivity.
Qed.

Lemma C5_fkp_weights_on_read_witness :
  rank (comm (fkp_catalog (Some 1000))) = 0%nat
  /\ _source (fkp_catalog (Some 1000)) = Some ref_data
  /\ compute_fkp_weights (fkp_catalog (Some 1000)) = true
  /\ outcome (read (fun _ _ => 2) ["Weight"%string] false
                (fkp_catalog (Some 1000))) = Return tt
  /\ outcome (read (fun _ _ => 2) ["Weight"%string] false (fkp_catalog None))
     = Raise (ValueError P0_message).
Proof.
  assert (Hvalid : forall col, In col ["Weight"%string] -> In col valid).
  { intros col [<- | []]. right. left. reflexivity. }
  do 3 (split; [reflexivity|]). split.
  - exact (proj1 (proj1 (C5_fkp_weights_on_read (fun _ _ => 2)
             (fkp_catalog (Some 1000)) ref_data ["Weight"%string] false
             vzero flat_curve flat_cosmology
             eq_refl eq_refl Hvalid eq_refl eq_refl eq_refl eq_refl)
             1000 eq_refl)).
  - refine (proj1 (proj1 (proj2 (C5_fkp_weights_on_read (fun _ _ => 2)
             (fkp_catalog None) ref_data ["Weight"%string] false
             vzero flat_curve flat_cosmology
             eq_refl eq_refl Hvalid eq_refl eq_refl eq_refl eq_refl))
             eq_refl _)).
    discriminate.
Defined.

(** C5 as stated fails: with FKP weighting enabled and P0_fkp absent, a
    read pass over a source that delivers no chunk (here the randoms)
    opens the source and returns without any error, on rank 0, whatever
    the interpolant: the check on P0_fkp sits in the loop body. *)
Lemma C5_counterexample :
  compute_fkp_weights idle_catalog = true
  /\ P0_fkp idle_catalog = None
  /\ rank (comm idle_catalog) = 0%nat
  /\ forall spline_call : Curve -> R -> R,
       read spline_call ["Position"; "Weight"; "Nbar"]%string false
         idle_catalog
       = (Return tt, idle_catalog,
          [EvOpen ref_randoms ["Position"; "Weight"]%string false]).
Proof.
  do 3 (split; [reflexivity|]). intros spline_call. reflexivity.
Qed.

(* ================================================================== *)
(** * Digitizing and counting *)

Lemma searchsorted_right_le a v :
  (searchsorted_right a v <= length a)%nat.
Proof.
  induction a as [|b rest IH]; cbn [searchsorted_right length]; [lia|].
  destruct (Rlt_dec v b); lia.
Qed.

Lemma nondecreasing_tail b rest :
  nondecreasing (b :: rest) -> nondecreasing rest.
Proof.
  intros H i j Hij Hj. apply (H (S i) (S j)); cbn [length]; lia.
Qed.

Lemma nondecreasing_head b rest i :
  nondecreasing (b :: rest) -> (i < length rest)%nat -> b <= nth i rest 0.
Proof.
  intros H Hi. apply (H 0%nat (S i)); cbn [length]; lia.
Qed.

(** On a non-decreasing array, index [i+1] is returned exactly for the
    values of the half-open interval [a[i] <= v < a[i+1]]. *)
Lemma searchsorted_right_spec a v :
  nondecreasing a ->
  forall i, (S i < length a)%nat ->
    (searchsorted_right a v = S i <-> nth i a 0 <= v /\ v < nth (S i) a 0).
Proof.
  induction a as [|b rest IH]; intros Hs i Hi; [cbn in Hi; lia|].
  cbn [length] in Hi. cbn [searchsorted_right].
  destruct (Rlt_dec v b) as [Hlt | Hge].
  - split; [discriminate|]. intros [Hlo _]. exfalso.
    destruct i as [|j]; cbn [nth] in Hlo; [lra|].
    pose proof (nondecreasing_head b rest j Hs ltac:(lia)). lra.
  - destruct i as [|j].
    + destruct rest as [|r rest']; [cbn in Hi; lia|].
      cbn [searchsorted_right nth].
      destruct (Rlt_dec v r) as [Hr | Hr]; split; intros H.
      * split; lra.
      * reflexivity.
      * discriminate H.
      * destruct H as [_ H]. contradiction.
    + cbn [nth].
      specialize (IH (nondecreasing_tail b rest Hs) j ltac:(lia)).
      split; intros H.
      * apply IH. lia.
      * apply IH in H. lia.
Qed.

Lemma count_occ_map_filter {A : Type} (f : A -> nat) (l : list A) k :
  count_occ Nat.eq_dec (map f l) k = length (filter (fun v => Nat.eqb (f v) k) l).
Proof.
  induction l as [|x rest IH]; [reflexivity|].
  cbn [map count_occ filter].
  destruct (Nat.eq_dec (f x) k) as [E | E].
  - rewrite (proj2 (Nat.eqb_eq _ _) E). cbn [length]. rewrite IH. reflexivity.
  - rewrite (proj2 (Nat.eqb_neq _ _) E). exact IH.
Qed.

Lemma in_left_closed_true lo hi v :
  in_left_closed lo hi v = true <-> lo <= v /\ v < hi.
Proof.
  unfold in_left_closed.
  destruct (Rle_dec lo v); destruct (Rlt_dec v hi); split; intros H;
    try discriminate; try reflexivity; try (split; assumption);
    destruct H; contradiction.
Qed.

Lemma count_digitized a sample i :
  nondecreasing a -> (S i < length a)%nat ->
  count_occ Nat.eq_dec (map (searchsorted_right a) sample) (S i) =
  count_if (in_left_closed (nth i a 0) (nth (S i) a 0)) sample.
Proof.
  intros Hs Hi. rewrite count_occ_map_filter. unfold count_if. f_equal.
  apply filter_ext. intros v.
  destruct (in_left_closed (nth i a 0) (nth (S i) a 0) v) eqn:E.
  - apply Nat.eqb_eq. apply searchsorted_right_spec; [assumption..|].
    apply in_left_closed_true. exact E.
  - apply Nat.eqb_neq. intros H.
    apply (searchsorted_right_spec a v Hs i Hi) in H.
    apply in_left_closed_true in H. congruence.
Qed.

Lemma max_digit_le a sample :
  (fold_right Nat.max O (map (searchsorted_right a) sample) <= length a)%nat.
Proof.
  induction sample as [|v rest IH]; cbn [map fold_right]; [lia|].
  pose proof (searchsorted_right_le a v). lia.
Qed.

Lemma removelast_map_seq {A : Type} (g : nat -> A) n :
  removelast (map g (seq 0 (S n))) = map g (seq 0 n).
Proof.
  rewrite seq_S, map_app. cbn [map Nat.add]. apply removelast_last.
Qed.

Lemma tl_map_seq {A : Type} (g : nat -> A) n :
  tl (map g (seq 0 (S n))) = map (fun i => g (S i)) (seq 0 n).
Proof.
  cbn [seq map tl]. rewrite <- seq_shift, map_map. reflexivity.
Qed.

Lemma map2_map_map {A B C D : Type} (f : B -> C -> D) (g : A -> B)
  (h : A -> C) (l : list A) :
  map2 f (map g l) (map h l) = map (fun i => f (g i) (h i)) l.
Proof.
  induction l as [|x rest IH]; [reflexivity|].
  cbn [map map2]. rewrite IH. reflexivity.
Qed.

(** The histogram of [_set_nbar] on uniform, non-decreasing edges
    [g 0 <= g 1 <= ... <= g n]: one count per bin, each bin owning its
    left edge. *)
Lemma nz_counts_uniform (g : nat -> R) n sample :
  (forall i j, (i <= j)%nat -> g i <= g j) ->
  nz_counts (map g (seq 0 (S n))) sample =
  map (fun i => count_if (in_left_closed (g i) (g (S i))) sample) (seq 0 n).
Proof.
  intros Hg. unfold nz_counts, slice_1_m1, np_bincount.
  set (a := map g (seq 0 (S n))).
  assert (Hlen : length a = S n) by (subst a; rewrite length_map, length_seq; reflexivity).
  assert (Hnth : forall i, (i <= n)%nat -> nth i a 0 = g i).
  { intros i Hi. subst a.
    rewrite (nth_indep _ 0 (g 0%nat)) by (rewrite length_map, length_seq; lia).
    rewrite (map_nth g), seq_nth by lia. reflexivity. }
  assert (Hsorted : nondecreasing a).
  { intros i j Hij Hj. rewrite !Hnth by lia. apply Hg. exact Hij. }
  pose proof (max_digit_le a sample) as Hmax.
  replace (Nat.max (length a + 1)
             (S (fold_right Nat.max 0%nat (map (searchsorted_right a) sample))))
    with (S (S n)) by lia.
  rewrite tl_map_seq, removelast_map_seq.
  apply map_ext_in. intros i Hi. apply in_seq in Hi.
  rewrite count_digitized by (assumption || lia).
  rewrite !Hnth by lia. reflexivity.
Qed.

Lemma histogram_left_closed_uniform (g : nat -> R) n sample :
  histogram_left_closed (map g (seq 0 (S n))) sample =
  map (fun i => count_if (in_left_closed (g i) (g (S i))) sample) (seq 0 n).
Proof.
  unfold histogram_left_closed, slice_to_m1, slice_from1.
  rewrite tl_map_seq, removelast_map_seq.
  apply (map2_map_map (fun lo hi => count_if (in_left_closed lo hi) sample)).
Qed.

(* ================================================================== *)
(** * The density estimator *)

Lemma scotts_dx_formula data :
  scotts_dx data =
  3.5 * np_std data * Rpower (INR (length data)) (- (1 / 3)).
Proof.
  unfold scotts_dx. rewrite Rpower_Ropp. unfold Rdiv. ring.
Qed.

Lemma scotts_dx_nonneg data : 0 <= scotts_dx data.
Proof.
  rewrite scotts_dx_formula.
  pose proof (sqrt_pos (np_mean (map (fun x => Rsqr (x - np_mean data)) data)))
    as Hs.
  fold (np_std data) in Hs.
  assert (Hp : 0 < Rpower (INR (length data)) (- (1 / 3)))
    by (unfold Rpower; apply exp_pos).
  apply Rmult_le_pos; [lra|lra].
Qed.

Lemma scotts_dx_zero data : scotts_dx data = 0 <-> np_std data = 0.
Proof.
  rewrite scotts_dx_formula.
  assert (Hp : 0 < Rpower (INR (length data)) (- (1 / 3)))
    by (unfold Rpower; apply exp_pos).
  split; intros H; [|rewrite H; ring].
  destruct (Rmult_integral _ _ H) as [H1 | H1]; lra.
Qed.

Lemma py_max1_ge1 x : (1 <= py_max1 x)%Z.
Proof.
  destruct x as [k|]; cbn [py_max1]; [|lia].
  destruct (Z.ltb_spec 1 k); lia.
Qed.

Lemma py_max1_max k : py_max1 (Some k) = Z.max 1 k.
Proof. cbn [py_max1]. destruct (Z.ltb_spec 1 k); lia. Qed.

Lemma np_divide_nonzero x y : y <> 0 -> np_divide x y = Some (x / y).
Proof. intros H. unfold np_divide. destruct (Req_dec_T y 0); [contradiction|reflexivity]. Qed.

Lemma np_divide_zero x y : y = 0 -> np_divide x y = None.
Proof. intros H. unfold np_divide. destruct (Req_dec_T y 0); [reflexivity|contradiction]. Qed.

Lemma bin_count_spec data hi lo :
  (1 <= bin_count data hi lo)%nat
  /\ (scotts_dx data <> 0 ->
      Z.of_nat (bin_count data hi lo)
      = Z.max 1 (Zceil ((hi - lo) / scotts_dx data)))
  /\ (scotts_dx data = 0 -> bin_count data hi lo = 1%nat).
Proof.
  unfold bin_count. split; [|split].
  - pose proof (py_max1_ge1
      (np_ceil (np_divide ((hi - lo) * 1) (scotts_dx data)))). lia.
  - intros H. rewrite (np_divide_nonzero _ _ H). cbn [np_ceil option_map].
    rewrite py_max1_max, Z2Nat.id by lia. rewrite Rmult_1_r. reflexivity.
  - intros H. rewrite (np_divide_zero _ _ H). reflexivity.
Qed.

Lemma edge_monotone lo dx :
  0 <= dx -> forall i j, (i <= j)%nat -> edge lo dx i <= edge lo dx j.
Proof.
  intros Hdx i j Hij. unfold edge. apply le_INR in Hij. nra.
Qed.

Lemma scotts_bin_width_runs data hi lo :
  np_max data = Some hi -> np_min data = Some lo ->
  scotts_bin_width data =
  Return (scotts_dx data,
          map (edge lo (scotts_dx data)) (seq 0 (S (bin_count data hi lo)))).
Proof.
  intros Hhi Hlo. unfold scotts_bin_width. rewrite Hhi, Hlo.
  unfold bin_count.
  pose proof (py_max1_ge1
    (np_ceil (np_divide ((hi - lo) * 1) (scotts_dx data)))) as Hge.
  rewrite Z2Nat.inj_add by lia.
  replace (Z.to_nat 1) with 1%nat by reflexivity.
  rewrite Nat.add_1_r. reflexivity.
Qed.

Lemma spline_enough zs ys :
  (4 <= length zs)%nat ->
  InterpolatedUnivariateSpline zs ys = Return (spline zs ys).
Proof.
  intros H. unfold InterpolatedUnivariateSpline.
  destruct (Nat.leb_spec (length zs) 3); [lia|reflexivity].
Qed.

Lemma spline_short zs ys :
  (length zs <= 3)%nat ->
  InterpolatedUnivariateSpline zs ys
  = Raise (FitpackError (fitpack_message (length zs))).
Proof.
  intros H. unfold InterpolatedUnivariateSpline.
  destruct (Nat.leb_spec (length zs) 3); [reflexivity|lia].
Qed.

(** What [_set_nbar] does when it has to build the curve: it hands the
    bin centres and the densities to the spline constructor and stores
    what comes back. *)
Lemma set_nbar_curve self data alpha f c hi lo :
  nbar self = None -> fsky self = Some f -> cosmo self = Some c ->
  np_max data = Some hi -> np_min data = Some lo ->
  let e := edge lo (scotts_dx data) in
  let n := bin_count data hi lo in
  let count := fun i => count_if (in_left_closed (e i) (e (S i))) data in
  _set_nbar data alpha self =
  match
    InterpolatedUnivariateSpline
      (map (fun i => 0.5 * (e i + e (S i))) (seq 0 n))
      (map (fun i =>
              np_divide (alpha * INR (count i))
                (shell_volume f (comoving_distance c (e (S i)))
                                (comoving_distance c (e i))))
           (seq 0 n))
  with
  | Return curve => (Return tt, set_nbar (Some curve) self, [])
  | Raise err => (Raise err, self, [])
  end.
Proof.
  intros Hn Hf Hc Hhi Hlo e n count.
  unfold _set_nbar. rewrite bind_get, Hn, Hf.
  rewrite (scotts_bin_width_runs data hi lo Hhi Hlo), bind_lift_Return.
  cbv beta iota. rewrite Hc.
  fold e. fold n. unfold slice_from1, slice_to_m1.
  rewrite (nz_counts_uniform e n data (edge_monotone lo _ (scotts_dx_nonneg data))).
  rewrite tl_map_seq, removelast_map_seq, !map_map.
  rewrite (map2_map_map (shell_volume f)).
  rewrite (map2_map_map (fun a b => 0.5 * (a + b))).
  rewrite (map2_map_map (fun k v => np_divide (alpha * INR k) v)).
  unfold bind, lift.
  destruct (InterpolatedUnivariateSpline _ _); reflexivity.
Qed.

Lemma np_max_cons x rest : exists hi, np_max (x :: rest) = Some hi.
Proof. eexists. reflexivity. Qed.

Lemma np_min_cons x rest : exists lo, np_min (x :: rest) = Some lo.
Proof. eexists. reflexivity. Qed.

(** C4, amended.  For a non-empty redshift sample, with fsky given and
    no curve stored, [_set_nbar] uses the bin width
    dx = 3.5*sigma*n^(-1/3); the bin count max(1, ceil((max-min)/dx))
    when dx is not zero and 1 when it is; the uniform edges
    min + dx*k for k = 0..Nbins; the digitize of
    searchsorted(..., "right") with its two outer buckets dropped, which
    leaves exactly Nbins counts, bin i holding the redshifts with
    edge_i <= z < edge_(i+1) (each bin owns its left edge).  With at
    least 4 bins it stores the curve through the bin centres with
    ordinates alpha*count/volume,
    volume = (4/3)*pi*(R_hi^3 - R_lo^3)*fsky, the division being numpy's
    (no real value on a zero volume); with fewer than 4 bins the cubic
    spline cannot be fitted, the constructor raises and nothing is
    stored. *)
Theorem C4_density_estimator :
  forall (self : TracerCatalog) (x : R) (rest : list R) (alpha f : R)
         (c : Cosmology),
    nbar self = None -> fsky self = Some f -> cosmo self = Some c ->
    let data := x :: rest in
    let dx := 3.5 * np_std data * Rpower (INR (length data)) (- (1 / 3)) in
    exists hi lo Nbins,
      np_max data = Some hi /\ np_min data = Some lo
      /\ (1 <= Nbins)%nat
      /\ (dx <> 0 -> Z.of_nat Nbins = Z.max 1 (Zceil ((hi - lo) / dx)))
      /\ (dx = 0 -> Nbins = 1%nat)
      /\ let e := fun k => lo + dx * INR k in
         let count := fun i => count_if (in_left_closed (e i) (e (S i))) data in
         let R_of := comoving_distance c in
         scotts_bin_width data = Return (dx, map e (seq 0 (S Nbins)))
         /\ nz_counts (map e (seq 0 (S Nbins))) data
            = histogram_left_closed (map e (seq 0 (S Nbins))) data
         /\ nz_counts (map e (seq 0 (S Nbins))) data = map count (seq 0 Nbins)
         /\ ((4 <= Nbins)%nat ->
             _set_nbar data alpha self =
             (Return tt,
              set_nbar
                (Some (spline
                   (map (fun i => 0.5 * (e i + e (S i))) (seq 0 Nbins))
                   (map (fun i =>
                           np_divide (alpha * INR (count i))
                             ((4 / 3) * PI
                              * (R_of (e (S i)) ^ 3 - R_of (e i) ^ 3) * f))
                        (seq 0 Nbins))))
                self,
              []))
         /\ ((Nbins <= 3)%nat ->
             _set_nbar data alpha self =
             (Raise (FitpackError (fitpack_message Nbins)), self, [])).
Proof.
  intros self x rest alpha f c Hn Hf Hc data dx.
  destruct (np_max_cons x rest) as [hi Hhi].
  destruct (np_min_cons x rest) as [lo Hlo].
  fold data in Hhi, Hlo.
  assert (Hdx : dx = scotts_dx data)
    by (subst dx; symmetry; apply scotts_dx_formula).
  exists hi, lo, (bin_count data hi lo).
  destruct (bin_count_spec data hi lo) as [H1 [H2 H3]].
  rewrite Hdx.
  split; [exact Hhi|]. split; [exact Hlo|]. split; [exact H1|].
  split; [exact H2|]. split; [exact H3|].
  cbv zeta. split; [|split; [|split; [|split]]].
  - apply (scotts_bin_width_runs data hi lo Hhi Hlo).
  - rewrite (histogram_left_closed_uniform (edge lo (scotts_dx data))).
    apply (nz_counts_uniform (edge lo (scotts_dx data))).
    apply edge_monotone, scotts_dx_nonneg.
  - apply (nz_counts_uniform (edge lo (scotts_dx data))).
    apply edge_monotone, scotts_dx_nonneg.
  - intros Hmany.
    rewrite (set_nbar_curve self data alpha f c hi lo Hn Hf Hc Hhi Hlo).
    cbv zeta. rewrite spline_enough; [reflexivity|].
    rewrite length_map, length_seq. exact Hmany.
  - intros Hfew.
    rewrite (set_nbar_curve self data alpha f c hi lo Hn Hf Hc Hhi Hlo).
    cbv zeta. rewrite spline_short.
    + rewrite length_map, length_seq. reflexivity.
    + rewrite length_map, length_seq. exact Hfew.
Qed.

(* ================================================================== *)
(** * The estimator on eight redshifts, four at 0 and four at 1 *)

Lemma np_mean_sample8 : np_mean sample8 = 1 / 2.
Proof.
  unfold np_mean, np_sum, sample8. cbn [fold_right length].
  replace (INR 8) with 8 by (simpl; lra). lra.
Qed.

Lemma np_std_sample8 : np_std sample8 = 1 / 2.
Proof.
  unfold np_std. rewrite np_mean_sample8.
  replace (np_mean (map (fun x => Rsqr (x - 1 / 2)) sample8))
    with ((1 / 2) * (1 / 2)).
  - apply sqrt_square. lra.
  - unfold np_mean, np_sum, sample8. cbn [map fold_right length].
    replace (INR 8) with 8 by (simpl; lra). unfold Rsqr. lra.
Qed.

Lemma cube_root_8 : Rpower (INR 8) (1 / 3) = 2.
Proof.
  replace (INR 8) with (Rpower 2 (INR 3)).
  - rewrite Rpower_mult. replace (INR 3 * (1 / 3)) with 1 by (simpl; lra).
    apply Rpower_1. lra.
  - rewrite Rpower_pow by lra. simpl. lra.
Qed.

Lemma scotts_dx_sample8 : scotts_dx sample8 = 7 / 8.
Proof.
  unfold scotts_dx. rewrite np_std_sample8.
  change (length sample8) with 8%nat. rewrite cube_root_8. lra.
Qed.

Lemma np_max_sample8 : np_max sample8 = Some 1.
Proof.
  unfold np_max, sample8. cbn [fold_left]. f_equal.
  rewrite !(Rmax_left 0 0) by lra. rewrite (Rmax_right 0 1) by lra.
  rewrite !(Rmax_left 1 1) by lra. reflexivity.
Qed.

Lemma np_min_sample8 : np_min sample8 = Some 0.
Proof.
  unfold np_min, sample8. cbn [fold_left]. f_equal.
  rewrite !(Rmin_left 0 0) by lra. rewrite !(Rmin_left 0 1) by lra.
  reflexivity.
Qed.

Lemma bin_count_sample8 : bin_count sample8 1 0 = 2%nat.
Proof.
  unfold bin_count. rewrite scotts_dx_sample8.
  rewrite np_divide_nonzero by lra. cbn [np_ceil option_map].
  replace (Zceil ((1 - 0) * 1 / (7 / 8))) with 2%Z; [reflexivity|].
  symmetry. apply Zceil_eq. simpl. lra.
Qed.

(** Deciding the comparisons of a closed goal over the reals. *)
Ltac decide_reals :=
  repeat match goal with
    | |- context [Rlt_dec ?a ?b] =>
        destruct (Rlt_dec a b); [try (exfalso; lra)|try (exfalso; lra)]
    | |- context [Rle_dec ?a ?b] =>
        destruct (Rle_dec a b); [try (exfalso; lra)|try (exfalso; lra)]
    end.

Lemma sample8_bins :
  scotts_bin_width sample8 = Return (7 / 8, [0; 7 / 8; 7 / 4]).
Proof.
  rewrite (scotts_bin_width_runs sample8 1 0 np_max_sample8 np_min_sample8).
  rewrite bin_count_sample8, scotts_dx_sample8.
  unfold edge. cbn [seq map].
  replace (0 + 7 / 8 * INR 0) with 0 by (simpl; lra).
  replace (0 + 7 / 8 * INR 1) with (7 / 8) by (simpl; lra).
  replace (0 + 7 / 8 * INR 2) with (7 / 4) by (simpl; lra).
  reflexivity.
Qed.

Lemma sample8_counts : nz_counts [0; 7 / 8; 7 / 4] sample8 = [4; 4]%nat.
Proof.
  unfold nz_counts, sample8. cbn [map searchsorted_right].
  decide_reals. reflexivity.
Qed.

Lemma sample8_right_closed :
  histogram_right_closed [0; 7 / 8; 7 / 4] sample8 = [0; 4]%nat.
Proof.
  unfold histogram_right_closed, slice_to_m1, slice_from1, sample8,
    count_if, in_right_closed.
  cbn [removelast tl map2 filter].
  decide_reals. reflexivity.
Qed.

(* ================================================================== *)
(** * The estimator on a sample without spread *)


Lemma np_sum_repeat z k : np_sum (repeat z k) = INR k * z.
Proof.
  induction k as [|k IH]; [cbn; ring|].
  cbn [repeat np_sum fold_right]. fold (np_sum (repeat z k)).
  rewrite IH, S_INR. ring.
Qed.







(* ================================================================== *)
(** * Reading a run with events in front *)

Lemma outcome_prepend {A : Type} t (x : result A * TracerCatalog * list event) :
  outcome (prepend t x) = outcome x.
Proof. reflexivity. Qed.

Lemma final_prepend {A : Type} t (x : result A * TracerCatalog * list event) :
  final (prepend t x) = final x.
Proof. reflexivity. Qed.

Lemma trace_prepend {A : Type} t (x : result A * TracerCatalog * list event) :
  trace (prepend t x) = t ++ trace x.
Proof. reflexivity. Qed.

(* ================================================================== *)
(** * More on the bounding box *)

Lemma define_box_user self lo hi b :
  BoxSize self = Some b ->
  _define_box lo hi self =
  (Return tt, set_offset (Some (vscale 0.5 (vadd lo hi))) self,
   warnings b (vabs (vsub hi lo))).
Proof.
  intros HB. unfold _define_box. rewrite bind_modify, bind_get.
  cbn [BoxSize set_offset]. rewrite HB. reflexivity.
Qed.

Lemma define_box_offset self lo hi :
  offset (final (_define_box lo hi self)) = Some (vscale 0.5 (vadd lo hi)).
Proof.
  destruct (BoxSize self) as [b|] eqn:HB.
  - rewrite (define_box_user self lo hi b HB). reflexivity.
  - destruct lo as [[lo1 lo2] lo3]. destruct hi as [[hi1 hi2] hi3].
    rewrite (define_box_auto self _ _ _ _ _ _ HB). reflexivity.
Qed.

Lemma vnth_extent lo hi i :
  vnth (vabs (vsub hi lo)) i = Rabs (vnth hi i - vnth lo i).
Proof.
  destruct lo as [[lo1 lo2] lo3]. destruct hi as [[hi1 hi2] hi3].
  destruct i as [|[|i]]; reflexivity.
Qed.

Lemma in_warnings b delta i :
  In (EvWarning i) (warnings b delta)
  <-> (i < 3)%nat /\ box_nth b i < vnth delta i.
Proof.
  unfold warnings. rewrite in_flat_map. split.
  - intros [j [Hj Hin]]. apply in_seq in Hj.
    destruct (Rlt_dec (box_nth b j) (vnth delta j)) as [Hlt|]; [|destruct Hin].
    destruct Hin as [Heq | []]. injection Heq as <-. split; [lia|exact Hlt].
  - intros [Hi Hlt]. exists i. split; [apply in_seq; lia|].
    destruct (Rlt_dec (box_nth b i) (vnth delta i)); [left; reflexivity|].
    contradiction.
Qed.

Lemma warnings_only b delta e :
  In e (warnings b delta) -> exists i, e = EvWarning i.
Proof.
  unfold warnings. rewrite in_flat_map. intros [j [_ Hin]].
  destruct (Rlt_dec (box_nth b j) (vnth delta j)); [|destruct Hin].
  destruct Hin as [<- | []]. exists j. reflexivity.
Qed.

(** X1.  With a BoxSize given by the user [_define_box] keeps it, stores
    the midpoint of the corners as offset, raises nothing, and logs a
    warning for an axis exactly when the given size is smaller than the
    extent |max-min| of the data on that axis; it logs nothing else. *)
Theorem X1_define_box_user_size :
  forall (self : TracerCatalog) (lo hi : vec3) (b : Box),
    BoxSize self = Some b ->
    let r := _define_box lo hi self in
    outcome r = Return tt
    /\ BoxSize (final r) = Some b
    /\ offset (final r) = Some (vscale 0.5 (vadd lo hi))
    /\ (forall i, In (EvWarning i) (trace r)
                  <-> (i < 3)%nat
                      /\ box_nth b i < Rabs (vnth hi i - vnth lo i))
    /\ forall e, In e (trace r) -> exists i, e = EvWarning i.
Proof.
  intros self lo hi b HB r. subst r. rewrite (define_box_user self lo hi b HB).
  unfold outcome, final, trace. cbn [fst snd].
  split; [reflexivity|]. split; [exact HB|]. split; [reflexivity|]. split.
  - intros i. rewrite in_warnings, vnth_extent. reflexivity.
  - apply warnings_only.
Qed.

Lemma X1_define_box_user_size_witness :
  BoxSize boxed_catalog = Some (BoxFloat (10, 1, 10))
  /\ (In (EvWarning 1) (trace (_define_box (0, 0, 0) (2, 2, 2) boxed_catalog))
      <-> (1 < 3)%nat
          /\ box_nth (BoxFloat (10, 1, 10)) 1
             < Rabs (vnth (2, 2, 2) 1 - vnth (0, 0, 0) 1)).
Proof.
  split; [reflexivity|].
  exact (proj1 (proj2 (proj2 (proj2
           (X1_define_box_user_size boxed_catalog (0, 0, 0) (2, 2, 2)
              (BoxFloat (10, 1, 10)) eq_refl)))) 1%nat).
Defined.

(** X2.  Whatever BoxSize is, the offset [_define_box] stores centres
    the box: a point between the two corners, once translated by minus
    the offset as [read] does, lies within half the extent of the
    origin on every axis. *)
Theorem X2_offset_centres_the_box :
  forall (self : TracerCatalog) (lo hi p : vec3),
    vle lo p -> vle p hi ->
    exists off,
      offset (final (_define_box lo hi self)) = Some off
      /\ forall i, (i < 3)%nat ->
           Rabs (vnth (vadd p (vneg off)) i)
           <= Rabs (vnth hi i - vnth lo i) / 2.
Proof.
  intros self lo hi p Hlo Hhi. eexists. split; [apply define_box_offset|].
  destruct lo as [[lo1 lo2] lo3]. destruct hi as [[hi1 hi2] hi3].
  destruct p as [[p1 p2] p3].
  destruct Hlo as [Hl1 [Hl2 Hl3]]. destruct Hhi as [Hh1 [Hh2 Hh3]].
  cbn [vnth] in *.
  intros i Hi.
  assert (Hcases : i = 0%nat \/ i = 1%nat \/ i = 2%nat) by lia.
  destruct Hcases as [-> | [-> | ->]];
    cbn [vnth vadd vneg vscale vmap vmap2];
    rewrite (Rabs_pos_eq (_ - _)) by lra; apply Rabs_le; lra.
Qed.

Lemma X2_offset_centres_the_box_witness :
  vle (0, 0, 0) (1, 2, 3) /\ vle (1, 2, 3) (4, 4, 4)
  /\ exists off,
       offset (final (_define_box (0, 0, 0) (4, 4, 4) bare_catalog)) = Some off
       /\ forall i, (i < 3)%nat ->
            Rabs (vnth (vadd (1, 2, 3) (vneg off)) i)
            <= Rabs (vnth (4, 4, 4) i - vnth (0, 0, 0) i) / 2.
Proof.
  assert (H1 : vle (0, 0, 0) (1, 2, 3)) by (unfold vle; cbn [vnth]; lra).
  assert (H2 : vle (1, 2, 3) (4, 4, 4)) by (unfold vle; cbn [vnth]; lra).
  split; [exact H1|]. split; [exact H2|].
  exact (X2_offset_centres_the_box bare_catalog (0, 0, 0) (4, 4, 4) (1, 2, 3)
           H1 H2).
Defined.

(* ================================================================== *)
(** * More on construction *)

(** X3.  Without a cosmology [__init__] raises its ValueError at once:
    nothing has been read, gathered or broadcast, and the only change
    to the instance is that the selector and the offset are unset. *)
Theorem X3_no_cosmology_fails_first :
  forall self : TracerCatalog,
    cosmo self = None ->
    __init__ self =
    (Raise (ValueError cosmology_message),
     set_offset None (set__source None self), []).
Proof.
  intros self Hc. unfold __init__.
  rewrite !bind_modify, bind_get. cbn [cosmo set_offset set__source].
  rewrite Hc. reflexivity.
Qed.

Lemma X3_no_cosmology_fails_first_witness :
  cosmo (without_cosmo bare_catalog) = None
  /\ trace (__init__ (without_cosmo bare_catalog)) = [].
Proof.
  split; [reflexivity|].
  rewrite (X3_no_cosmology_fails_first (without_cosmo bare_catalog) eq_refl).
  reflexivity.
Defined.

(** The box step of rank 0: it never raises, it only logs warnings or
    the non-finite case, and it keeps everything but offset and
    BoxSize. *)
Lemma box_step_runs self (lo hi : corner) :
  exists s' t,
    (match lo, hi with
     | Some l, Some h => _define_box l h
     | _, _ => emit EvNonFiniteBox
     end) self = (Return tt, s', t)
    /\ nbar s' = nbar self /\ fsky s' = fsky self
    /\ cosmo s' = cosmo self /\ comm s' = comm self
    /\ _source s' = _source self.
Proof.
  destruct lo as [l|]; [destruct hi as [h|]|].
  - unfold _define_box. rewrite bind_modify, bind_get.
    cbn [BoxSize set_offset BoxPad].
    destruct (BoxSize self).
    + eexists. eexists. split; [reflexivity|]. repeat split.
    + destruct (vscale (1.0 + BoxPad self) (vabs (vsub h l))) as [[d1 d2] d3].
      eexists. eexists. split; [reflexivity|]. repeat split.
  - eexists. eexists. split; [reflexivity|]. repeat split.
  - eexists. eexists. split; [reflexivity|]. repeat split.
Qed.




Lemma init_other_rank_trace self c :
  cosmo self = Some c -> rank (comm self) <> 0%nat ->
  outcome (__init__ self) = Return tt
  /\ trace (__init__ self) =
       init_prefix (length (read_chunks (data self) false))
         ++ [EvBcast; EvBcast; EvBcast].
Proof.
  intros Hc Hr. unfold __init__.
  rewrite !bind_modify, bind_get. cbn [cosmo set_offset set__source].
  rewrite Hc. rewrite !bind_emit.
  set (s0 := set_offset None (set__source None self)).
  destruct (accumulate_runs s0 c (read_chunks (data self) false) Hc 0
              {| part_min := None; part_max := None; part_redshifts := [] |})
    as [own Hown].
  change (data s0) with (data self).
  rewrite (bind_Return _ _ _ _ _ _ Hown). rewrite !bind_emit.
  change (rank (comm s0)) with (rank (comm self)).
  apply Nat.eqb_neq in Hr. rewrite Hr.
  rewrite bind_ret, bind_get.
  rewrite bind_emit, bind_modify, bind_emit, bind_modify, bind_emit,
    bind_modify.
  cbn [comm set_nbar set_offset set_BoxSize].
  change (comm s0) with (comm self). rewrite Hr.
  rewrite !outcome_prepend, !trace_prepend.
  unfold ret, outcome, trace, init_prefix. cbn [fst snd].
  split; [reflexivity|]. rewrite <- !app_assoc. reflexivity.
Qed.

(** X5.  On a rank other than 0, with a cosmology, [__init__] raises
    nothing whatever fsky and the curve are: it reads its chunks, takes
    part in the three gathers and the three broadcasts, does no box or
    density work, logs nothing, and ends with exactly the BoxSize,
    offset and curve that rank 0 broadcast. *)
Theorem X5_other_ranks_adopt_broadcast :
  forall (self : TracerCatalog) (c : Cosmology),
    cosmo self = Some c -> rank (comm self) <> 0%nat ->
    let r := __init__ self in
    let g := bcast_geometry (comm self) in
    outcome r = Return tt
    /\ BoxSize (final r) = geo_BoxSize g
    /\ offset (final r) = geo_offset g
    /\ nbar (final r) = geo_nbar g
    /\ _source (final r) = None
    /\ trace r =
         init_prefix (length (read_chunks (data self) false))
           ++ [EvBcast; EvBcast; EvBcast].
Proof.
  intros self c Hc Hr r g. subst r g. unfold __init__.
  rewrite !bind_modify, bind_get. cbn [cosmo set_offset set__source].
  rewrite Hc. rewrite !bind_emit.
  set (s0 := set_offset None (set__source None self)).
  destruct (accumulate_runs s0 c (read_chunks (data self) false) Hc 0
              {| part_min := None; part_max := None; part_redshifts := [] |})
    as [own Hown].
  change (data s0) with (data self).
  rewrite (bind_Return _ _ _ _ _ _ Hown). rewrite !bind_emit.
  change (rank (comm s0)) with (rank (comm self)).
  apply Nat.eqb_neq in Hr. rewrite Hr.
  rewrite bind_ret, bind_get.
  rewrite bind_emit, bind_modify, bind_emit, bind_modify, bind_emit,
    bind_modify.
  cbn [comm set_nbar set_offset set_BoxSize].
  change (comm s0) with (comm self). rewrite Hr.
  rewrite !outcome_prepend, !final_prepend, !trace_prepend.
  unfold ret, outcome, final, trace, bcast, init_prefix.
  cbn [fst snd comm set_nbar set_offset set_BoxSize nbar _source
       BoxSize offset].
  rewrite Hr.
  repeat split. rewrite <- !app_assoc. reflexivity.
Qed.

Lemma X5_other_ranks_adopt_broadcast_witness :
  cosmo (with_comm peer_comm bare_catalog) = Some flat_cosmology
  /\ rank (comm (with_comm peer_comm bare_catalog)) <> 0%nat
  /\ nbar (final (__init__ (with_comm peer_comm bare_catalog)))
     = Some flat_curve.
Proof.
  assert (Hr : rank (comm (with_comm peer_comm bare_catalog)) <> 0%nat)
    by discriminate.
  split; [reflexivity|]. split; [exact Hr|].
  exact (proj1 (proj2 (proj2 (proj2
           (X5_other_ranks_adopt_broadcast (with_comm peer_comm bare_catalog)
              flat_cosmology eq_refl Hr))))).
Defined.

(* ================================================================== *)
(** * The read loop of construction does not depend on chunking *)

Lemma vmin_assoc a b c :
  vmap2 Rmin (vmap2 Rmin a b) c = vmap2 Rmin a (vmap2 Rmin b c).
Proof.
  destruct a as [[a1 a2] a3], b as [[b1 b2] b3], c as [[c1 c2] c3].
  cbn [vmap2]. rewrite !Rmin_assoc. reflexivity.
Qed.

Lemma vmax_assoc a b c :
  vmap2 Rmax (vmap2 Rmax a b) c = vmap2 Rmax a (vmap2 Rmax b c).
Proof.
  destruct a as [[a1 a2] a3], b as [[b1 b2] b3], c as [[c1 c2] c3].
  cbn [vmap2]. rewrite !Rmax_assoc. reflexivity.
Qed.

Lemma fold_assoc (f : vec3 -> vec3 -> vec3) :
  (forall a b c, f (f a b) c = f a (f b c)) ->
  forall ps a p, f a (fold_left f ps p) = fold_left f ps (f a p).
Proof.
  intros Hf. induction ps as [|q ps IH]; intros a p; [reflexivity|].
  cbn [fold_left]. rewrite IH, Hf. reflexivity.
Qed.

Lemma fold_minimum_Some ps p :
  fold_left np_minimum ps (Some p) = Some (fold_left (vmap2 Rmin) ps p).
Proof.
  revert p. induction ps as [|q ps IH]; intros p; [reflexivity|].
  cbn [fold_left np_minimum]. apply IH.
Qed.

Lemma fold_maximum_Some ps p :
  fold_left np_maximum ps (Some p) = Some (fold_left (vmap2 Rmax) ps p).
Proof.
  revert p. induction ps as [|q ps IH]; intros p; [reflexivity|].
  cbn [fold_left np_maximum]. apply IH.
Qed.

Lemma minimum_of_chunk acc p ps :
  np_minimum acc (amin_axis0 p ps) = corner_min acc (p :: ps).
Proof.
  unfold corner_min, amin_axis0. cbn [fold_left].
  destruct acc as [a|]; cbn [np_minimum]; rewrite fold_minimum_Some;
    [|reflexivity].
  f_equal. apply (fold_assoc _ vmin_assoc).
Qed.

Lemma maximum_of_chunk acc p ps :
  np_maximum acc (amax_axis0 p ps) = corner_max acc (p :: ps).
Proof.
  unfold corner_max, amax_axis0. cbn [fold_left].
  destruct acc as [a|]; cbn [np_maximum]; rewrite fold_maximum_Some;
    [|reflexivity].
  f_equal. apply (fold_assoc _ vmax_assoc).
Qed.

(** The partial result of the loop, read off the stream of rows. *)
Lemma accumulate_result self c chunks :
  cosmo self = Some c ->
  forall k acc,
    accumulate chunks k acc self =
    (Return
       {| part_min :=
            corner_min (part_min acc)
              (map (to_cartesian_row c default_translate) (all_rows chunks));
          part_max :=
            corner_max (part_max acc)
              (map (to_cartesian_row c default_translate) (all_rows chunks));
          part_redshifts := part_redshifts acc ++ map snd (all_rows chunks) |},
     self, map EvChunk (seq k (length chunks))).
Proof.
  intros Hc. induction chunks as [|ch rest IH]; intros k acc.
  - cbn [accumulate all_rows map concat corner_min corner_max fold_left].
    rewrite app_nil_r. destruct acc. reflexivity.
  - cbn [accumulate]. rewrite bind_emit, bind_get.
    unfold all_rows. cbn [map concat]. fold (all_rows rest).
    destruct (chunk_coords ch) as [|row rows] eqn:E.
    + rewrite bind_ret, IH. reflexivity.
    + rewrite (to_cartesian_rows self c _ _ Hc). cbn [map].
      match goal with
      | |- prepend _ (bind ?m ?k self) = _ =>
          assert (Hstep : m self =
            (Return
               {| part_min :=
                    corner_min (part_min acc)
                      (map (to_cartesian_row c default_translate) (row :: rows));
                  part_max :=
                    corner_max (part_max acc)
                      (map (to_cartesian_row c default_translate) (row :: rows));
                  part_redshifts := part_redshifts acc ++ map snd (row :: rows) |},
             self, []))
      end.
      { rewrite bind_lift_Return. cbn [map].
        rewrite <- minimum_of_chunk, <- maximum_of_chunk. reflexivity. }
      rewrite (bind_Return _ _ _ _ _ _ Hstep), prepend_nil, IH.
      cbn [part_min part_max part_redshifts].
      unfold corner_min, corner_max.
      rewrite !map_app, !fold_left_app, <- app_assoc.
      reflexivity.
Qed.

(** X6.  The partial result a rank hands to the gathers depends on the
    rows its data source delivers and not on how they are cut into
    chunks: two chunkings of the same rows (empty chunks included) give
    the same corners and the same redshift list, and the redshifts are
    the third coordinates of the rows in reading order. *)
Theorem X6_partial_ignores_chunking :
  forall (self : TracerCatalog) (c : Cosmology) (chunks1 chunks2 : list Chunk),
    cosmo self = Some c ->
    all_rows chunks1 = all_rows chunks2 ->
    exists own,
      outcome (accumulate chunks1 0 empty_partial self) = Return own
      /\ outcome (accumulate chunks2 0 empty_partial self) = Return own
      /\ part_redshifts own = map snd (all_rows chunks1).
Proof.
  intros self c chunks1 chunks2 Hc Hrows. eexists.
  rewrite !(accumulate_result self c _ Hc). rewrite <- Hrows.
  unfold outcome. cbn [fst]. repeat split.
Qed.

Lemma X6_partial_ignores_chunking_witness :
  cosmo bare_catalog = Some flat_cosmology
  /\ all_rows [ {| chunk_coords := [(0, 0, 1); (0, 0, 2)]; chunk_weight := [] |} ]
     = all_rows [ {| chunk_coords := [(0, 0, 1)]; chunk_weight := [] |};
                  {| chunk_coords := []; chunk_weight := [] |};
                  {| chunk_coords := [(0, 0, 2)]; chunk_weight := [] |} ]
  /\ exists own,
       outcome (accumulate
                  [ {| chunk_coords := [(0, 0, 1); (0, 0, 2)];
                       chunk_weight := [] |} ] 0 empty_partial bare_catalog)
       = Return own
       /\ outcome (accumulate
                  [ {| chunk_coords := [(0, 0, 1)]; chunk_weight := [] |};
                    {| chunk_coords := []; chunk_weight := [] |};
                    {| chunk_coords := [(0, 0, 2)]; chunk_weight := [] |} ]
                  0 empty_partial bare_catalog)
          = Return own
       /\ part_redshifts own = [1; 2].
Proof.
  split; [reflexivity|]. split; [reflexivity|].
  exact (X6_partial_ignores_chunking bare_catalog flat_cosmology
           [ {| chunk_coords := [(0, 0, 1); (0, 0, 2)]; chunk_weight := [] |} ]
           [ {| chunk_coords := [(0, 0, 1)]; chunk_weight := [] |};
             {| chunk_coords := []; chunk_weight := [] |};
             {| chunk_coords := [(0, 0, 2)]; chunk_weight := [] |} ]
           eq_refl eq_refl).
Defined.

Lemma vle_refl p : vle p p.
Proof. unfold vle. lra. Qed.

Lemma vmin_le_l a b : vle (vmap2 Rmin a b) a.
Proof.
  destruct a as [[a1 a2] a3], b as [[b1 b2] b3]. unfold vle. cbn [vmap2 vnth].
  repeat split; apply Rmin_l.
Qed.

Lemma vmin_le_r a b : vle (vmap2 Rmin a b) b.
Proof.
  destruct a as [[a1 a2] a3], b as [[b1 b2] b3]. unfold vle. cbn [vmap2 vnth].
  repeat split; apply Rmin_r.
Qed.

Lemma vmax_ge_l a b : vle a (vmap2 Rmax a b).
Proof.
  destruct a as [[a1 a2] a3], b as [[b1 b2] b3]. unfold vle. cbn [vmap2 vnth].
  repeat split; apply Rmax_l.
Qed.

Lemma vmax_ge_r a b : vle b (vmap2 Rmax a b).
Proof.
  destruct a as [[a1 a2] a3], b as [[b1 b2] b3]. unfold vle. cbn [vmap2 vnth].
  repeat split; apply Rmax_r.
Qed.

Lemma vle_trans a b c : vle a b -> vle b c -> vle a c.
Proof. unfold vle. intros [H1 [H2 H3]] [H4 [H5 H6]]. repeat split; lra. Qed.

Lemma corner_min_bounds points :
  forall acc lo,
    corner_min acc points = Some lo ->
    (forall a, acc = Some a -> vle lo a)
    /\ forall p, In p points -> vle lo p.
Proof.
  unfold corner_min. induction points as [|q ps IH]; intros acc lo H.
  - cbn [fold_left] in H. split; [|intros p []].
    intros a Ha. rewrite Ha in H. injection H as <-. apply vle_refl.
  - cbn [fold_left] in H. destruct (IH _ _ H) as [Hacc Hps]. split.
    + intros a ->. cbn [np_minimum] in Hacc.
      apply (vle_trans _ _ _ (Hacc _ eq_refl)), vmin_le_l.
    + intros p [<- | Hin]; [|apply Hps; exact Hin].
      destruct acc as [a|]; cbn [np_minimum] in Hacc.
      * apply (vle_trans _ _ _ (Hacc _ eq_refl)), vmin_le_r.
      * apply (Hacc _ eq_refl).
Qed.

Lemma corner_max_bounds points :
  forall acc hi,
    corner_max acc points = Some hi ->
    (forall a, acc = Some a -> vle a hi)
    /\ forall p, In p points -> vle p hi.
Proof.
  unfold corner_max. induction points as [|q ps IH]; intros acc hi H.
  - cbn [fold_left] in H. split; [|intros p []].
    intros a Ha. rewrite Ha in H. injection H as <-. apply vle_refl.
  - cbn [fold_left] in H. destruct (IH _ _ H) as [Hacc Hps]. split.
    + intros a ->. cbn [np_maximum] in Hacc.
      apply (vle_trans _ _ _ (vmax_ge_l a q)), (Hacc _ eq_refl).
    + intros p [<- | Hin]; [|apply Hps; exact Hin].
      destruct acc as [a|]; cbn [np_maximum] in Hacc.
      * apply (vle_trans _ _ _ (vmax_ge_r a _)), (Hacc _ eq_refl).
      * apply (Hacc _ eq_refl).
Qed.

Lemma corner_min_defined acc p ps : exists lo, corner_min acc (p :: ps) = Some lo.
Proof.
  unfold corner_min. cbn [fold_left].
  destruct acc; cbn [np_minimum]; rewrite fold_minimum_Some; eexists; reflexivity.
Qed.

Lemma corner_max_defined acc p ps : exists hi, corner_max acc (p :: ps) = Some hi.
Proof.
  unfold corner_max. cbn [fold_left].
  destruct acc; cbn [np_maximum]; rewrite fold_maximum_Some; eexists; reflexivity.
Qed.

(** X7.  When the data source of a rank delivers at least one row, the
    two corners that rank hands to the gathers are finite and enclose
    the Cartesian image of every row it read: min <= point <= max on
    each axis. *)
Theorem X7_corners_enclose_rows :
  forall (self : TracerCatalog) (c : Cosmology) (chunks : list Chunk),
    cosmo self = Some c ->
    all_rows chunks <> [] ->
    exists own lo hi,
      outcome (accumulate chunks 0 empty_partial self) = Return own
      /\ part_min own = Some lo /\ part_max own = Some hi
      /\ forall row, In row (all_rows chunks) ->
           vle lo (to_cartesian_row c default_translate row)
           /\ vle (to_cartesian_row c default_translate row) hi.
Proof.
  intros self c chunks Hc Hne.
  rewrite (accumulate_result self c _ Hc).
  destruct (all_rows chunks) as [|r0 rs] eqn:E; [contradiction|].
  cbn [map empty_partial part_min part_max part_redshifts].
  destruct (corner_min_defined None (to_cartesian_row c default_translate r0)
              (map (to_cartesian_row c default_translate) rs)) as [lo Hlo].
  destruct (corner_max_defined None (to_cartesian_row c default_translate r0)
              (map (to_cartesian_row c default_translate) rs)) as [hi Hhi].
  eexists. exists lo, hi. unfold outcome. cbn [fst].
  split; [reflexivity|]. cbn [part_min part_max].
  split; [exact Hlo|]. split; [exact Hhi|].
  intros row Hin.
  assert (Hp : In (to_cartesian_row c default_translate row)
                  (map (to_cartesian_row c default_translate) (r0 :: rs)))
    by (apply in_map; exact Hin).
  split.
  - apply (proj2 (corner_min_bounds _ _ _ Hlo)). exact Hp.
  - apply (proj2 (corner_max_bounds _ _ _ Hhi)). exact Hp.
Qed.

Lemma X7_corners_enclose_rows_witness :
  cosmo bare_catalog = Some flat_cosmology
  /\ all_rows (read_chunks one_row false) <> []
  /\ exists own lo hi,
       outcome (accumulate (read_chunks one_row false) 0 empty_partial
                  bare_catalog) = Return own
       /\ part_min own = Some lo /\ part_max own = Some hi
       /\ forall row, In row (all_rows (read_chunks one_row false)) ->
            vle lo (to_cartesian_row flat_cosmology default_translate row)
            /\ vle (to_cartesian_row flat_cosmology default_translate row) hi.
Proof.
  assert (Hne : all_rows (read_chunks one_row false) <> []) by discriminate.
  split; [reflexivity|]. split; [exact Hne|].
  exact (X7_corners_enclose_rows bare_catalog flat_cosmology
           (read_chunks one_row false) eq_refl Hne).
Defined.

(* ================================================================== *)
(** * Construction centres the data it read *)

Lemma final_bind {A B : Type} (m : M A) (k : A -> M B) self :
  final (bind m k self) =
  match outcome (m self) with
  | Return a => final (k a (final (m self)))
  | Raise _ => final (m self)
  end.
Proof.
  unfold bind, final, outcome.
  destruct (m self) as [[[a|e] s1] t1]; cbn [fst snd]; [|reflexivity].
  destruct (k a s1) as [[r s2] t2]. reflexivity.
Qed.

Lemma stable_set_nbar_any P redshift alpha :
  (forall c s, P s -> P (set_nbar c s)) ->
  stable P (_set_nbar redshift alpha).
Proof.
  intros Hset. unfold _set_nbar. apply stable_get. intros s Hs.
  destruct (nbar s); [apply stable_ret|].
  destruct (fsky s); [|apply stable_raise].
  apply stable_bind; [apply stable_lift|]. intros [dz zbins].
  destruct (cosmo s); [|apply stable_raise].
  apply stable_bind; [apply stable_lift|]. intros curve.
  apply stable_modify. intros s' H. apply Hset. exact H.
Qed.

Lemma np_amin_head lo rest :
  exists g, np_amin (Some lo :: rest) = Some g /\ vle g lo.
Proof.
  unfold np_amin. cbn [fold_right].
  destruct (fold_right (merge_corner Rmin) None rest) as [y|];
    cbn [merge_corner]; eexists; (split; [reflexivity|]).
  - apply vmin_le_l.
  - apply vle_refl.
Qed.

Lemma np_amax_head hi rest :
  exists g, np_amax (Some hi :: rest) = Some g /\ vle hi g.
Proof.
  unfold np_amax. cbn [fold_right].
  destruct (fold_right (merge_corner Rmax) None rest) as [y|];
    cbn [merge_corner]; eexists; (split; [reflexivity|]).
  - apply vmax_ge_l.
  - apply vle_refl.
Qed.

Lemma define_box_holds self lo hi :
  rank (comm self) = 0%nat ->
  exists b,
    holds_box (vscale 0.5 (vadd lo hi)) b (final (_define_box lo hi self))
    /\ outcome (_define_box lo hi self) = Return tt
    /\ (BoxSize self = None ->
        forall i, (i < 3)%nat ->
          box_nth b i =
          IZR (astype_int ((1.0 + BoxPad self)
                           * Rabs (vnth hi i - vnth lo i)))).
Proof.
  intros Hr. destruct (BoxSize self) as [b|] eqn:HB.
  - exists b. rewrite (define_box_user self lo hi b HB).
    split; [|split; [reflexivity|discriminate]].
    repeat split; assumption.
  - destruct lo as [[lo1 lo2] lo3]. destruct hi as [[hi1 hi2] hi3].
    rewrite (define_box_auto self _ _ _ _ _ _ HB). eexists.
    split; [|split; [reflexivity|]].
    + repeat split. exact Hr.
    + intros _ i Hi.
      assert (Hcases : i = 0%nat \/ i = 1%nat \/ i = 2%nat) by lia.
      destruct Hcases as [-> | [-> | ->]]; reflexivity.
Qed.

Lemma stable_init_tail off b :
  stable (holds_box off b)
    (self <- get_self ;;
     let g := bcast_geometry (comm self) in
     emit EvBcast ;;
     modify (set_BoxSize (bcast (comm self) (BoxSize self) (geo_BoxSize g))) ;;
     emit EvBcast ;;
     modify (set_offset (bcast (comm self) (offset self) (geo_offset g))) ;;
     emit EvBcast ;;
     modify (set_nbar (bcast (comm self) (nbar self) (geo_nbar g))) ;;
     if Nat.eqb (rank (comm self)) 0
     then emit EvInfo ;; emit EvInfo ;; emit EvInfo
     else ret tt).
Proof.
  apply stable_get. intros s1 [Ho [Hb Hr]]. cbv zeta.
  unfold bcast. rewrite Hr. cbn [Nat.eqb].
  apply stable_bind; [apply stable_emit|]. intros _.
  apply stable_bind.
  { apply stable_modify. intros s [Ho' [Hb' Hr']]. repeat split; assumption. }
  intros _. apply stable_bind; [apply stable_emit|]. intros _.
  apply stable_bind.
  { apply stable_modify. intros s [Ho' [Hb' Hr']]. repeat split; assumption. }
  intros _. apply stable_bind; [apply stable_emit|]. intros _.
  apply stable_bind.
  { apply stable_modify. intros s H. exact H. }
  intros _. stab.
Qed.

Lemma translated_coordinate c off row i :
  vnth (to_cartesian_row c (vneg off) row) i =
  vnth (to_cartesian_row c default_translate row) i - vnth off i.
Proof.
  destruct row as [[ra dec] z]. destruct off as [[o1 o2] o3].
  destruct i as [|[|i]];
    cbn [to_cartesian_row vadd vneg vmap vmap2 vnth default_translate vzero];
    ring.
Qed.

Lemma centred_coordinate lo hi p i :
  vle lo p -> vle p hi -> (i < 3)%nat ->
  Rabs (vnth p i - vnth (vscale 0.5 (vadd lo hi)) i)
  <= Rabs (vnth hi i - vnth lo i) / 2.
Proof.
  destruct lo as [[lo1 lo2] lo3]. destruct hi as [[hi1 hi2] hi3].
  destruct p as [[p1 p2] p3].
  intros [Hl1 [Hl2 Hl3]] [Hh1 [Hh2 Hh3]] Hi. cbn [vnth] in *.
  assert (Hcases : i = 0%nat \/ i = 1%nat \/ i = 2%nat) by lia.
  destruct Hcases as [-> | [-> | ->]];
    cbn [vnth vadd vscale vmap vmap2];
    match goal with
    | |- _ <= Rabs ?e / 2 => rewrite (Rabs_pos_eq e) by lra
    end; apply Rabs_le; lra.
Qed.

(** X8.  On rank 0, with a cosmology and a data source that delivers at
    least one row, [__init__] leaves a box that centres the data,
    whether or not the density step that follows raises: the offset is
    the midpoint of the gathered global corners, and the position that
    [read] computes for any row the rank read (its Cartesian image
    minus the offset) lies within half the global extent of the origin
    on every axis; when BoxSize was inferred and the padding
    |max-min|*BoxPad amounts to at least one unit on an axis, it lies
    within BoxSize/2 there. *)
Theorem X8_construction_centres_data :
  forall (self : TracerCatalog) (c : Cosmology),
    cosmo self = Some c -> rank (comm self) = 0%nat ->
    let rows := all_rows (read_chunks (data self) false) in
    let points := map (to_cartesian_row c default_translate) rows in
    let others := gather_others (comm self) in
    rows <> [] ->
    exists lo hi b,
      np_amin (corner_min None points :: map part_min others) = Some lo
      /\ np_amax (corner_max None points :: map part_max others) = Some hi
      /\ offset (final (__init__ self)) = Some (vscale 0.5 (vadd lo hi))
      /\ BoxSize (final (__init__ self)) = Some b
      /\ forall row i,
           In row rows -> (i < 3)%nat ->
           let position :=
             to_cartesian_row c (vneg (vscale 0.5 (vadd lo hi))) row in
           Rabs (vnth position i) <= Rabs (vnth hi i - vnth lo i) / 2
           /\ (BoxSize self = None ->
               1 <= Rabs (vnth hi i - vnth lo i) * BoxPad self ->
               Rabs (vnth position i) <= box_nth b i / 2).
Proof.
  intros self c Hc Hr rows points others Hne.
  subst rows.
  remember (all_rows (read_chunks (data self) false)) as rows eqn:Erows.
  destruct rows as [|r0 rs]; [contradiction|].
  destruct (corner_min_defined None (to_cartesian_row c default_translate r0)
              (map (to_cartesian_row c default_translate) rs)) as [lo0 Hlo0].
  destruct (corner_max_defined None (to_cartesian_row c default_translate r0)
              (map (to_cartesian_row c default_translate) rs)) as [hi0 Hhi0].
  change (corner_min None points = Some lo0) in Hlo0.
  change (corner_max None points = Some hi0) in Hhi0.
  destruct (np_amin_head lo0 (map part_min others)) as [lo [Hlo Hlole]].
  destruct (np_amax_head hi0 (map part_max others)) as [hi [Hhi Hhile]].
  assert (Hlo' : np_amin (corner_min None points :: map part_min others)
                 = Some lo) by (rewrite Hlo0; exact Hlo).
  assert (Hhi' : np_amax (corner_max None points :: map part_max others)
                 = Some hi) by (rewrite Hhi0; exact Hhi).
  set (s0 := set_offset None (set__source None self)).
  assert (Hr0 : rank (comm s0) = 0%nat) by exact Hr.
  destruct (define_box_holds s0 lo hi Hr0) as [b [Hbox [Hboxout Hauto]]].
  assert (Hfinal : holds_box (vscale 0.5 (vadd lo hi)) b (final (__init__ self))).
  { unfold __init__. rewrite !bind_modify, bind_get.
    cbn [cosmo set_offset set__source]. rewrite Hc. rewrite !bind_emit.
    fold s0. change (data s0) with (data self).
    rewrite (bind_Return _ _ _ _ _ _
               (accumulate_result s0 c (read_chunks (data self) false) Hc 0
                  {| part_min := None; part_max := None;
                     part_redshifts := [] |})).
    rewrite !bind_emit. rewrite !final_prepend.
    change (rank (comm s0)) with (rank (comm self)). rewrite Hr.
    cbn [Nat.eqb]. rewrite final_bind. rewrite <- Erows.
    assert (Hroot : holds_box (vscale 0.5 (vadd lo hi)) b
              (final (root_work
                 {| part_min := corner_min None points;
                    part_max := corner_max None points;
                    part_redshifts := [] ++ map snd (r0 :: rs) |} s0))).
    { unfold root_work. rewrite bind_get.
      cbn [map part_min part_max].
      change (gather_others (comm s0)) with others.
      rewrite Hlo', Hhi'. rewrite final_bind, Hboxout.
      apply stable_set_nbar_any; [|exact Hbox].
      intros cv s H. exact H. }
    cbn [part_min part_max part_redshifts] in *.
    fold points.
    destruct (outcome (root_work _ s0)); [|exact Hroot].
    apply stable_init_tail. exact Hroot. }
  destruct Hfinal as [Hoff [HB _]].
  exists lo, hi, b.
  split; [exact Hlo'|]. split; [exact Hhi'|]. split; [exact Hoff|].
  split; [exact HB|].
  intros row i Hin Hi. cbv zeta.
  assert (Hp : In (to_cartesian_row c default_translate row) points)
    by (apply in_map; exact Hin).
  assert (Hge : vle lo (to_cartesian_row c default_translate row)).
  { apply (vle_trans _ lo0); [exact Hlole|].
    apply (proj2 (corner_min_bounds _ _ _ Hlo0)). exact Hp. }
  assert (Hle : vle (to_cartesian_row c default_translate row) hi).
  { apply (vle_trans _ hi0); [|exact Hhile].
    apply (proj2 (corner_max_bounds _ _ _ Hhi0)). exact Hp. }
  rewrite translated_coordinate.
  pose proof (centred_coordinate lo hi _ i Hge Hle Hi) as Hc0.
  split; [exact Hc0|].
  intros HBnone Hpad.
  rewrite (Hauto HBnone i Hi).
  pose proof (auto_axis (BoxPad self) (Rabs (vnth hi i - vnth lo i))
                (Rabs_pos _)) as [_ Hbig].
  cbv zeta in Hbig. specialize (Hbig Hpad).
  change (BoxPad s0) with (BoxPad self). lra.
Qed.

Lemma X8_construction_centres_data_witness :
  cosmo bare_catalog = Some flat_cosmology
  /\ rank (comm bare_catalog) = 0%nat
  /\ all_rows (read_chunks (data bare_catalog) false) <> []
  /\ exists off, offset (final (__init__ bare_catalog)) = Some off.
Proof.
  assert (Hne : all_rows (read_chunks (data bare_catalog) false) <> [])
    by discriminate.
  split; [reflexivity|]. split; [reflexivity|]. split; [exact Hne|].
  destruct (X8_construction_centres_data bare_catalog flat_cosmology
              eq_refl eq_refl Hne) as [lo [hi [b [_ [_ [Hoff _]]]]]].
  eexists. exact Hoff.
Defined.

(* ================================================================== *)
(** * What construction keeps and what it resets *)

Lemma stable_root_work_any P own :
  (forall o s, P s -> P (set_offset o s)) ->
  (forall b s, P s -> P (set_BoxSize b s)) ->
  (forall c s, P s -> P (set_nbar c s)) ->
  stable P (root_work own).
Proof.
  intros Ho Hb Hn. unfold root_work. apply stable_get. intros s Hs.
  apply stable_bind.
  - destruct (np_amin _) as [lo|]; [destruct (np_amax _) as [hi|]|];
      try apply stable_emit.
    apply stable_define_box; assumption.
  - intros _. apply stable_set_nbar_any. exact Hn.
Qed.

Lemma init_keeps (P : TracerCatalog -> Prop) :
  (forall o s, P s -> P (set_offset o s)) ->
  (forall b s, P s -> P (set_BoxSize b s)) ->
  (forall c s, P s -> P (set_nbar c s)) ->
  forall self,
    P (set_offset None (set__source None self)) -> P (final (__init__ self)).
Proof.
  intros Ho Hb Hn self H. unfold __init__. rewrite !bind_modify.
  refine ((_ : stable P _) _ H).
  apply stable_get. intros s Hs. destruct (cosmo s); [|apply stable_raise].
  apply stable_bind; [apply stable_emit|]. intros _.
  apply stable_bind; [apply stable_emit|]. intros _.
  apply stable_bind; [apply stable_accumulate|]. intros own.
  do 3 (apply stable_bind; [apply stable_emit|]; intros _).
  apply stable_bind.
  { destruct (Nat.eqb (rank (comm s)) 0);
      [apply stable_root_work_any; assumption|apply stable_ret]. }
  intros _. apply stable_get. intros s1 Hs1. cbv zeta.
  apply stable_bind; [apply stable_emit|]. intros _.
  apply stable_bind; [apply stable_modify; intros; apply Hb; assumption|].
  intros _. apply stable_bind; [apply stable_emit|]. intros _.
  apply stable_bind; [apply stable_modify; intros; apply Ho; assumption|].
  intros _. apply stable_bind; [apply stable_emit|]. intros _.
  apply stable_bind; [apply stable_modify; intros; apply Hn; assumption|].
  intros _. destruct (Nat.eqb (rank (comm s1)) 0); stab.
Qed.

(** X9.  [__init__] always leaves the selector unset, on every rank and
    whether it raises or not, even if a source had been selected before;
    so a [read] right after construction raises the ValueError that asks
    for [set_source], and reads nothing. *)
Theorem X9_construction_unsets_selector :
  forall (spline_call : Curve -> R -> R) (self : TracerCatalog)
         (columns : list string) (full : bool),
    _source (final (__init__ self)) = None
    /\ read spline_call columns full (final (__init__ self)) =
       (Raise (ValueError unset_message), final (__init__ self), []).
Proof.
  intros spline_call self columns full.
  assert (H : _source (final (__init__ self)) = None).
  { apply (init_keeps (fun s => _source s = None));
      try (intros; assumption). reflexivity. }
  split; [exact H|]. apply read_unset. exact H.
Qed.

(** X10.  [read] never changes the instance, whatever the rank, the
    columns, the source and the outcome: BoxSize, offset, curve and
    selector are after the pass what they were before. *)
Theorem X10_read_keeps_instance :
  forall (spline_call : Curve -> R -> R) (self : TracerCatalog)
         (columns : list string) (full : bool),
    final (read spline_call columns full self) = self.
Proof.
  intros spline_call self columns full.
  symmetry. apply (stable_read (fun s => self = s)). reflexivity.
Qed.

Lemma accumulate_hollow self chunks :
  Forall (fun ch => chunk_coords ch = []) chunks ->
  forall k acc,
    accumulate chunks k acc self =
    (Return acc, self, map EvChunk (seq k (length chunks))).
Proof.
  induction 1 as [|ch rest Hch _ IH]; intros k acc; [reflexivity|].
  cbn [accumulate]. rewrite bind_emit, bind_get, Hch, bind_ret, IH.
  reflexivity.
Qed.

Lemma concat_all_nil {A : Type} (l : list (list A)) :
  Forall (fun x => x = []) l -> concat l = [].
Proof.
  induction 1 as [|x rest Hx _ IH]; [reflexivity|].
  cbn [concat]. rewrite Hx, IH. reflexivity.
Qed.

Lemma set_nbar_empty_sample self alpha f :
  nbar self = None -> fsky self = Some f ->
  _set_nbar [] alpha self = (Raise (ValueError zero_size_message), self, []).
Proof.
  intros Hn Hf. unfold _set_nbar. rewrite bind_get, Hn, Hf. reflexivity.
Qed.

(** X11.  A catalogue without a single row cannot be constructed when the
    curve has to be estimated: on rank 0, with a cosmology and fsky but no
    stored curve, if every chunk of the data source is empty and no other
    rank contributes a redshift, [__init__] raises the ValueError of the
    maximum of a zero-size array, after the read loop and the gathers. *)
Theorem X11_no_rows_no_curve :
  forall (self : TracerCatalog) (c : Cosmology) (f : R),
    cosmo self = Some c -> nbar self = None -> fsky self = Some f ->
    rank (comm self) = 0%nat ->
    Forall (fun ch => chunk_coords ch = []) (read_chunks (data self) false) ->
    Forall (fun p => part_redshifts p = []) (gather_others (comm self)) ->
    outcome (__init__ self) = Raise (ValueError zero_size_message)
    /\ exists box_events,
         trace (__init__ self) =
           init_prefix (length (read_chunks (data self) false)) ++ box_events.
Proof.
  intros self c f Hc Hn Hf Hr Hhollow Hothers. unfold __init__.
  rewrite !bind_modify, bind_get. cbn [cosmo set_offset set__source].
  rewrite Hc. rewrite !bind_emit.
  set (s0 := set_offset None (set__source None self)).
  change (data s0) with (data self).
  rewrite (bind_Return _ _ _ _ _ _
             (accumulate_hollow s0 _ Hhollow 0
                {| part_min := None; part_max := None; part_redshifts := [] |})).
  rewrite !bind_emit.
  change (rank (comm s0)) with (rank (comm self)). rewrite Hr. cbn [Nat.eqb].
  assert (Hroot : exists s' t,
    root_work {| part_min := None; part_max := None; part_redshifts := [] |} s0
    = (Raise (ValueError zero_size_message), s', t)).
  { unfold root_work. rewrite bind_get.
    destruct (box_step_runs s0
      (np_amin (map part_min
         ({| part_min := None; part_max := None; part_redshifts := [] |}
          :: gather_others (comm s0))))
      (np_amax (map part_max
         ({| part_min := None; part_max := None; part_redshifts := [] |}
          :: gather_others (comm s0)))))
      as [s' [t [Hbox [Hn' [Hf' _]]]]].
    rewrite (bind_Return _ _ _ _ _ _ Hbox).
    cbn [map part_redshifts concat app].
    rewrite concat_all_nil by (apply Forall_map; exact Hothers).
    rewrite (set_nbar_empty_sample s' _ f); [|rewrite Hn'; exact Hn
                                             |rewrite Hf'; exact Hf].
    eexists. eexists. reflexivity. }
  destruct Hroot as [s' [t Hroot]].
  rewrite (bind_Raise _ _ _ _ _ _ Hroot).
  rewrite !outcome_prepend, !trace_prepend.
  split; [reflexivity|]. exists t. unfold init_prefix, trace. cbn [snd].
  rewrite <- !app_assoc. reflexivity.
Qed.

Lemma X11_no_rows_no_curve_witness :
  cosmo (with_data hollow (with_fsky 1 bare_catalog)) = Some flat_cosmology
  /\ nbar (with_data hollow (with_fsky 1 bare_catalog)) = None
  /\ fsky (with_data hollow (with_fsky 1 bare_catalog)) = Some 1
  /\ rank (comm (with_data hollow (with_fsky 1 bare_catalog))) = 0%nat
  /\ outcome (__init__ (with_data hollow (with_fsky 1 bare_catalog)))
     = Raise (ValueError zero_size_message).
Proof.
  do 4 (split; [reflexivity|]).
  refine (proj1 (X11_no_rows_no_curve
                   (with_data hollow (with_fsky 1 bare_catalog))
                   flat_cosmology 1 eq_refl eq_refl eq_refl eq_refl _ _)).
  - repeat constructor.
  - constructor.
Defined.

(* ================================================================== *)
(** * The read pass on the other ranks and without FKP weights *)

Lemma read_loop_other_rank spline_call self columns :
  rank (comm self) <> 0%nat ->
  forall chunks k,
    read_loop spline_call columns chunks k self =
    (Return tt, self,
     concat (map (fun p : nat * Chunk =>
                    [EvChunk (fst p); EvBcast;
                     EvYield (map empty_like
                                (bcast_shapes (comm self) (fst p)))])
                 (combine (seq k (length chunks)) chunks))).
Proof.
  intros Hr. apply Nat.eqb_neq in Hr.
  induction chunks as [|ch rest IH]; intros k; [reflexivity|].
  cbn [read_loop]. rewrite bind_emit, bind_get. cbv zeta. rewrite Hr.
  rewrite bind_ret, !bind_emit, IH.
  unfold bcast. rewrite Hr. reflexivity.
Qed.

Lemma columns_checked columns :
  (forall col, In col columns -> In col valid) ->
  existsb (fun col => negb (str_in col valid)) columns = false.
Proof.
  intros Hvalid. apply not_true_is_false. intros H.
  apply existsb_exists in H. destruct H as [col [Hin Hneg]].
  apply Hvalid in Hin. apply str_in_In in Hin.
  rewrite Hin in Hneg. discriminate Hneg.
Qed.

(** X12.  On a rank other than 0, with a source selected and valid
    columns, [read] raises nothing whatever P0_fkp, offset and curve
    are: for each upstream chunk it takes part in one broadcast and
    yields placeholders built from the broadcast shapes.  A placeholder
    has no rows, and a placeholder built from the shape of an array has
    the per-row shape of that array. *)
Theorem X12_other_ranks_yield_placeholders :
  forall (spline_call : Curve -> R -> R) (self : TracerCatalog)
         (src : source_ref) (columns : list string) (full : bool),
    rank (comm self) <> 0%nat ->
    _source self = Some src ->
    (forall col, In col columns -> In col valid) ->
    let chunks := read_chunks (deref self src) full in
    read spline_call columns full self =
      (Return tt, self,
       EvOpen src ["Position"; "Weight"]%string full
       :: concat (map (fun p : nat * Chunk =>
                         [EvChunk (fst p); EvBcast;
                          EvYield (map empty_like
                                     (bcast_shapes (comm self) (fst p)))])
                      (combine (seq 0 (length chunks)) chunks)))
    /\ (forall sh, rows (empty_like sh) = 0%nat)
    /\ (forall d, tl (shape (empty_like (shape d))) = tl (shape d)).
Proof.
  intros spline_call self src columns full Hr Hs Hvalid chunks. split.
  - unfold read. rewrite bind_get, Hs, (columns_checked columns Hvalid).
    rewrite bind_emit, (read_loop_other_rank spline_call self columns Hr).
    reflexivity.
  - split.
    + intros sh. unfold empty_like. destruct (tl sh); reflexivity.
    + intros [rows0 | vals]; reflexivity.
Qed.

Lemma X12_other_ranks_yield_placeholders_witness :
  rank (comm (with_comm peer_comm (fkp_catalog None))) <> 0%nat
  /\ _source (with_comm peer_comm (fkp_catalog None)) = Some ref_data
  /\ read (fun _ _ => 0) ["Position"; "Weight"]%string false
       (with_comm peer_comm (fkp_catalog None))
     = (Return tt, with_comm peer_comm (fkp_catalog None),
        [EvOpen ref_data ["Position"; "Weight"]%string false;
         EvChunk 0; EvBcast; EvYield [Arr2 []; Arr1 []]]).
Proof.
  assert (Hr : rank (comm (with_comm peer_comm (fkp_catalog None))) <> 0%nat)
    by discriminate.
  assert (Hvalid : forall col, In col ["Position"; "Weight"]%string ->
                               In col valid).
  { intros col [<- | [<- | []]]; [left|right; left]; reflexivity. }
  split; [exact Hr|]. split; [reflexivity|].
  exact (proj1 (X12_other_ranks_yield_placeholders (fun _ _ => 0)
                  (with_comm peer_comm (fkp_catalog None)) ref_data
                  ["Position"; "Weight"]%string false Hr eq_refl Hvalid)).
Defined.

Lemma select_columns spline_call c off curve weights ch columns :
  (forall col, In col columns -> In col valid) ->
  select
    [("Position"%string,
      Arr2 (map (to_cartesian_row c (vneg off)) (chunk_coords ch)));
     ("Weight"%string, Arr1 weights);
     ("Nbar"%string,
      Arr1 (map Some (map (spline_call curve) (map snd (chunk_coords ch)))))]
    columns
  = Return (map (column_of spline_call c off curve weights ch) columns).
Proof.
  induction columns as [|col rest IH]; intros Hvalid; [reflexivity|].
  cbn [select map]. rewrite IH by (intros x Hx; apply Hvalid; right; exact Hx).
  destruct (Hvalid col (or_introl eq_refl)) as [<- | [<- | [<- | []]]];
    cbn; rewrite ?map_map; reflexivity.
Qed.

Lemma root_chunk_plain spline_call self columns off curve c ch :
  (forall col, In col columns -> In col valid) ->
  offset self = Some off -> nbar self = Some curve -> cosmo self = Some c ->
  compute_fkp_weights self = false ->
  root_chunk spline_call columns ch self =
  (Return (map (column_of spline_call c off curve
                  (map Some (chunk_weight ch)) ch) columns),
   self, []).
Proof.
  intros Hvalid Hoff Hnbar Hcosmo Hfkp. unfold root_chunk.
  rewrite bind_get, Hoff, (to_cartesian_rows self c _ _ Hcosmo).
  rewrite bind_lift_Return, Hnbar, Hfkp, bind_ret.
  unfold lift. rewrite (select_columns spline_call c off curve _ ch columns Hvalid).
  reflexivity.
Qed.

(** X13.  On rank 0, with a source selected, valid columns, offset,
    curve and cosmology in place and FKP weighting off, [read] raises
    nothing and needs no P0_fkp: for each upstream chunk it yields one
    array per requested column, in the order of the request (repeats
    included): Position is the Cartesian image of each row minus the
    offset, Weight is the upstream weight column unchanged, and Nbar is
    the curve evaluated at each row's redshift. *)
Theorem X13_plain_read_columns :
  forall (spline_call : Curve -> R -> R) (self : TracerCatalog)
         (src : source_ref) (columns : list string) (full : bool)
         (off : vec3) (curve : Curve) (c : Cosmology),
    rank (comm self) = 0%nat ->
    _source self = Some src ->
    (forall col, In col columns -> In col valid) ->
    offset self = Some off -> nbar self = Some curve ->
    cosmo self = Some c ->
    compute_fkp_weights self = false ->
    let chunks := read_chunks (deref self src) full in
    read spline_call columns full self =
    (Return tt, self,
     EvOpen src ["Position"; "Weight"]%string full
     :: concat (map (fun p : nat * Chunk =>
                       [EvChunk (fst p); EvBcast;
                        EvYield
                          (map (column_of spline_call c off curve
                                  (map Some (chunk_weight (snd p))) (snd p))
                               columns)])
                    (combine (seq 0 (length chunks)) chunks))).
Proof.
  intros spline_call self src columns full off curve c
         Hr Hs Hvalid Hoff Hnbar Hcosmo Hfkp chunks.
  unfold read. rewrite bind_get, Hs, (columns_checked columns Hvalid).
  rewrite bind_emit. fold chunks.
  assert (Hloop : forall l k,
    read_loop spline_call columns l k self =
    (Return tt, self,
     concat (map (fun p : nat * Chunk =>
                    [EvChunk (fst p); EvBcast;
                     EvYield
                       (map (column_of spline_call c off curve
                               (map Some (chunk_weight (snd p))) (snd p))
                            columns)])
                 (combine (seq k (length l)) l)))).
  { induction l as [|ch rest IH]; intros k; [reflexivity|].
    cbn [read_loop]. rewrite bind_emit, bind_get, Hr. cbv zeta.
    cbn [Nat.eqb].
    rewrite (bind_Return _ _ _ _ _ _
               (root_chunk_plain spline_call self columns off curve c ch
                  Hvalid Hoff Hnbar Hcosmo Hfkp)).
    rewrite prepend_nil, !bind_emit, IH. reflexivity. }
  rewrite Hloop. reflexivity.
Qed.

Lemma X13_plain_read_columns_witness :
  rank (comm (set_offset (Some vzero)
                (set_nbar (Some flat_curve)
                   (set__source (Some ref_data) bare_catalog)))) = 0%nat
  /\ compute_fkp_weights
       (set_offset (Some vzero)
          (set_nbar (Some flat_curve)
             (set__source (Some ref_data) bare_catalog))) = false
  /\ outcome (read (fun _ _ => 2) ["Weight"; "Weight"]%string true
                (set_offset (Some vzero)
                   (set_nbar (Some flat_curve)
                      (set__source (Some ref_data) bare_catalog))))
     = Return tt.
Proof.
  assert (Hvalid : forall col, In col ["Weight"; "Weight"]%string ->
                               In col valid).
  { intros col [<- | [<- | []]]; right; left; reflexivity. }
  split; [reflexivity|]. split; [reflexivity|].
  rewrite (X13_plain_read_columns (fun _ _ => 2)
             (set_offset (Some vzero)
                (set_nbar (Some flat_curve)
                   (set__source (Some ref_data) bare_catalog)))
             ref_data ["Weight"; "Weight"]%string true vzero flat_curve
             flat_cosmology eq_refl eq_refl Hvalid eq_refl eq_refl eq_refl
             eq_refl).
  reflexivity.
Defined.

(* ================================================================== *)
(** * The bins cover the sample and the histogram loses only its top *)

Lemma fold_left_Rmin_le l :
  forall a, fold_left Rmin l a <= a
            /\ forall v, In v l -> fold_left Rmin l a <= v.
Proof.
  induction l as [|b rest IH]; intros a; cbn [fold_left].
  - split; [lra|intros v []].
  - destruct (IH (Rmin a b)) as [H1 H2].
    pose proof (Rmin_l a b). pose proof (Rmin_r a b).
    split; [lra|]. intros v [<- | Hin]; [lra|apply H2; exact Hin].
Qed.

Lemma fold_left_Rmax_ge l :
  forall a, a <= fold_left Rmax l a
            /\ forall v, In v l -> v <= fold_left Rmax l a.
Proof.
  induction l as [|b rest IH]; intros a; cbn [fold_left].
  - split; [lra|intros v []].
  - destruct (IH (Rmax a b)) as [H1 H2].
    pose proof (Rmax_l a b). pose proof (Rmax_r a b).
    split; [lra|]. intros v [<- | Hin]; [lra|apply H2; exact Hin].
Qed.

Lemma np_min_le data lo v : np_min data = Some lo -> In v data -> lo <= v.
Proof.
  destruct data as [|x rest]; [discriminate|].
  cbn [np_min]. intros H. injection H as <-.
  destruct (fold_left_Rmin_le rest x) as [H1 H2].
  intros [<- | Hin]; [exact H1|apply H2; exact Hin].
Qed.

Lemma np_max_ge data hi v : np_max data = Some hi -> In v data -> v <= hi.
Proof.
  destruct data as [|x rest]; [discriminate|].
  cbn [np_max]. intros H. injection H as <-.
  destruct (fold_left_Rmax_ge rest x) as [H1 H2].
  intros [<- | Hin]; [exact H1|apply H2; exact Hin].
Qed.

Lemma nth_edges (e : nat -> R) n k :
  (k <= n)%nat -> nth k (map e (seq 0 (S n))) 0 = e k.
Proof.
  intros Hk.
  rewrite (nth_indep _ 0 (e 0%nat)) by (rewrite length_map, length_seq; lia).
  rewrite (map_nth e), seq_nth by lia. reflexivity.
Qed.

Lemma last_edges (e : nat -> R) n : last (map e (seq 0 (S n))) 0 = e n.
Proof. rewrite seq_S, map_app. cbn [map Nat.add]. apply last_last. Qed.

Lemma INR_bin_count data hi lo :
  scotts_dx data <> 0 ->
  INR (bin_count data hi lo)
  = IZR (Z.max 1 (Zceil ((hi - lo) / scotts_dx data))).
Proof.
  intros H. rewrite INR_IZR_INZ.
  rewrite (proj1 (proj2 (bin_count_spec data hi lo)) H). reflexivity.
Qed.

Lemma last_edge_covers data hi lo :
  scotts_dx data <> 0 ->
  hi <= edge lo (scotts_dx data) (bin_count data hi lo)
  /\ (lo < hi ->
      edge lo (scotts_dx data) (bin_count data hi lo) < hi + scotts_dx data).
Proof.
  intros Hdx. pose proof (scotts_dx_nonneg data) as Hpos.
  assert (Hdx0 : 0 < scotts_dx data) by lra.
  unfold edge. rewrite (INR_bin_count data hi lo Hdx).
  set (q := (hi - lo) / scotts_dx data).
  assert (Hq : q * scotts_dx data = hi - lo) by (subst q; field; exact Hdx).
  pose proof (Zceil_bound q) as [Hc1 Hc2].
  split.
  - assert (Hmax : IZR (Zceil q) <= IZR (Z.max 1 (Zceil q)))
      by (apply IZR_le; lia).
    nra.
  - intros Hlt.
    assert (Hqpos : 0 < q).
    { subst q. apply Rdiv_lt_0_compat; lra. }
    assert (Hge1 : (1 <= Zceil q)%Z).
    { assert (Hz : (0 < Zceil q)%Z) by (apply lt_IZR; simpl; lra). lia. }
    rewrite Z.max_r by exact Hge1. nra.
Qed.

(** X14.  For a sample with a nonzero standard deviation, the bin edges
    of [scotts_bin_width] are equally spaced by a positive dx, start at
    the sample minimum, number Nbins+1 with Nbins >= 1, and cover the
    sample: the last edge is at least the maximum, and it overshoots the
    maximum by less than one bin width when the extremes differ. *)
Theorem X14_bins_cover_the_sample :
  forall (data : list R) (hi lo : R),
    np_max data = Some hi -> np_min data = Some lo ->
    np_std data <> 0 ->
    exists dx bins Nbins,
      scotts_bin_width data = Return (dx, bins)
      /\ 0 < dx /\ (1 <= Nbins)%nat /\ length bins = S Nbins
      /\ (forall k, (k <= Nbins)%nat -> nth k bins 0 = lo + dx * INR k)
      /\ hi <= nth Nbins bins 0
      /\ (lo < hi -> nth Nbins bins 0 < hi + dx).
Proof.
  intros data hi lo Hhi Hlo Hstd.
  assert (Hdx : scotts_dx data <> 0).
  { intros H. apply scotts_dx_zero in H. contradiction. }
  pose proof (scotts_dx_nonneg data) as Hpos.
  exists (scotts_dx data),
         (map (edge lo (scotts_dx data)) (seq 0 (S (bin_count data hi lo)))),
         (bin_count data hi lo).
  split; [apply scotts_bin_width_runs; assumption|].
  split; [lra|].
  split; [apply bin_count_spec|].
  split; [rewrite length_map, length_seq; reflexivity|].
  split; [intros k Hk; apply (nth_edges (edge lo (scotts_dx data))); exact Hk|].
  rewrite (nth_edges (edge lo (scotts_dx data))) by lia.
  apply last_edge_covers. exact Hdx.
Qed.

Lemma X14_bins_cover_the_sample_witness :
  np_max sample8 = Some 1 /\ np_min sample8 = Some 0 /\ np_std sample8 <> 0
  /\ exists dx bins Nbins,
       scotts_bin_width sample8 = Return (dx, bins)
       /\ 0 < dx /\ (1 <= Nbins)%nat /\ length bins = S Nbins
       /\ (forall k, (k <= Nbins)%nat -> nth k bins 0 = 0 + dx * INR k)
       /\ 1 <= nth Nbins bins 0
       /\ (0 < 1 -> nth Nbins bins 0 < 1 + dx).
Proof.
  assert (Hstd : np_std sample8 <> 0) by (rewrite np_std_sample8; lra).
  split; [exact np_max_sample8|]. split; [exact np_min_sample8|].
  split; [exact Hstd|].
  exact (X14_bins_cover_the_sample sample8 1 0 np_max_sample8 np_min_sample8
           Hstd).
Defined.

Lemma in_left_closed_split a b c v :
  a <= b -> b <= c ->
  (if in_left_closed a c v then 1 else 0)%nat
  = ((if in_left_closed a b v then 1 else 0)
     + (if in_left_closed b c v then 1 else 0))%nat.
Proof.
  intros Hab Hbc. unfold in_left_closed.
  destruct (Rle_dec a v); destruct (Rlt_dec v c); destruct (Rlt_dec v b);
    destruct (Rle_dec b v); try reflexivity; exfalso; lra.
Qed.

Lemma count_if_cons p v l :
  count_if p (v :: l) = ((if p v then 1 else 0) + count_if p l)%nat.
Proof. unfold count_if. cbn [filter]. destruct (p v); reflexivity. Qed.

Lemma count_split a b c l :
  a <= b -> b <= c ->
  count_if (in_left_closed a c) l
  = (count_if (in_left_closed a b) l + count_if (in_left_closed b c) l)%nat.
Proof.
  intros Hab Hbc. induction l as [|v rest IH]; [reflexivity|].
  rewrite !count_if_cons, IH, (in_left_closed_split a b c v Hab Hbc). lia.
Qed.

Lemma sum_counts (e : nat -> R) sample :
  (forall i j, (i <= j)%nat -> e i <= e j) ->
  forall n,
    list_sum (map (fun i => count_if (in_left_closed (e i) (e (S i))) sample)
                  (seq 0 n))
    = count_if (in_left_closed (e 0%nat) (e n)) sample.
Proof.
  intros He. induction n as [|n IH].
  - cbn [seq map list_sum fold_right]. symmetry.
    unfold count_if.
    rewrite (filter_ext_in _ (fun _ => false)); [|].
    + induction sample; [reflexivity|assumption].
    + intros v _. destruct (in_left_closed (e 0%nat) (e 0%nat) v) eqn:E;
        [|reflexivity].
      apply in_left_closed_true in E. lra.
  - rewrite seq_S, map_app, list_sum_app, IH.
    rewrite (count_split (e 0%nat) (e n) (e (S n)))
      by (apply He; lia).
    unfold list_sum. cbn [map fold_right Nat.add]. lia.
Qed.

Lemma count_if_le p (l : list R) : (count_if p l <= length l)%nat.
Proof.
  induction l as [|v rest IH]; [apply Nat.le_refl|].
  rewrite count_if_cons. cbn [length]. destruct (p v); lia.
Qed.

Lemma count_if_ext_in p q (l : list R) :
  (forall v, In v l -> p v = q v) -> count_if p l = count_if q l.
Proof.
  intros H. unfold count_if. f_equal. apply filter_ext_in. exact H.
Qed.

Lemma count_if_none p (l : list R) :
  (forall v, In v l -> p v = false) -> count_if p l = 0%nat.
Proof.
  intros H. induction l as [|v rest IH]; [reflexivity|].
  rewrite count_if_cons, (H v (or_introl eq_refl)), IH; [reflexivity|].
  intros x Hx. apply H. right. exact Hx.
Qed.

(** X15.  The histogram of [_set_nbar] never counts a redshift twice
    and loses none below the last bin edge: the counts add up to the
    number of redshifts strictly below the last edge, hence to at most
    the sample size.  With a nonzero standard deviation a redshift is
    left out only if it equals the last edge (which is then the sample
    maximum); with a zero standard deviation every count is zero. *)
Theorem X15_histogram_total :
  forall (data : list R) (hi lo : R),
    np_max data = Some hi -> np_min data = Some lo ->
    exists dx bins,
      scotts_bin_width data = Return (dx, bins)
      /\ list_sum (nz_counts bins data)
         = count_if (below (last bins 0)) data
      /\ (list_sum (nz_counts bins data) <= length data)%nat
      /\ (np_std data <> 0 ->
          forall v, In v data -> v < last bins 0 \/ v = last bins 0 /\ v = hi)
      /\ (np_std data = 0 -> list_sum (nz_counts bins data) = 0%nat).
Proof.
  intros data hi lo Hhi Hlo.
  pose proof (scotts_dx_nonneg data) as Hpos.
  set (dx := scotts_dx data) in *.
  set (n := bin_count data hi lo).
  exists dx, (map (edge lo dx) (seq 0 (S n))).
  split; [apply scotts_bin_width_runs; assumption|].
  rewrite (nz_counts_uniform (edge lo dx) n data (edge_monotone lo dx Hpos)).
  rewrite (sum_counts (edge lo dx) data (edge_monotone lo dx Hpos)).
  rewrite last_edges.
  assert (He0 : edge lo dx 0 = lo) by (unfold edge; simpl; ring).
  assert (Htotal : count_if (in_left_closed (edge lo dx 0) (edge lo dx n)) data
                   = count_if (below (edge lo dx n)) data).
  { apply count_if_ext_in. intros v Hin.
    pose proof (np_min_le data lo v Hlo Hin) as Hge.
    unfold in_left_closed, below. rewrite He0.
    destruct (Rle_dec lo v); [reflexivity|contradiction]. }
  rewrite Htotal.
  split; [reflexivity|]. split; [apply count_if_le|]. split.
  - intros Hstd v Hin.
    assert (Hdx : scotts_dx data <> 0).
    { intros H. apply scotts_dx_zero in H. contradiction. }
    pose proof (proj1 (last_edge_covers data hi lo Hdx)) as Hcover.
    fold dx in Hcover. fold n in Hcover.
    pose proof (np_max_ge data hi v Hhi Hin) as Hle.
    destruct (Rlt_dec v (edge lo dx n)); [left; assumption|right; lra].
  - intros Hstd. apply count_if_none. intros v Hin.
    assert (Hdx0 : dx = 0) by (apply scotts_dx_zero; exact Hstd).
    pose proof (np_min_le data lo v Hlo Hin) as Hge.
    unfold below, edge. rewrite Hdx0.
    destruct (Rlt_dec v (lo + 0 * INR n)); [exfalso; lra|reflexivity].
Qed.

Lemma X15_histogram_total_witness :
  np_max sample8 = Some 1 /\ np_min sample8 = Some 0
  /\ exists dx bins,
       scotts_bin_width sample8 = Return (dx, bins)
       /\ list_sum (nz_counts bins sample8)
          = count_if (below (last bins 0)) sample8
       /\ (list_sum (nz_counts bins sample8) <= length sample8)%nat.
Proof.
  split; [exact np_max_sample8|]. split; [exact np_min_sample8|].
  destruct (X15_histogram_total sample8 1 0 np_max_sample8 np_min_sample8)
    as [dx [bins [H1 [H2 [H3 _]]]]].
  exists dx, bins. repeat split; assumption.
Defined.

(* ================================================================== *)
(** * When the estimator is well defined *)

Lemma cube_increasing x y : x < y -> x ^ 3 < y ^ 3.
Proof.
  intros H.
  assert (Hsq : 0 < y * y + x * y + x * x).
  { replace (y * y + x * y + x * x)
      with (Rsqr (x + y / 2) + 3 / 4 * Rsqr y) by (unfold Rsqr; field).
    pose proof (Rle_0_sqr (x + y / 2)) as H1.
    pose proof (Rle_0_sqr y) as H2.
    destruct (Req_dec y 0) as [Hy | Hy].
    - subst y. assert (Hx : x + 0 / 2 <> 0) by lra.
      pose proof (Rsqr_pos_lt _ Hx). lra.
    - pose proof (Rsqr_pos_lt _ Hy). lra. }
  assert (Hprod : 0 < (y - x) * (y * y + x * y + x * x))
    by (apply Rmult_lt_0_compat; lra).
  replace ((y - x) * (y * y + x * y + x * x)) with (y ^ 3 - x ^ 3) in Hprod
    by ring.
  lra.
Qed.

Lemma shell_volume_positive f hi lo :
  0 < f -> lo < hi -> 0 < shell_volume f hi lo.
Proof.
  intros Hf Hlt. unfold shell_volume.
  pose proof PI_RGT_0 as Hpi. pose proof (cube_increasing lo hi Hlt) as Hc.
  apply Rmult_lt_0_compat; [|exact Hf].
  apply Rmult_lt_0_compat; [lra|lra].
Qed.

Lemma edge_increasing lo dx :
  0 < dx -> forall i j, (i < j)%nat -> edge lo dx i < edge lo dx j.
Proof.
  intros Hdx i j Hij. unfold edge. apply lt_INR in Hij. nra.
Qed.

Lemma bin_count_many data hi lo :
  scotts_dx data <> 0 -> 3 < (hi - lo) / scotts_dx data ->
  (4 <= bin_count data hi lo)%nat.
Proof.
  intros Hdx Hq.
  pose proof (proj1 (proj2 (bin_count_spec data hi lo)) Hdx) as Hn.
  pose proof (Zceil_bound ((hi - lo) / scotts_dx data)) as [_ Hc].
  assert (Hz : (3 < Zceil ((hi - lo) / scotts_dx data))%Z)
    by (apply lt_IZR; lra).
  lia.
Qed.

(** X16.  The estimator is well defined away from the small and the
    degenerate cases: for a sample with a nonzero standard deviation
    whose range is more than three bin widths (so that there are at
    least four bins), a strictly increasing comoving distance, fsky > 0
    and alpha >= 0, [_set_nbar] raises nothing and stores a curve whose
    knots are strictly increasing, as many as its ordinates and at
    least four, and every ordinate is a real number that is not
    negative. *)
Theorem X16_density_defined_and_nonnegative :
  forall (self : TracerCatalog) (data : list R) (hi lo alpha f : R)
         (c : Cosmology),
    nbar self = None -> fsky self = Some f -> cosmo self = Some c ->
    np_max data = Some hi -> np_min data = Some lo ->
    np_std data <> 0 -> 3 < (hi - lo) / scotts_dx data ->
    0 < f -> 0 <= alpha ->
    (forall a b, a < b -> comoving_distance c a < comoving_distance c b) ->
    exists zs ys,
      _set_nbar data alpha self =
        (Return tt, set_nbar (Some (spline zs (map Some ys))) self, [])
      /\ length zs = length ys /\ (4 <= length ys)%nat
      /\ Forall (fun y => 0 <= y) ys
      /\ forall i j, (i < j)%nat -> (j < length zs)%nat ->
           nth i zs 0 < nth j zs 0.
Proof.
  intros self data hi lo alpha f c Hn Hf Hc Hhi Hlo Hstd Hq Hfpos Halpha
         Hmono.
  assert (Hdx : scotts_dx data <> 0).
  { intros H. apply scotts_dx_zero in H. contradiction. }
  pose proof (scotts_dx_nonneg data) as Hpos.
  assert (Hdx0 : 0 < scotts_dx data) by lra.
  pose proof (bin_count_many data hi lo Hdx Hq) as Hmany.
  set (e := edge lo (scotts_dx data)).
  set (n := bin_count data hi lo) in *.
  set (count := fun i => count_if (in_left_closed (e i) (e (S i))) data).
  set (vol := fun i => shell_volume f (comoving_distance c (e (S i)))
                                      (comoving_distance c (e i))).
  assert (Hvol : forall i, 0 < vol i).
  { intros i. apply shell_volume_positive; [exact Hfpos|].
    apply Hmono. apply edge_increasing; [exact Hdx0|lia]. }
  exists (map (fun i => 0.5 * (e i + e (S i))) (seq 0 n)),
         (map (fun i => alpha * INR (count i) / vol i) (seq 0 n)).
  split.
  - rewrite (set_nbar_curve self data alpha f c hi lo Hn Hf Hc Hhi Hlo).
    cbv zeta. fold e. fold n.
    rewrite spline_enough by (rewrite length_map, length_seq; exact Hmany).
    rewrite map_map.
    match goal with
    | |- (_, set_nbar (Some (spline _ ?B)) _, _)
         = (_, set_nbar (Some (spline _ ?B')) _, _) =>
        assert (HB : B = B')
    end.
    { apply map_ext. intros i. apply np_divide_nonzero.
      apply Rgt_not_eq. exact (Hvol i). }
    rewrite HB. reflexivity.
  - rewrite !length_map, !length_seq.
    split; [reflexivity|]. split; [exact Hmany|]. split.
    + apply Forall_forall. intros y Hy. apply in_map_iff in Hy.
      destruct Hy as [i [<- _]]. pose proof (Hvol i) as Hv.
      pose proof (pos_INR (count i)) as Hcnt.
      apply Rmult_le_pos; [nra|]. left. apply Rinv_0_lt_compat. exact Hv.
    + intros i j Hij Hj.
      assert (Hnth : forall k, (k < n)%nat ->
                nth k (map (fun i => 0.5 * (e i + e (S i))) (seq 0 n)) 0
                = 0.5 * (e k + e (S k))).
      { intros k Hk.
        rewrite (nth_indep _ 0 (0.5 * (e 0%nat + e 1%nat)))
          by (rewrite length_map, length_seq; lia).
        rewrite (map_nth (fun i => 0.5 * (e i + e (S i)))), seq_nth by lia.
        reflexivity. }
      rewrite !Hnth by lia.
      pose proof (edge_increasing lo _ Hdx0 i j Hij) as H1.
      pose proof (edge_increasing lo _ Hdx0 (S i) (S j) ltac:(lia)) as H2.
      fold e in H1, H2. lra.
Qed.

(* ================================================================== *)
(** * Selecting a source and reading it *)

(** X17.  The selector decides what [read] opens: after
    [set_source('data')] or [set_source('randoms')], from any state, a
    [read] with valid columns begins by opening exactly that source for
    Position and Weight with the caller's [full] flag; and after a
    [set_source] that raised, [read] still opens the source selected
    before. *)
Theorem X17_read_opens_selected_source :
  forall (spline_call : Curve -> R -> R) (self : TracerCatalog)
         (columns : list string) (full : bool),
    (forall col, In col columns -> In col valid) ->
    (exists rest,
        trace (read spline_call columns full (final (set_source "data" self)))
        = EvOpen ref_data ["Position"; "Weight"]%string full :: rest)
    /\ (exists rest,
          trace (read spline_call columns full
                   (final (set_source "randoms" self)))
          = EvOpen ref_randoms ["Position"; "Weight"]%string full :: rest)
    /\ forall which src,
         which <> "data"%string -> which <> "randoms"%string ->
         _source self = Some src ->
         exists rest,
           trace (read spline_call columns full (final (set_source which self)))
           = EvOpen src ["Position"; "Weight"]%string full :: rest.
Proof.
  intros spline_call self columns full Hvalid.
  assert (Hopen : forall s src, _source s = Some src ->
            exists rest,
              trace (read spline_call columns full s)
              = EvOpen src ["Position"; "Weight"]%string full :: rest).
  { intros s src Hs. unfold read.
    rewrite bind_get, Hs, (columns_checked columns Hvalid), bind_emit.
    rewrite trace_prepend. eexists. reflexivity. }
  split; [apply Hopen; reflexivity|]. split; [apply Hopen; reflexivity|].
  intros which src Hd Hr Hs. apply Hopen.
  rewrite (set_source_other which self Hd Hr). exact Hs.
Qed.

Lemma X17_read_opens_selected_source_witness :
  (forall col, In col ["Nbar"%string] -> In col valid)
  /\ exists rest,
       trace (read (fun _ _ => 0) ["Nbar"%string] true
                (final (set_source "randoms" bare_catalog)))
       = EvOpen ref_randoms ["Position"; "Weight"]%string true :: rest.
Proof.
  assert (Hvalid : forall col, In col ["Nbar"%string] -> In col valid).
  { intros col [<- | []]. right. right. left. reflexivity. }
  split; [exact Hvalid|].
  exact (proj1 (proj2 (X17_read_opens_selected_source (fun _ _ => 0)
                         bare_catalog ["Nbar"%string] true Hvalid))).
Defined.

(* ================================================================== *)
(** * More on the weights and the rows of a read pass *)

Lemma fkp_weight_range P0 n :
  0 <= n * P0 -> exists y, fkp_weight P0 n = Some y /\ 0 < y <= 1.
Proof.
  intros H. unfold fkp_weight. rewrite np_divide_nonzero by lra.
  eexists. split; [reflexivity|].
  assert (Hd : 0 < 1 + n * P0) by lra.
  split.
  - apply Rdiv_lt_0_compat; lra.
  - apply (Rmult_le_reg_r (1 + n * P0)); [exact Hd|].
    unfold Rdiv. rewrite Rmult_assoc, Rinv_l by lra. lra.
Qed.

(** X18.  With FKP weighting on and P0_fkp set, on rank 0, whenever the
    product nbar(z)*P0_fkp is never negative (a non-negative density
    and a non-negative P0), every weight that [read] yields is a real
    number in the interval (0, 1]. *)
Theorem X18_fkp_weights_in_unit_interval :
  forall (spline_call : Curve -> R -> R) (self : TracerCatalog)
         (src : source_ref) (columns : list string) (full : bool)
         (off : vec3) (curve : Curve) (c : Cosmology) (P0 : R),
    rank (comm self) = 0%nat ->
    _source self = Some src ->
    (forall col, In col columns -> In col valid) ->
    offset self = Some off -> nbar self = Some curve ->
    cosmo self = Some c ->
    compute_fkp_weights self = true -> P0_fkp self = Some P0 ->
    (forall z, 0 <= spline_call curve z * P0) ->
    forall arrays i,
      In (EvYield arrays) (trace (read spline_call columns full self)) ->
      nth_error columns i = Some "Weight"%string ->
      exists ws,
        nth_error arrays i = Some (Arr1 ws)
        /\ Forall (fun w => exists y, w = Some y /\ 0 < y <= 1) ws.
Proof.
  intros spline_call self src columns full off curve c P0
         Hrank Hsrc Hvalid Hoff Hnbar Hcosmo Hfkp HP0 Hpos arrays i Hin Hi.
  destruct (read_loop_fkp spline_call self columns off curve c
              Hrank Hvalid Hoff Hnbar Hcosmo Hfkp P0 HP0)
    as [arrays_of [Hw Hloop]].
  unfold read in Hin.
  rewrite bind_get, Hsrc, (columns_checked columns Hvalid), bind_emit in Hin.
  rewrite trace_prepend, Hloop in Hin. cbn [trace snd app] in Hin.
  destruct Hin as [Hin | Hin]; [discriminate Hin|].
  apply in_concat in Hin. destruct Hin as [l [Hl Hin]].
  apply in_map_iff in Hl. destruct Hl as [p [<- _]].
  destruct Hin as [Hin | [Hin | [Hin | []]]]; try discriminate Hin.
  injection Hin as <-.
  eexists. split; [apply Hw; exact Hi|].
  apply Forall_forall. intros w Hwin. apply in_map_iff in Hwin.
  destruct Hwin as [row [<- _]]. cbv zeta.
  apply (fkp_weight_range P0 (spline_call curve (snd row))). apply Hpos.
Qed.

Lemma X18_fkp_weights_in_unit_interval_witness :
  rank (comm (fkp_catalog (Some 1000))) = 0%nat
  /\ P0_fkp (fkp_catalog (Some 1000)) = Some 1000
  /\ (forall z, 0 <= flat_density flat_curve z * 1000)
  /\ forall arrays i,
       In (EvYield arrays)
          (trace (read flat_density ["Weight"%string] false
                    (fkp_catalog (Some 1000)))) ->
       nth_error ["Weight"%string] i = Some "Weight"%string ->
       exists ws,
         nth_error arrays i = Some (Arr1 ws)
         /\ Forall (fun w => exists y, w = Some y /\ 0 < y <= 1) ws.
Proof.
  assert (Hvalid : forall col, In col ["Weight"%string] -> In col valid).
  { intros col [<- | []]. right. left. reflexivity. }
  assert (Hpos : forall z : R, 0 <= flat_density flat_curve z * 1000)
    by (intros z; unfold flat_density; lra).
  split; [reflexivity|]. split; [reflexivity|]. split; [exact Hpos|].
  exact (X18_fkp_weights_in_unit_interval flat_density
           (fkp_catalog (Some 1000)) ref_data ["Weight"%string] false
           vzero flat_curve flat_cosmology 1000
           eq_refl eq_refl Hvalid eq_refl eq_refl eq_refl eq_refl eq_refl Hpos).
Defined.

Lemma rows_column_of spline_call c off curve weights ch key :
  length weights = length (chunk_coords ch) ->
  rows (column_of spline_call c off curve weights ch key)
  = length (chunk_coords ch).
Proof.
  intros Hw. unfold column_of, rows.
  destruct (String.eqb key "Position"); [cbn; apply length_map|].
  destruct (String.eqb key "Weight"); cbn; [exact Hw|apply length_map].
Qed.

(** X19.  On rank 0 the arrays built for one chunk are aligned: with
    offset, curve and cosmology in place and valid columns, the loop
    body returns one array per requested column and each has exactly as
    many rows as the chunk has coordinates -- always when FKP weighting
    is on with P0_fkp set (the upstream weights are then not used), and
    when it is off provided the upstream weight column is as long as
    the coordinate column. *)
Theorem X19_columns_have_equal_rows :
  forall (spline_call : Curve -> R -> R) (self : TracerCatalog)
         (columns : list string) (off : vec3) (curve : Curve)
         (c : Cosmology) (ch : Chunk),
    (forall col, In col columns -> In col valid) ->
    offset self = Some off -> nbar self = Some curve ->
    cosmo self = Some c ->
    (compute_fkp_weights self = true -> P0_fkp self <> None) ->
    (compute_fkp_weights self = false ->
     length (chunk_weight ch) = length (chunk_coords ch)) ->
    exists arrays,
      root_chunk spline_call columns ch self = (Return arrays, self, [])
      /\ length arrays = length columns
      /\ Forall (fun d => rows d = length (chunk_coords ch)) arrays.
Proof.
  intros spline_call self columns off curve c ch
         Hvalid Hoff Hnbar Hcosmo Hon Hoff_mode.
  assert (Hgen : forall weights,
            length weights = length (chunk_coords ch) ->
            length (map (column_of spline_call c off curve weights ch) columns)
            = length columns
            /\ Forall (fun d => rows d = length (chunk_coords ch))
                 (map (column_of spline_call c off curve weights ch) columns)).
  { intros weights Hw. split; [apply length_map|].
    apply Forall_forall. intros d Hd. apply in_map_iff in Hd.
    destruct Hd as [key [<- _]]. apply rows_column_of. exact Hw. }
  destruct (compute_fkp_weights self) eqn:Hfkp.
  - destruct (P0_fkp self) as [P0|] eqn:HP0;
      [|exfalso; apply Hon; reflexivity].
    eexists. split.
    + unfold root_chunk.
      rewrite bind_get, Hoff, (to_cartesian_rows self c _ _ Hcosmo).
      rewrite bind_lift_Return, Hnbar, Hfkp, HP0, bind_ret.
      unfold lift.
      rewrite (select_columns spline_call c off curve _ ch columns Hvalid).
      reflexivity.
    + apply Hgen. rewrite !length_map. reflexivity.
  - eexists. split.
    + apply (root_chunk_plain spline_call self columns off curve c ch
               Hvalid Hoff Hnbar Hcosmo Hfkp).
    + apply Hgen. rewrite length_map. apply Hoff_mode. reflexivity.
Qed.

Lemma X19_columns_have_equal_rows_witness :
  offset (fkp_catalog (Some 1000)) = Some vzero
  /\ nbar (fkp_catalog (Some 1000)) = Some flat_curve
  /\ exists arrays,
       root_chunk (fun _ _ => 2) ["Nbar"; "Position"]%string
         {| chunk_coords := [(0, 0, 1); (0, 0, 2)]; chunk_weight := [] |}
         (fkp_catalog (Some 1000))
       = (Return arrays, fkp_catalog (Some 1000), [])
       /\ length arrays = 2%nat
       /\ Forall (fun d => rows d = 2%nat) arrays.
Proof.
  assert (Hvalid : forall col, In col ["Nbar"; "Position"]%string ->
                               In col valid).
  { intros col [<- | [<- | []]]; [right; right; left|left]; reflexivity. }
  split; [reflexivity|]. split; [reflexivity|].
  refine (X19_columns_have_equal_rows (fun _ _ => 2)
            (fkp_catalog (Some 1000)) ["Nbar"; "Position"]%string
            vzero flat_curve flat_cosmology
            {| chunk_coords := [(0, 0, 1); (0, 0, 2)]; chunk_weight := [] |}
            Hvalid eq_refl eq_refl eq_refl _ _).
  - intros _. discriminate.
  - intros H. discriminate H.
Defined.

(* ================================================================== *)
(** * Ranks that part ways at a collective *)

Lemma box_step_events self (lo hi : corner) :
  forall e,
    In e (trace ((match lo, hi with
                  | Some l, Some h => _define_box l h
                  | _, _ => emit EvNonFiniteBox
                  end) self)) ->
    e = EvNonFiniteBox \/ exists i, e = EvWarning i.
Proof.
  intros e. destruct lo as [l|]; [destruct hi as [h|]|].
  - destruct (BoxSize self) as [b|] eqn:HB.
    + rewrite (define_box_user self l h b HB). cbn [trace snd].
      intros H. right. apply (warnings_only _ _ _ H).
    + destruct l as [[l1 l2] l3]. destruct h as [[h1 h2] h3].
      rewrite (define_box_auto self _ _ _ _ _ _ HB). intros [].
  - intros [<- | []]. left. reflexivity.
  - intros [<- | []]. left. reflexivity.
Qed.

Lemma root_work_fsky_missing_events self own :
  nbar self = None -> fsky self = None ->
  outcome (root_work own self) = Raise (ValueError fsky_message)
  /\ ~ In EvBcast (trace (root_work own self)).
Proof.
  intros Hn Hf. unfold root_work. rewrite bind_get.
  set (lo := np_amin (map part_min (own :: gather_others (comm self)))).
  set (hi := np_amax (map part_max (own :: gather_others (comm self)))).
  destruct (box_step_runs self lo hi) as [s' [t [Hbox [Hn' [Hf' _]]]]].
  pose proof (box_step_events self lo hi) as Hev.
  rewrite Hbox in Hev. cbn [trace snd] in Hev.
  rewrite (bind_Return _ _ _ _ _ _ Hbox).
  rewrite (set_nbar_fsky_missing s') by congruence.
  rewrite outcome_prepend, trace_prepend. cbn [outcome trace fst snd].
  rewrite app_nil_r. split; [reflexivity|].
  intros Hin. destruct (Hev _ Hin) as [H | [i H]]; discriminate H.
Qed.

(** Rank 0 without curve and without fsky: the whole run of
    [__init__], read off the rows of the data source. *)
Lemma init_root_fsky_missing self c :
  cosmo self = Some c -> nbar self = None -> fsky self = None ->
  rank (comm self) = 0%nat ->
  let chunks := read_chunks (data self) false in
  let points := map (to_cartesian_row c default_translate) (all_rows chunks) in
  let own := {| part_min := corner_min None points;
                part_max := corner_max None points;
                part_redshifts := map snd (all_rows chunks) |} in
  let parts := own :: gather_others (comm self) in
  let box :=
    (match np_amin (map part_min parts), np_amax (map part_max parts) with
     | Some lo, Some hi => _define_box lo hi
     | _, _ => emit EvNonFiniteBox
     end) (set_offset None (set__source None self)) in
  __init__ self =
  (Raise (ValueError fsky_message), final box,
   init_prefix (length chunks) ++ trace box).
Proof.
  intros Hc Hn Hf Hr chunks points own parts box.
  unfold __init__.
  rewrite !bind_modify, bind_get. cbn [cosmo set_offset set__source].
  rewrite Hc. rewrite !bind_emit.
  set (s0 := set_offset None (set__source None self)).
  change (data s0) with (data self). fold chunks.
  assert (Hown : accumulate chunks 0
                   {| part_min := None; part_max := None;
                      part_redshifts := [] |} s0
                 = (Return own, s0, map EvChunk (seq 0 (length chunks)))).
  { rewrite (accumulate_result s0 c chunks Hc). reflexivity. }
  rewrite (bind_Return _ _ _ _ _ _ Hown). rewrite !bind_emit.
  change (rank (comm s0)) with (rank (comm self)). rewrite Hr. cbn [Nat.eqb].
  assert (Hroot : root_work own s0
                  = (Raise (ValueError fsky_message), final box, trace box)).
  { unfold root_work. rewrite bind_get.
    change (comm s0) with (comm self). fold parts.
    destruct (box_step_runs s0 (np_amin (map part_min parts))
                (np_amax (map part_max parts)))
      as [s' [t [Hbox [Hn' [Hf' _]]]]].
    assert (Hfinal : final box = s') by exact (f_equal final Hbox).
    assert (Htrace : trace box = t) by exact (f_equal trace Hbox).
    rewrite (bind_Return _ _ _ _ _ _ Hbox).
    rewrite (set_nbar_fsky_missing s' _ _
               (eq_trans Hn' Hn) (eq_trans Hf' Hf)).
    rewrite Hfinal, Htrace. unfold prepend. cbn [outcome final trace fst snd].
    rewrite app_nil_r. reflexivity. }
  rewrite (bind_Raise _ _ _ _ _ _ Hroot).
  unfold prepend, init_prefix. cbn [outcome final trace fst snd app].
  rewrite <- !app_assoc. reflexivity.
Qed.

(** A rank other than 0 reads, gathers and enters the first broadcast,
    whatever its curve and fsky. *)
Lemma init_other_rank_reaches_bcast self c :
  cosmo self = Some c -> rank (comm self) <> 0%nat ->
  exists rest,
    trace (__init__ self) =
      init_prefix (length (read_chunks (data self) false)) ++ EvBcast :: rest.
Proof.
  intros Hc Hr. destruct (init_other_rank_trace self c Hc Hr) as [_ H].
  exists [EvBcast; EvBcast]. exact H.
Qed.



(** X20.  A missing fsky splits the ranks at the broadcasts of
    [__init__]: with the same kind of configuration (cosmology present,
    no curve, no fsky) rank 0 raises after its reads and the three
    gathers, in the density step that follows the box step, and never
    reaches a broadcast: what it does after the gathers only logs
    warnings or the non-finite box.  Every other rank raises nothing on
    its way through the reads and the gathers and enters the first
    broadcast, where nothing from rank 0 will arrive. *)
Theorem X20_missing_fsky_splits_ranks :
  forall (root other : TracerCatalog) (c c' : Cosmology),
    cosmo root = Some c -> nbar root = None -> fsky root = None ->
    rank (comm root) = 0%nat ->
    cosmo other = Some c' -> rank (comm other) <> 0%nat ->
    outcome (__init__ root) = Raise (ValueError fsky_message)
    /\ (exists box_events,
          trace (__init__ root) =
            init_prefix (length (read_chunks (data root) false)) ++ box_events
          /\ forall e, In e box_events ->
               e = EvNonFiniteBox \/ exists i, e = EvWarning i)
    /\ ~ In EvBcast (trace (__init__ root))
    /\ (exists rest,
          trace (__init__ other) =
            init_prefix (length (read_chunks (data other) false))
              ++ EvBcast :: rest).
Proof.
  intros root other c c' Hc Hn Hf Hr Hc' Hr'.
  pose proof (init_root_fsky_missing root c Hc Hn Hf Hr) as Hrun.
  cbv zeta in Hrun.
  match type of Hrun with
  | _ = (_, final ?b, _) => set (box := b) in Hrun
  end.
  assert (Hev : forall e, In e (trace box) ->
                  e = EvNonFiniteBox \/ exists i, e = EvWarning i).
  { subst box. apply box_step_events. }
  rewrite Hrun. cbn [outcome trace fst snd].
  split; [reflexivity|]. split.
  - exists (trace box). split; [reflexivity|exact Hev].
  - split.
    + intros Hin. apply in_app_or in Hin. destruct Hin as [Hin | Hin].
      * unfold init_prefix in Hin. cbn [app] in Hin.
        destruct Hin as [Hin | [Hin | Hin]]; try discriminate Hin.
        apply in_app_or in Hin. destruct Hin as [Hin | Hin].
        -- apply in_map_iff in Hin. destruct Hin as [k [Hk _]]. discriminate Hk.
        -- destruct Hin as [Hin | [Hin | [Hin | []]]]; discriminate Hin.
      * destruct (Hev _ Hin) as [H | [i H]]; discriminate H.
    + apply (init_other_rank_reaches_bcast other c' Hc' Hr').
Qed.

(** X21.  A missing P0_fkp splits the ranks at the first broadcast of
    a read pass: with FKP weighting on and P0_fkp absent, rank 0 raises
    on the first upstream chunk before any broadcast and yields
    nothing, while a rank other than 0, whatever its settings, raises
    nothing and enters the broadcast of that chunk. *)
Theorem X21_missing_P0_splits_ranks :
  forall (spline_call : Curve -> R -> R) (root other : TracerCatalog)
         (src src' : source_ref) (columns : list string) (full : bool)
         (off : vec3) (curve : Curve) (c : Cosmology),
    (forall col, In col columns -> In col valid) ->
    rank (comm root) = 0%nat -> _source root = Some src ->
    offset root = Some off -> nbar root = Some curve -> cosmo root = Some c ->
    compute_fkp_weights root = true -> P0_fkp root = None ->
    read_chunks (deref root src) full <> [] ->
    rank (comm other) <> 0%nat -> _source other = Some src' ->
    read_chunks (deref other src') full <> [] ->
    read spline_call columns full root =
      (Raise (ValueError P0_message), root,
       [EvOpen src ["Position"; "Weight"]%string full; EvChunk 0])
    /\ outcome (read spline_call columns full other) = Return tt
    /\ In EvBcast (trace (read spline_call columns full other)).
Proof.
  intros spline_call root other src src' columns full off curve c
         Hvalid Hr Hs Hoff Hnbar Hcosmo Hfkp HP0 Hne Hr' Hs' Hne'.
  split.
  - unfold read. rewrite bind_get, Hs, (columns_checked columns Hvalid).
    rewrite bind_emit.
    destruct (read_chunks (deref root src) full) as [|ch rest];
      [contradiction|].
    cbn [read_loop]. rewrite bind_emit, bind_get, Hr. cbv zeta.
    cbn [Nat.eqb].
    rewrite (bind_Raise _ _ _ _ _ _
               (root_chunk_no_P0 spline_call root columns off curve c
                  Hoff Hnbar Hcosmo Hfkp ch HP0)).
    reflexivity.
  - unfold read. rewrite bind_get, Hs', (columns_checked columns Hvalid).
    rewrite bind_emit, (read_loop_other_rank spline_call other columns Hr').
    destruct (read_chunks (deref other src') full) as [|ch rest];
      [contradiction|].
    split; [reflexivity|].
    rewrite trace_prepend. cbn [trace snd length seq combine map concat app].
    right. right. left. reflexivity.
Qed.

Lemma X21_missing_P0_splits_ranks_witness :
  P0_fkp (fkp_catalog None) = None
  /\ rank (comm (with_comm peer_comm (fkp_catalog None))) <> 0%nat
  /\ read flat_density ["Weight"%string] false (fkp_catalog None) =
       (Raise (ValueError P0_message), fkp_catalog None,
        [EvOpen ref_data ["Position"; "Weight"]%string false; EvChunk 0])
  /\ outcome (read flat_density ["Weight"%string] false
                (with_comm peer_comm (fkp_catalog None))) = Return tt.
Proof.
  assert (Hvalid : forall col, In col ["Weight"%string] -> In col valid).
  { intros col [<- | []]. right. left. reflexivity. }
  assert (Hr : rank (comm (with_comm peer_comm (fkp_catalog None))) <> 0%nat)
    by discriminate.
  assert (Hne : read_chunks (deref (fkp_catalog None) ref_data) false <> [])
    by discriminate.
  assert (Hne' : read_chunks
                   (deref (with_comm peer_comm (fkp_catalog None)) ref_data)
                   false <> []) by discriminate.
  split; [reflexivity|]. split; [exact Hr|].
  destruct (X21_missing_P0_splits_ranks flat_density (fkp_catalog None)
              (with_comm peer_comm (fkp_catalog None)) ref_data ref_data
              ["Weight"%string] false vzero flat_curve flat_cosmology
              Hvalid eq_refl eq_refl eq_refl eq_refl eq_refl eq_refl eq_refl
              Hne Hr eq_refl Hne') as [H1 [H2 _]].
  split; [exact H1|exact H2].
Defined.

Lemma X20_missing_fsky_splits_ranks_witness :
  cosmo bare_catalog = Some flat_cosmology
  /\ nbar bare_catalog = None /\ fsky bare_catalog = None
  /\ rank (comm bare_catalog) = 0%nat
  /\ rank (comm (with_comm peer_comm bare_catalog)) <> 0%nat
  /\ ~ In EvBcast (trace (__init__ bare_catalog))
  /\ exists rest,
       trace (__init__ (with_comm peer_comm bare_catalog)) =
         init_prefix 1 ++ EvBcast :: rest.
Proof.
  assert (Hr : rank (comm (with_comm peer_comm bare_catalog)) <> 0%nat)
    by discriminate.
  do 4 (split; [reflexivity|]). split; [exact Hr|].
  destruct (X20_missing_fsky_splits_ranks bare_catalog
              (with_comm peer_comm bare_catalog) flat_cosmology flat_cosmology
              eq_refl eq_refl eq_refl eq_refl eq_refl Hr)
    as [_ [_ [H3 H4]]].
  split; [exact H3|exact H4].
Defined.

(* ================================================================== *)
(** * The estimator on sixty-four redshifts: 8 at 0, 48 at 1, 8 at 2 *)

(** Turning [INR] of a numeral into the numeral. *)
Ltac inr_lits :=
  repeat match goal with
    | |- context [INR ?k] =>
        let v := eval compute in (Z.of_nat k) in
        replace (INR k) with (IZR v) by (rewrite INR_IZR_INZ; reflexivity)
    end.

Lemma np_sum_app l m : np_sum (l ++ m) = np_sum l + np_sum m.
Proof.
  induction l as [|x l IH]; cbn [app np_sum fold_right].
  - fold (np_sum m). ring.
  - fold (np_sum (l ++ m)). fold (np_sum l). rewrite IH. ring.
Qed.

Lemma np_mean_sample64 : np_mean sample64 = 1.
Proof.
  unfold np_mean, sample64.
  rewrite !np_sum_app, !np_sum_repeat, !length_app, !repeat_length.
  change (8 + (48 + 8))%nat with 64%nat. inr_lits. lra.
Qed.

Lemma np_std_sample64 : np_std sample64 = 1 / 2.
Proof.
  unfold np_std. rewrite np_mean_sample64.
  replace (np_mean (map (fun x => Rsqr (x - 1)) sample64))
    with ((1 / 2) * (1 / 2)).
  - apply sqrt_square. lra.
  - unfold np_mean, sample64.
    rewrite !map_app, !map_repeat, !np_sum_app, !np_sum_repeat,
      !length_app, !repeat_length.
    change (8 + (48 + 8))%nat with 64%nat. inr_lits. unfold Rsqr. lra.
Qed.

Lemma cube_root_64 : Rpower (INR 64) (1 / 3) = 4.
Proof.
  replace (INR 64) with (Rpower 4 (INR 3)).
  - rewrite Rpower_mult. replace (INR 3 * (1 / 3)) with 1 by (simpl; lra).
    apply Rpower_1. lra.
  - rewrite Rpower_pow by lra. inr_lits. lra.
Qed.

Lemma scotts_dx_sample64 : scotts_dx sample64 = 7 / 16.
Proof.
  unfold scotts_dx. rewrite np_std_sample64.
  change (length sample64) with 64%nat. rewrite cube_root_64. lra.
Qed.

Lemma fold_left_Rmax_in l : forall a, In (fold_left Rmax l a) (a :: l).
Proof.
  induction l as [|b rest IH]; intros a; cbn [fold_left]; [left; reflexivity|].
  destruct (IH (Rmax a b)) as [H | H]; [|right; right; exact H].
  rewrite <- H. unfold Rmax. destruct (Rle_dec a b);
    [right; left|left]; reflexivity.
Qed.

Lemma fold_left_Rmin_in l : forall a, In (fold_left Rmin l a) (a :: l).
Proof.
  induction l as [|b rest IH]; intros a; cbn [fold_left]; [left; reflexivity|].
  destruct (IH (Rmin a b)) as [H | H]; [|right; right; exact H].
  rewrite <- H. unfold Rmin. destruct (Rle_dec a b);
    [left|right; left]; reflexivity.
Qed.

Lemma np_max_is data hi :
  In hi data -> (forall v, In v data -> v <= hi) -> np_max data = Some hi.
Proof.
  intros Hin Hall. destruct data as [|x rest]; [destruct Hin|].
  cbn [np_max]. f_equal.
  pose proof (fold_left_Rmax_in rest x) as Hmem.
  pose proof (proj1 (fold_left_Rmax_ge rest x)) as H1.
  pose proof (proj2 (fold_left_Rmax_ge rest x)) as H2.
  apply Rle_antisym; [apply Hall; exact Hmem|].
  destruct Hin as [<- | Hin]; [exact H1|apply H2; exact Hin].
Qed.

Lemma np_min_is data lo :
  In lo data -> (forall v, In v data -> lo <= v) -> np_min data = Some lo.
Proof.
  intros Hin Hall. destruct data as [|x rest]; [destruct Hin|].
  cbn [np_min]. f_equal.
  pose proof (fold_left_Rmin_in rest x) as Hmem.
  pose proof (proj1 (fold_left_Rmin_le rest x)) as H1.
  pose proof (proj2 (fold_left_Rmin_le rest x)) as H2.
  apply Rle_antisym; [|apply Hall; exact Hmem].
  destruct Hin as [<- | Hin]; [exact H1|apply H2; exact Hin].
Qed.

Lemma sample64_values v : In v sample64 -> v = 0 \/ v = 1 \/ v = 2.
Proof.
  unfold sample64. intros H.
  apply in_app_or in H. destruct H as [H | H];
    [left; exact (repeat_spec _ _ _ H)|].
  apply in_app_or in H. destruct H as [H | H];
    [right; left; exact (repeat_spec _ _ _ H)
    |right; right; exact (repeat_spec _ _ _ H)].
Qed.

Lemma np_max_sample64 : np_max sample64 = Some 2.
Proof.
  apply np_max_is.
  - unfold sample64. apply in_or_app. right. apply in_or_app. right.
    left. reflexivity.
  - intros v Hv. destruct (sample64_values v Hv) as [-> | [-> | ->]]; lra.
Qed.

Lemma np_min_sample64 : np_min sample64 = Some 0.
Proof.
  apply np_min_is.
  - unfold sample64. apply in_or_app. left. left. reflexivity.
  - intros v Hv. destruct (sample64_values v Hv) as [-> | [-> | ->]]; lra.
Qed.

Lemma bin_count_sample64 : bin_count sample64 2 0 = 5%nat.
Proof.
  unfold bin_count. rewrite scotts_dx_sample64.
  rewrite np_divide_nonzero by lra. cbn [np_ceil option_map].
  replace (Zceil ((2 - 0) * 1 / (7 / 16))) with 5%Z; [reflexivity|].
  symmetry. apply Zceil_eq. simpl. lra.
Qed.

Lemma count_if_app p (l m : list R) :
  count_if p (l ++ m) = (count_if p l + count_if p m)%nat.
Proof. unfold count_if. rewrite filter_app, length_app. reflexivity. Qed.

Lemma count_if_repeat p (v : R) k :
  count_if p (repeat v k) = if p v then k else 0%nat.
Proof.
  induction k as [|k IH]; [destruct (p v); reflexivity|].
  cbn [repeat]. rewrite count_if_cons, IH. destruct (p v); reflexivity.
Qed.

Lemma sample64_bins :
  scotts_bin_width sample64 =
  Return (7 / 16, map (edge 0 (7 / 16)) (seq 0 6)).
Proof.
  rewrite (scotts_bin_width_runs sample64 2 0 np_max_sample64 np_min_sample64).
  rewrite bin_count_sample64, scotts_dx_sample64. reflexivity.
Qed.

Lemma sample64_bin_counts :
  map (fun i => count_if (in_left_closed (edge 0 (7 / 16) i)
                                         (edge 0 (7 / 16) (S i))) sample64)
      (seq 0 5)
  = [8; 0; 48; 0; 8]%nat.
Proof.
  cbn [seq map]. unfold sample64.
  rewrite !count_if_app, !count_if_repeat.
  unfold in_left_closed, edge. inr_lits.
  decide_reals. reflexivity.
Qed.

Lemma sample64_counts :
  nz_counts (map (edge 0 (7 / 16)) (seq 0 6)) sample64 = [8; 0; 48; 0; 8]%nat.
Proof.
  rewrite (nz_counts_uniform (edge 0 (7 / 16)) 5 sample64
             (edge_monotone 0 (7 / 16) ltac:(lra))).
  apply sample64_bin_counts.
Qed.

Lemma sample64_right_closed :
  histogram_right_closed (map (edge 0 (7 / 16)) (seq 0 6)) sample64
  = [0; 0; 48; 0; 8]%nat.
Proof.
  unfold histogram_right_closed, slice_to_m1, slice_from1.
  rewrite tl_map_seq, removelast_map_seq.
  rewrite (map2_map_map (fun lo hi => count_if (in_right_closed lo hi) sample64)).
  cbn [seq map]. unfold sample64.
  rewrite !count_if_app, !count_if_repeat.
  unfold in_right_closed, edge. inr_lits.
  decide_reals. reflexivity.
Qed.

Lemma sample64_curve :
  _set_nbar sample64 1 (with_fsky 1 bare_catalog) =
  (Return tt,
   set_nbar
     (Some (spline
        (map (fun i => 0.5 * (edge 0 (7 / 16) i + edge 0 (7 / 16) (S i)))
             (seq 0 5))
        (map (fun i =>
                np_divide (1 * INR (nth i [8; 0; 48; 0; 8]%nat 0%nat))
                  (shell_volume 1 (edge 0 (7 / 16) (S i))
                                  (edge 0 (7 / 16) i)))
             (seq 0 5))))
     (with_fsky 1 bare_catalog),
   []).
Proof.
  rewrite (set_nbar_curve (with_fsky 1 bare_catalog) sample64 1 1
             flat_cosmology 2 0 eq_refl eq_refl eq_refl
             np_max_sample64 np_min_sample64).
  cbv zeta. rewrite bin_count_sample64, scotts_dx_sample64.
  rewrite spline_enough by (rewrite length_map, length_seq; lia).
  pose proof sample64_bin_counts as Hc. cbn [seq map] in Hc.
  injection Hc as H0 H1 H2 H3 H4.
  cbn [seq map nth comoving_distance flat_cosmology].
  rewrite H0, H1, H2, H3, H4. reflexivity.
Qed.

(** C4 as stated fails.  On eight redshifts at 0, forty-eight at 1 and
    eight at 2 there are five bins of width 7/16 starting at 0, so the
    spline is fitted and the curve stored.  A right-closed digitize
    puts the eight redshifts at 0 in the discarded first tail bucket
    and counts 0, 0, 48, 0, 8; the code counts 8, 0, 48, 0, 8, so the
    first ordinate of the stored curve is alpha*8/volume and not
    alpha*0/volume. *)
Lemma C4_counterexample :
  exists dx zbins curve,
    scotts_bin_width sample64 = Return (dx, zbins)
    /\ _set_nbar sample64 1 (with_fsky 1 bare_catalog)
       = (Return tt, set_nbar (Some curve) (with_fsky 1 bare_catalog), [])
    /\ nz_counts zbins sample64 = [8; 0; 48; 0; 8]%nat
    /\ histogram_right_closed zbins sample64 = [0; 0; 48; 0; 8]%nat
    /\ nth 0 (ordinates curve) None
       <> np_divide
            (1 * INR (nth 0 (histogram_right_closed zbins sample64) 0%nat))
            (shell_volume 1
               (comoving_distance flat_cosmology (nth 1 zbins 0))
               (comoving_distance flat_cosmology (nth 0 zbins 0))).
Proof.
  eexists. eexists. eexists.
  split; [apply sample64_bins|].
  split; [apply sample64_curve|].
  split; [apply sample64_counts|].
  split; [apply sample64_right_closed|].
  rewrite sample64_right_closed.
  cbn [ordinates seq map nth comoving_distance flat_cosmology].
  assert (Hv : 0 < shell_volume 1 (edge 0 (7 / 16) 1) (edge 0 (7 / 16) 0)).
  { apply shell_volume_positive; [lra|]. apply edge_increasing; [lra|lia]. }
  rewrite !np_divide_nonzero by lra.
  intros H. injection H as H.
  assert (Hq : 0 < / shell_volume 1 (edge 0 (7 / 16) 1) (edge 0 (7 / 16) 0))
    by (apply Rinv_0_lt_compat; exact Hv).
  simpl INR in H. unfold Rdiv in H. lra.
Qed.

Lemma C4_density_estimator_witness :
  nbar (with_fsky 1 bare_catalog) = None
  /\ fsky (with_fsky 1 bare_catalog) = Some 1
  /\ cosmo (with_fsky 1 bare_catalog) = Some flat_cosmology
  /\ exists hi lo Nbins,
       np_max sample8 = Some hi /\ np_min sample8 = Some lo
       /\ (1 <= Nbins)%nat.
Proof.
  do 3 (split; [reflexivity|]).
  destruct (C4_density_estimator (with_fsky 1 bare_catalog) 0
              [0; 0; 0; 1; 1; 1; 1] 1 1 flat_cosmology
              eq_refl eq_refl eq_refl)
    as [hi [lo [Nbins [Hhi [Hlo [Hn _]]]]]].
  exists hi, lo, Nbins. repeat split; assumption.
Defined.

Lemma X16_density_defined_and_nonnegative_witness :
  nbar (with_fsky 1 bare_catalog) = None
  /\ np_std sample64 <> 0 /\ 3 < (2 - 0) / scotts_dx sample64
  /\ 0 < 1 /\ 0 <= 1
  /\ (forall a b, a < b ->
        comoving_distance flat_cosmology a < comoving_distance flat_cosmology b)
  /\ exists zs ys,
       _set_nbar sample64 1 (with_fsky 1 bare_catalog) =
         (Return tt,
          set_nbar (Some (spline zs (map Some ys))) (with_fsky 1 bare_catalog),
          [])
       /\ length zs = length ys /\ (4 <= length ys)%nat.
Proof.
  assert (Hstd : np_std sample64 <> 0) by (rewrite np_std_sample64; lra).
  assert (Hq : 3 < (2 - 0) / scotts_dx sample64)
    by (rewrite scotts_dx_sample64; lra).
  assert (Hone : 0 < 1) by lra. assert (Hal : 0 <= 1) by lra.
  assert (Hmono : forall a b, a < b ->
            comoving_distance flat_cosmology a
            < comoving_distance flat_cosmology b)
    by (intros a b H; exact H).
  split; [reflexivity|]. split; [exact Hstd|]. split; [exact Hq|].
  split; [exact Hone|]. split; [exact Hal|]. split; [exact Hmono|].
  destruct (X16_density_defined_and_nonnegative (with_fsky 1 bare_catalog)
              sample64 2 0 1 1 flat_cosmology eq_refl eq_refl eq_refl
              np_max_sample64 np_min_sample64 Hstd Hq Hone Hal Hmono)
    as [zs [ys [H1 [H2 [H3 _]]]]].
  exists zs, ys. repeat split; assumption.
Defined.
